(** * msdf-atlas-gen: the console program's configuration fix-up, seed
      assignment and pack/generate pipeline

    A shallow embedding of [src/msdf-atlas-gen/main.cpp]: the part of [main]
    that runs once the command line has been parsed.  Machine integers are
    [Z] with their wrap-around written out, [double] is the kernel's binary64
    [float], and console output, packer calls and file exports are events of
    a small writer monad with early return. *)

From Stdlib Require Import ZArith List Bool Ascii String Lia Floats.
Import ListNotations.

Local Open Scope Z_scope.

(* ================================================================= *)
(** ** Machine integers *)

Module MachineInt.

Definition INT_MAX : Z := 2147483647.
Definition ULLONG_MAX : Z := 18446744073709551615.

(** [unsigned long long] arithmetic: every result is reduced modulo 2^64. *)
Definition wrap64 (z : Z) : Z := z mod 2 ^ 64.

(** Conversion to [int] (32 bits, two's complement). *)
Definition to_int (z : Z) : Z := (z + 2 ^ 31) mod 2 ^ 32 - 2 ^ 31.

(** Conversion of an [int] operand to [unsigned long long], as the usual
    arithmetic conversions do for [ull ^ int] and [ull * int]. *)
Definition int_to_ull (i : Z) : Z := wrap64 i.

Definition is_ull (z : Z) : Prop := 0 <= z <= ULLONG_MAX.

(** [!x] and [!!x] on an integer, the latter promoted back to an integer. *)
Definition lnot (x : Z) : bool := x =? 0.
Definition bang_bang (x : Z) : Z := Z.b2z (negb (lnot x)).

End MachineInt.
Import MachineInt.

(* ================================================================= *)
(** ** Types of the program *)

(** [double] *)
Definition double : Set := float.

Definition DEFAULT_SIZE : double := 32%float.
Definition DEFAULT_ANGLE_THRESHOLD : double := 3%float.
Definition DEFAULT_MITER_LIMIT : double := 1%float.
Definition DEFAULT_PIXEL_RANGE : double := 2%float.
Definition LCG_MULTIPLIER : Z := 6364136223846793005.
Definition LCG_INCREMENT : Z := 1442695040888963407.

(** The inverse of the multiplier modulo 2^64. *)
Definition LCG_MULTIPLIER_inverse : Z := 13877824140714322085.

(** [a > b] and [a == b] on doubles. *)
Definition dgt (a b : double) : bool := PrimFloat.ltb b a.
Definition deq (a b : double) : bool := PrimFloat.eqb a b.

Inductive Units := EMS | PIXELS.

Inductive ImageType := HARD_MASK | SOFT_MASK | SDF | PSDF | MSDF | MTSDF.

Inductive ImageFormat :=
  UNSPECIFIED | PNG | BMP | TIFF | RGBA | FL32 | TEXT | TEXT_FLOAT
| BINARY | BINARY_FLOAT | BINARY_FLOAT_BE.

Inductive YDirection := BOTTOM_UP | TOP_DOWN.

Inductive PackingStyle := TIGHT | GRID.

Inductive DimensionsConstraint :=
  NONE | SQUARE | EVEN_SQUARE | MULTIPLE_OF_FOUR_SQUARE
| POWER_OF_TWO_RECTANGLE | POWER_OF_TWO_SQUARE.

(** [msdfgen::Range]: the two bounds [main] reads ([rangeValue.lower],
    [rangeValue.upper]); a single double converts to the symmetrical range
    of that width, two doubles give the bounds. *)
Record Range := mkRange { lower : double; upper : double }.

Definition Range_of_width (symmetricalWidth : double) : Range :=
  mkRange (-0.5 * symmetricalWidth)%float (0.5 * symmetricalWidth)%float.

Definition Range_of_bounds (lowerBound upperBound : double) : Range :=
  mkRange lowerBound upperBound.

Definition Range_width (r : Range) : double := (upper r - lower r)%float.

(** [Padding]: left, bottom, right, top. *)
Record Padding := mkPadding { pl : double; pb : double; pr : double; pt : double }.

Definition Padding_uniform (p : double) : Padding := mkPadding p p p p.
Definition Padding_zero : Padding := Padding_uniform 0%float.

(** [msdfgen::ErrorCorrectionConfig] *)
Module ErrorCorrectionConfig.
Inductive Mode := DISABLED | INDISCRIMINATE | EDGE_PRIORITY | EDGE_ONLY.
Inductive DistanceCheckMode :=
  DO_NOT_CHECK_DISTANCE | CHECK_DISTANCE_AT_EDGE | ALWAYS_CHECK_DISTANCE.

Record t := mk {
  mode : Mode;
  distanceCheckMode : DistanceCheckMode;
  minDeviationRatio : double;
  minImproveRatio : double
}.

Definition DistanceCheckMode_eqb (a b : DistanceCheckMode) : bool :=
  match a, b with
  | DO_NOT_CHECK_DISTANCE, DO_NOT_CHECK_DISTANCE
  | CHECK_DISTANCE_AT_EDGE, CHECK_DISTANCE_AT_EDGE
  | ALWAYS_CHECK_DISTANCE, ALWAYS_CHECK_DISTANCE => true
  | _, _ => false
  end.

Definition set_distanceCheckMode (d : DistanceCheckMode) (ec : t) : t :=
  mk (mode ec) d (minDeviationRatio ec) (minImproveRatio ec).
End ErrorCorrectionConfig.

(** [msdfgen::MSDFGeneratorConfig] and [GeneratorAttributes] *)
Record MSDFGeneratorConfig := mkGenConfig {
  overlapSupport : bool;
  errorCorrection : ErrorCorrectionConfig.t
}.

Record GeneratorAttributes := mkGenAttrs {
  config : MSDFGeneratorConfig;
  scanlinePass : bool
}.

(** The edge colouring heuristics a [Configuration] can point at. *)
Inductive EdgeColoringFn :=
  edgeColoringSimple | edgeColoringInkTrap | edgeColoringByDistance.

Record GridConfig := mkGrid {
  cellWidth : Z; cellHeight : Z;
  cols : Z; rows : Z;
  fixedOriginX : bool; fixedOriginY : bool
}.

(** [struct Configuration] *)
Record Configuration := mkConfiguration {
  imageType : ImageType;
  imageFormat : ImageFormat;
  yDirection : YDirection;
  width : Z; height : Z;
  emSize : double;
  pxRange : Range;
  angleThreshold : double;
  miterLimit : double;
  pxAlignOriginX : bool; pxAlignOriginY : bool;
  grid : GridConfig;
  edgeColoring : EdgeColoringFn;
  expensiveColoring : bool;
  coloringSeed : Z;
  generatorAttributes : GeneratorAttributes;
  preprocessGeometry : bool;
  kerning : bool;
  threadCount : Z;
  arteryFontFilename : option string;
  imageFilename : option string;
  jsonFilename : option string;
  csvFilename : option string;
  shadronPreviewFilename : option string;
  shadronPreviewText : option string
}.

(** The local variables of [main] that outlive the command-line loop and
    steer fix-up and packing. *)
Record Locals := mkLocals {
  cfg : Configuration;
  fixedWidth : Z; fixedHeight : Z;
  fixedCellWidth : Z; fixedCellHeight : Z;
  packingSpacing : Z;
  minEmSize : double;
  rangeUnits : Units;
  rangeValue : Range;
  innerPadding : Padding;
  outerPadding : Padding;
  innerPaddingUnits : Units;
  outerPaddingUnits : Units;
  packingStyle : PackingStyle;
  atlasSizeConstraint : DimensionsConstraint;
  cellSizeConstraint : DimensionsConstraint;
  explicitErrorCorrectionMode : bool
}.

(* ----------------------------------------------------------------- *)
(** *** Assignments to single fields *)

Definition set_miterLimit (v : double) (c : Configuration) : Configuration :=
  mkConfiguration (imageType c) (imageFormat c) (yDirection c) (width c) (height c)
    (emSize c) (pxRange c) (angleThreshold c) v (pxAlignOriginX c)
    (pxAlignOriginY c) (grid c) (edgeColoring c) (expensiveColoring c)
    (coloringSeed c) (generatorAttributes c) (preprocessGeometry c) (kerning c)
    (threadCount c) (arteryFontFilename c) (imageFilename c) (jsonFilename c)
    (csvFilename c) (shadronPreviewFilename c) (shadronPreviewText c).

Definition set_kerning (v : bool) (c : Configuration) : Configuration :=
  mkConfiguration (imageType c) (imageFormat c) (yDirection c) (width c) (height c)
    (emSize c) (pxRange c) (angleThreshold c) (miterLimit c) (pxAlignOriginX c)
    (pxAlignOriginY c) (grid c) (edgeColoring c) (expensiveColoring c)
    (coloringSeed c) (generatorAttributes c) (preprocessGeometry c) v
    (threadCount c) (arteryFontFilename c) (imageFilename c) (jsonFilename c)
    (csvFilename c) (shadronPreviewFilename c) (shadronPreviewText c).

Definition set_threadCount (v : Z) (c : Configuration) : Configuration :=
  mkConfiguration (imageType c) (imageFormat c) (yDirection c) (width c) (height c)
    (emSize c) (pxRange c) (angleThreshold c) (miterLimit c) (pxAlignOriginX c)
    (pxAlignOriginY c) (grid c) (edgeColoring c) (expensiveColoring c)
    (coloringSeed c) (generatorAttributes c) (preprocessGeometry c) (kerning c)
    v (arteryFontFilename c) (imageFilename c) (jsonFilename c)
    (csvFilename c) (shadronPreviewFilename c) (shadronPreviewText c).

Definition set_generatorAttributes (v : GeneratorAttributes) (c : Configuration)
  : Configuration :=
  mkConfiguration (imageType c) (imageFormat c) (yDirection c) (width c) (height c)
    (emSize c) (pxRange c) (angleThreshold c) (miterLimit c) (pxAlignOriginX c)
    (pxAlignOriginY c) (grid c) (edgeColoring c) (expensiveColoring c)
    (coloringSeed c) v (preprocessGeometry c) (kerning c)
    (threadCount c) (arteryFontFilename c) (imageFilename c) (jsonFilename c)
    (csvFilename c) (shadronPreviewFilename c) (shadronPreviewText c).

(** [atlasPacker.getDimensions(config.width, config.height)] *)
Definition set_dimensions (w h : Z) (c : Configuration) : Configuration :=
  mkConfiguration (imageType c) (imageFormat c) (yDirection c) w h
    (emSize c) (pxRange c) (angleThreshold c) (miterLimit c) (pxAlignOriginX c)
    (pxAlignOriginY c) (grid c) (edgeColoring c) (expensiveColoring c)
    (coloringSeed c) (generatorAttributes c) (preprocessGeometry c) (kerning c)
    (threadCount c) (arteryFontFilename c) (imageFilename c) (jsonFilename c)
    (csvFilename c) (shadronPreviewFilename c) (shadronPreviewText c).

Definition set_emSize (v : double) (c : Configuration) : Configuration :=
  mkConfiguration (imageType c) (imageFormat c) (yDirection c) (width c) (height c)
    v (pxRange c) (angleThreshold c) (miterLimit c) (pxAlignOriginX c)
    (pxAlignOriginY c) (grid c) (edgeColoring c) (expensiveColoring c)
    (coloringSeed c) (generatorAttributes c) (preprocessGeometry c) (kerning c)
    (threadCount c) (arteryFontFilename c) (imageFilename c) (jsonFilename c)
    (csvFilename c) (shadronPreviewFilename c) (shadronPreviewText c).

Definition set_pxRange (v : Range) (c : Configuration) : Configuration :=
  mkConfiguration (imageType c) (imageFormat c) (yDirection c) (width c) (height c)
    (emSize c) v (angleThreshold c) (miterLimit c) (pxAlignOriginX c)
    (pxAlignOriginY c) (grid c) (edgeColoring c) (expensiveColoring c)
    (coloringSeed c) (generatorAttributes c) (preprocessGeometry c) (kerning c)
    (threadCount c) (arteryFontFilename c) (imageFilename c) (jsonFilename c)
    (csvFilename c) (shadronPreviewFilename c) (shadronPreviewText c).

Definition set_grid (v : GridConfig) (c : Configuration) : Configuration :=
  mkConfiguration (imageType c) (imageFormat c) (yDirection c) (width c) (height c)
    (emSize c) (pxRange c) (angleThreshold c) (miterLimit c) (pxAlignOriginX c)
    (pxAlignOriginY c) v (edgeColoring c) (expensiveColoring c)
    (coloringSeed c) (generatorAttributes c) (preprocessGeometry c) (kerning c)
    (threadCount c) (arteryFontFilename c) (imageFilename c) (jsonFilename c)
    (csvFilename c) (shadronPreviewFilename c) (shadronPreviewText c).

(** [config.generatorAttributes.config.errorCorrection.distanceCheckMode = d] *)
Definition set_distanceCheckMode (d : ErrorCorrectionConfig.DistanceCheckMode)
  (c : Configuration) : Configuration :=
  let ga := generatorAttributes c in
  let gc := config ga in
  set_generatorAttributes
    (mkGenAttrs
       (mkGenConfig (overlapSupport gc)
          (ErrorCorrectionConfig.set_distanceCheckMode d (errorCorrection gc)))
       (scanlinePass ga)) c.

Definition set_cfg (c : Configuration) (l : Locals) : Locals :=
  mkLocals c (fixedWidth l) (fixedHeight l) (fixedCellWidth l) (fixedCellHeight l)
    (packingSpacing l) (minEmSize l) (rangeUnits l) (rangeValue l)
    (innerPadding l) (outerPadding l) (innerPaddingUnits l) (outerPaddingUnits l)
    (packingStyle l) (atlasSizeConstraint l) (cellSizeConstraint l)
    (explicitErrorCorrectionMode l).

Definition set_minEmSize (v : double) (l : Locals) : Locals :=
  mkLocals (cfg l) (fixedWidth l) (fixedHeight l) (fixedCellWidth l)
    (fixedCellHeight l) (packingSpacing l) v (rangeUnits l) (rangeValue l)
    (innerPadding l) (outerPadding l) (innerPaddingUnits l) (outerPaddingUnits l)
    (packingStyle l) (atlasSizeConstraint l) (cellSizeConstraint l)
    (explicitErrorCorrectionMode l).

(** [rangeUnits = u; rangeValue = r;] *)
Definition set_range (u : Units) (r : Range) (l : Locals) : Locals :=
  mkLocals (cfg l) (fixedWidth l) (fixedHeight l) (fixedCellWidth l)
    (fixedCellHeight l) (packingSpacing l) (minEmSize l) u r
    (innerPadding l) (outerPadding l) (innerPaddingUnits l) (outerPaddingUnits l)
    (packingStyle l) (atlasSizeConstraint l) (cellSizeConstraint l)
    (explicitErrorCorrectionMode l).

Definition set_atlasSizeConstraint (v : DimensionsConstraint) (l : Locals) : Locals :=
  mkLocals (cfg l) (fixedWidth l) (fixedHeight l) (fixedCellWidth l)
    (fixedCellHeight l) (packingSpacing l) (minEmSize l) (rangeUnits l)
    (rangeValue l) (innerPadding l) (outerPadding l) (innerPaddingUnits l)
    (outerPaddingUnits l) (packingStyle l) v (cellSizeConstraint l)
    (explicitErrorCorrectionMode l).

Definition set_packingSpacing (v : Z) (l : Locals) : Locals :=
  mkLocals (cfg l) (fixedWidth l) (fixedHeight l) (fixedCellWidth l)
    (fixedCellHeight l) v (minEmSize l) (rangeUnits l)
    (rangeValue l) (innerPadding l) (outerPadding l) (innerPaddingUnits l)
    (outerPaddingUnits l) (packingStyle l) (atlasSizeConstraint l)
    (cellSizeConstraint l) (explicitErrorCorrectionMode l).

Definition set_imageType (v : ImageType) (c : Configuration) : Configuration :=
  mkConfiguration
    v (imageFormat c) (yDirection c) (width c) (height c) (emSize c) (pxRange c)
    (angleThreshold c) (miterLimit c) (pxAlignOriginX c) (pxAlignOriginY c)
    (grid c) (edgeColoring c) (expensiveColoring c) (coloringSeed c)
    (generatorAttributes c) (preprocessGeometry c) (kerning c) (threadCount c)
    (arteryFontFilename c) (imageFilename c) (jsonFilename c) (csvFilename c)
    (shadronPreviewFilename c) (shadronPreviewText c).

Definition set_imageFormat (v : ImageFormat) (c : Configuration) : Configuration :=
  mkConfiguration
    (imageType c) v (yDirection c) (width c) (height c) (emSize c) (pxRange c)
    (angleThreshold c) (miterLimit c) (pxAlignOriginX c) (pxAlignOriginY c)
    (grid c) (edgeColoring c) (expensiveColoring c) (coloringSeed c)
    (generatorAttributes c) (preprocessGeometry c) (kerning c) (threadCount c)
    (arteryFontFilename c) (imageFilename c) (jsonFilename c) (csvFilename c)
    (shadronPreviewFilename c) (shadronPreviewText c).

Definition set_imageFilename (v : option string) (c : Configuration) : Configuration :=
  mkConfiguration
    (imageType c) (imageFormat c) (yDirection c) (width c) (height c) (emSize c)
    (pxRange c) (angleThreshold c) (miterLimit c) (pxAlignOriginX c)
    (pxAlignOriginY c) (grid c) (edgeColoring c) (expensiveColoring c)
    (coloringSeed c) (generatorAttributes c) (preprocessGeometry c) (kerning c)
    (threadCount c) (arteryFontFilename c) v (jsonFilename c) (csvFilename c)
    (shadronPreviewFilename c) (shadronPreviewText c).

Definition set_jsonFilename (v : option string) (c : Configuration) : Configuration :=
  mkConfiguration
    (imageType c) (imageFormat c) (yDirection c) (width c) (height c) (emSize c)
    (pxRange c) (angleThreshold c) (miterLimit c) (pxAlignOriginX c)
    (pxAlignOriginY c) (grid c) (edgeColoring c) (expensiveColoring c)
    (coloringSeed c) (generatorAttributes c) (preprocessGeometry c) (kerning c)
    (threadCount c) (arteryFontFilename c) (imageFilename c) v (csvFilename c)
    (shadronPreviewFilename c) (shadronPreviewText c).

Definition set_csvFilename (v : option string) (c : Configuration) : Configuration :=
  mkConfiguration
    (imageType c) (imageFormat c) (yDirection c) (width c) (height c) (emSize c)
    (pxRange c) (angleThreshold c) (miterLimit c) (pxAlignOriginX c)
    (pxAlignOriginY c) (grid c) (edgeColoring c) (expensiveColoring c)
    (coloringSeed c) (generatorAttributes c) (preprocessGeometry c) (kerning c)
    (threadCount c) (arteryFontFilename c) (imageFilename c) (jsonFilename c) v
    (shadronPreviewFilename c) (shadronPreviewText c).

Definition set_coloringSeed (v : Z) (c : Configuration) : Configuration :=
  mkConfiguration
    (imageType c) (imageFormat c) (yDirection c) (width c) (height c) (emSize c)
    (pxRange c) (angleThreshold c) (miterLimit c) (pxAlignOriginX c)
    (pxAlignOriginY c) (grid c) (edgeColoring c) (expensiveColoring c) v
    (generatorAttributes c) (preprocessGeometry c) (kerning c) (threadCount c)
    (arteryFontFilename c) (imageFilename c) (jsonFilename c) (csvFilename c)
    (shadronPreviewFilename c) (shadronPreviewText c).

Definition set_coloring (fn : EdgeColoringFn) (expensive : bool) (c : Configuration) : Configuration :=
  mkConfiguration
    (imageType c) (imageFormat c) (yDirection c) (width c) (height c) (emSize c)
    (pxRange c) (angleThreshold c) (miterLimit c) (pxAlignOriginX c)
    (pxAlignOriginY c) (grid c) fn expensive (coloringSeed c)
    (generatorAttributes c) (preprocessGeometry c) (kerning c) (threadCount c)
    (arteryFontFilename c) (imageFilename c) (jsonFilename c) (csvFilename c)
    (shadronPreviewFilename c) (shadronPreviewText c).

Definition set_fixedDimensions (w h : Z) (l : Locals) : Locals :=
  mkLocals
    (cfg l) w h (fixedCellWidth l) (fixedCellHeight l) (packingSpacing l)
    (minEmSize l) (rangeUnits l) (rangeValue l) (innerPadding l) (outerPadding l)
    (innerPaddingUnits l) (outerPaddingUnits l) (packingStyle l)
    (atlasSizeConstraint l) (cellSizeConstraint l) (explicitErrorCorrectionMode l).

Definition set_fixedCell (w h : Z) (l : Locals) : Locals :=
  mkLocals
    (cfg l) (fixedWidth l) (fixedHeight l) w h (packingSpacing l) (minEmSize l)
    (rangeUnits l) (rangeValue l) (innerPadding l) (outerPadding l)
    (innerPaddingUnits l) (outerPaddingUnits l) (packingStyle l)
    (atlasSizeConstraint l) (cellSizeConstraint l) (explicitErrorCorrectionMode l).

Definition set_packingStyle (v : PackingStyle) (l : Locals) : Locals :=
  mkLocals
    (cfg l) (fixedWidth l) (fixedHeight l) (fixedCellWidth l) (fixedCellHeight l)
    (packingSpacing l) (minEmSize l) (rangeUnits l) (rangeValue l) (innerPadding l)
    (outerPadding l) (innerPaddingUnits l) (outerPaddingUnits l) v
    (atlasSizeConstraint l) (cellSizeConstraint l) (explicitErrorCorrectionMode l).

Definition set_explicitErrorCorrectionMode (v : bool) (l : Locals) : Locals :=
  mkLocals
    (cfg l) (fixedWidth l) (fixedHeight l) (fixedCellWidth l) (fixedCellHeight l)
    (packingSpacing l) (minEmSize l) (rangeUnits l) (rangeValue l) (innerPadding l)
    (outerPadding l) (innerPaddingUnits l) (outerPaddingUnits l) (packingStyle l)
    (atlasSizeConstraint l) (cellSizeConstraint l) v.

(* ================================================================= *)
(** ** What the program tells and asks its collaborators *)

(** The texts written to the console, by the line of [main] that prints
    them; what [printf] formats into a text is the constructor's argument. *)
Inductive message :=
| MsgDefaultSize                          (* neither atlas nor glyph size given *)
| MsgScanlineFallback (fallbackModeName : string)
| MsgNoGlyphs                             (* ABORT: no glyphs loaded *)
| MsgPackFailed                           (* ABORT: could not pack the glyphs *)
| MsgUnplaced (remaining total : Z)       (* could not fit %d out of %d glyphs *)
| MsgNoDimensions                         (* ABORT: unable to determine atlas size *)
| MsgGlyphSize (size : double)
| MsgAtlasDimensions (w h : Z)
| MsgCutoffWarning
| MsgGridCellOrigin (x : option double) (y : option (YDirection * double))
| MsgGridCellDimensions (w h : Z)
| MsgGridAtlasDimensions (w h columns rowCount : Z)
| MsgImageSaved | MsgImageFailed
| MsgArteryFontDone | MsgArteryFontFailed
| MsgCsvDone | MsgCsvFailed
| MsgJsonDone | MsgJsonFailed
| MsgShadronDone | MsgShadronFailed | MsgShadronUnsupported.

(** The setters [main] calls on either packer before [pack]. *)
Inductive DimensionsSetting :=
| setDimensions (w h : Z)
| setDimensionsConstraint (c : DimensionsConstraint).

Inductive ScaleSetting :=
| setScale (s : double)
| setMinimumScale (s : double).

Record PackerSettings := mkPackerSettings {
  ps_dimensions : DimensionsSetting;
  ps_spacing : Z;
  ps_scale : ScaleSetting;
  ps_pixelRange : Range;
  ps_unitRange : Range;
  ps_miterLimit : double;
  ps_originPixelAlignment : bool * bool;
  ps_innerUnitPadding : Padding;
  ps_outerUnitPadding : Padding;
  ps_innerPixelPadding : Padding;
  ps_outerPixelPadding : Padding
}.

Inductive CellSetting :=
| setCellDimensions (w h : Z)
| setCellDimensionsConstraint (c : DimensionsConstraint).

Record GridSettings := mkGridSettings {
  gs_fixedOrigin : bool * bool;
  gs_cell : CellSetting;
  gs_columns : option Z
}.

(** What a packer reports: the int [pack] returns and the getters read
    afterwards (the grid getters are only read for [GridAtlasPacker]). *)
Record PackResult := mkPackResult {
  pr_remaining : Z;
  pr_dimensions : Z * Z;
  pr_scale : double;
  pr_pixelRange : Range;
  pr_hasCutoff : bool;
  pr_cellDimensions : Z * Z;
  pr_columns : Z;
  pr_rows : Z;
  pr_fixedOrigin : double * double
}.

(** One call [glyph.edgeColoring(fn, angleThreshold, seed)]. *)
Record coloring_call := mkColoringCall {
  cc_glyph : nat;
  cc_fn : EdgeColoringFn;
  cc_angleThreshold : double;
  cc_seed : Z
}.

(** The instantiations of [makeAtlas<T, S, N, GEN_FN>]. *)
Inductive Storage := StorageByte | StorageFloat.
Inductive GeneratorFn :=
  scanlineGenerator | sdfGenerator | psdfGenerator | msdfGenerator | mtsdfGenerator.

Record AtlasKind := mkAtlasKind {
  ak_storage : Storage;
  ak_channels : Z;
  ak_generator : GeneratorFn
}.

Record ArteryFontExportProperties := mkArfontProps {
  afp_fontSize : double;
  afp_pxRange : Range;
  afp_imageType : ImageType;
  afp_imageFormat : ImageFormat;
  afp_yDirection : YDirection
}.

Record GridMetrics := mkGridMetrics {
  gm_cellWidth : Z; gm_cellHeight : Z;
  gm_columns : Z; gm_rows : Z;
  gm_originX : option double; gm_originY : option double;
  gm_spacing : Z
}.

Record JsonAtlasMetrics := mkJsonMetrics {
  jm_distanceRange : Range;
  jm_size : double;
  jm_width : Z; jm_height : Z;
  jm_yDirection : YDirection;
  jm_grid : option GridMetrics
}.

(** Everything observable the program does after parsing, in order. *)
Inductive event :=
| Stderr (m : message)
| Stdout (m : message)
| TightPack (s : PackerSettings) (count : Z)
| GridPack (g : GridSettings) (s : PackerSettings) (count : Z)
| ColoringWorkload (threads : Z) (calls : list coloring_call)
| ColoringCall (c : coloring_call)
| Generate (k : AtlasKind) (w h : Z) (a : GeneratorAttributes) (threads : Z)
    (glyphCount : nat)
| SaveImage (f : ImageFormat) (filename : string) (y : YDirection)
| ExportArteryFont (filename : string) (p : ArteryFontExportProperties)
| ExportCSV (filename : string) (w h : Z) (y : YDirection)
| ExportJSON (filename : string) (t : ImageType) (m : JsonAtlasMetrics)
    (kern : bool)
| GenerateShadronPreview (filename text : string) (t : ImageType) (w h : Z)
    (r : Range) (image : option string) (floatingPoint : bool).

(** An event that writes (or tries to write) an output file. *)
Definition writes_file (e : event) : bool :=
  match e with
  | SaveImage _ _ _ | ExportArteryFont _ _ | ExportCSV _ _ _ _
  | ExportJSON _ _ _ _ | GenerateShadronPreview _ _ _ _ _ _ _ _ => true
  | _ => false
  end.

Definition is_generate (e : event) : bool :=
  match e with Generate _ _ _ _ _ _ => true | _ => false end.

(** The thread count an event runs with, for the two that take one. *)
Definition threads_of (e : event) : option Z :=
  match e with
  | Generate _ _ _ _ t _ | ColoringWorkload t _ => Some t
  | _ => None
  end.

(** [e] runs with the thread count and generator attributes of [c], if it
    takes any. *)
Definition uses_config (c : Configuration) (e : event) : Prop :=
  match e with
  | Generate _ _ _ a t _ => a = generatorAttributes c /\ t = threadCount c
  | ColoringWorkload t _ => t = threadCount c
  | _ => True
  end.

(** The generator attributes [makeAtlas] hands to the generator. *)
Definition attributes_of (e : event) : option GeneratorAttributes :=
  match e with
  | Generate _ _ _ a _ _ => Some a
  | _ => None
  end.

(* ================================================================= *)
(** ** Console log and early [return] *)

Module Run.

Inductive result (A : Type) :=
| Go (a : A)          (* control reaches the next statement *)
| Exit (code : Z).    (* [return code;] out of [main] *)
Arguments Go {A} a.
Arguments Exit {A} code.

Definition M (A : Type) : Type := list event * result A.

Definition ret {A} (a : A) : M A := ([], Go a).

Definition bind {A B} (m : M A) (f : A -> M B) : M B :=
  match m with
  | (log, Go a) => let (log', r) := f a in (log ++ log', r)
  | (log, Exit code) => (log, Exit code)
  end.

Definition emit (e : event) : M unit := ([e], Go tt).

Definition exit {A} (code : Z) : M A := ([], Exit code).

Definition log {A} (m : M A) : list event := fst m.

Module Notations.
Notation "x <- m ;; k" := (bind m (fun x => k))
  (at level 61, m at next level, right associativity).
Notation "m ;; k" := (bind m (fun _ => k))
  (at level 61, right associativity).
End Notations.

End Run.
Import Run Run.Notations.

(** [#define ABORT(msg) do { fputs(msg "\n", stderr); return 1; } while (false)] *)
Definition ABORT {A} (msg : message) : M A :=
  emit (Stderr msg) ;; exit 1.

Definition when (b : bool) (m : M unit) : M unit := if b then m else ret tt.

Definition is_set (f : option string) : bool :=
  match f with Some _ => true | None => false end.

(* ================================================================= *)
(** ** Fix up configuration based on related values

    [main.cpp], lines 1026-1060, one definition per statement. *)

Definition is_mask (t : ImageType) : bool :=
  match t with HARD_MASK | SOFT_MASK => true | _ => false end.

Definition has_miter (t : ImageType) : bool :=
  match t with PSDF | MSDF | MTSDF => true | _ => false end.

Definition is_multichannel (t : ImageType) : bool :=
  match t with MSDF | MTSDF => true | _ => false end.

(** Lines 1027-1028. *)
Definition fixup_atlasSizeConstraint (l : Locals) : Locals :=
  match packingStyle l, atlasSizeConstraint l with
  | TIGHT, NONE => set_atlasSizeConstraint MULTIPLE_OF_FOUR_SQUARE l
  | _, _ => l
  end.

(** Lines 1029-1030. *)
Definition fixup_miterLimit (l : Locals) : Locals :=
  if negb (has_miter (imageType (cfg l)))
  then set_cfg (set_miterLimit 0%float (cfg l)) l
  else l.

(** Lines 1031-1032. *)
Definition fixup_minEmSize (l : Locals) : Locals :=
  if dgt (emSize (cfg l)) (minEmSize l)
  then set_minEmSize (emSize (cfg l)) l
  else l.

(** Lines 1033-1036: the guard of the default-size fallback, and the
    fallback. *)
Definition nothing_sized (l : Locals) : bool :=
  negb ((fixedWidth l >? 0) && (fixedHeight l >? 0))
  && negb ((fixedCellWidth l >? 0) && (fixedCellHeight l >? 0))
  && negb (dgt (minEmSize l) 0%float).

Definition fixup_default_size (l : Locals) : M Locals :=
  if nothing_sized l
  then emit (Stderr MsgDefaultSize) ;; ret (set_minEmSize DEFAULT_SIZE l)
  else ret l.

(** Lines 1037-1043.  [rangeValue = 1] and [rangeValue = DEFAULT_PIXEL_RANGE]
    convert the number to the symmetrical range of that width. *)
Definition fixup_range (l : Locals) : Locals :=
  if is_mask (imageType (cfg l))
  then set_range PIXELS (Range_of_width 1%float) l
  else if deq (lower (rangeValue l)) (upper (rangeValue l))
  then set_range PIXELS (Range_of_width DEFAULT_PIXEL_RANGE) l
  else l.

(** Lines 1044-1045. *)
Definition fixup_kerning (l : Locals) : Locals :=
  let c := cfg l in
  if kerning c
     && negb (is_set (arteryFontFilename c) || is_set (jsonFilename c)
              || is_set (shadronPreviewFilename c))
  then set_cfg (set_kerning false c) l
  else l.

(** Lines 1046-1047.  [hardware_concurrency] is what
    [std::thread::hardware_concurrency()] returns, an [unsigned]. *)
Definition fixup_threadCount (hardware_concurrency : Z) (l : Locals) : Locals :=
  let c := cfg l in
  if threadCount c <=? 0
  then set_cfg (set_threadCount (Z.max (to_int hardware_concurrency) 1) c) l
  else l.

(** Lines 1048-1060. *)
Definition fallbackModeName (m : ErrorCorrectionConfig.Mode) : string :=
  match m with
  | ErrorCorrectionConfig.DISABLED => "disabled"
  | ErrorCorrectionConfig.INDISCRIMINATE => "distance-fast"
  | ErrorCorrectionConfig.EDGE_PRIORITY => "auto-fast"
  | ErrorCorrectionConfig.EDGE_ONLY => "edge-fast"
  end.

Definition error_correction (c : Configuration) : ErrorCorrectionConfig.t :=
  errorCorrection (config (generatorAttributes c)).

(** The condition under which the fallback is announced. *)
Definition downgrades (l : Locals) : bool :=
  explicitErrorCorrectionMode l
  && negb (ErrorCorrectionConfig.DistanceCheckMode_eqb
             (ErrorCorrectionConfig.distanceCheckMode (error_correction (cfg l)))
             ErrorCorrectionConfig.DO_NOT_CHECK_DISTANCE).

Definition fixup_scanline (l : Locals) : M Locals :=
  let c := cfg l in
  if scanlinePass (generatorAttributes c)
  then
    when (downgrades l)
      (emit (Stderr (MsgScanlineFallback
                       (fallbackModeName
                          (ErrorCorrectionConfig.mode (error_correction c)))))) ;;
    ret (set_cfg
           (set_distanceCheckMode ErrorCorrectionConfig.DO_NOT_CHECK_DISTANCE c) l)
  else ret l.

(** The statements up to the default-size fallback, and those between it
    and the scanline check; none of them prints or returns. *)
Definition before_default (l : Locals) : Locals :=
  fixup_minEmSize (fixup_miterLimit (fixup_atlasSizeConstraint l)).

Definition after_default (hardware_concurrency : Z) (l : Locals) : Locals :=
  fixup_threadCount hardware_concurrency (fixup_kerning (fixup_range l)).

(** The locals after the default-size fallback. *)
Definition defaulted (l : Locals) : Locals :=
  if nothing_sized (before_default l)
  then set_minEmSize DEFAULT_SIZE (before_default l)
  else before_default l.

Definition fixup (hardware_concurrency : Z) (l : Locals) : M Locals :=
  l <- fixup_default_size (before_default l) ;;
  fixup_scanline (after_default hardware_concurrency l).

(** Which sizes the command line gave, as the fix-up tests them. *)
Definition scale_given (l : Locals) : bool := dgt (emSize (cfg l)) 0%float.
Definition min_scale_given (l : Locals) : bool := dgt (minEmSize l) 0%float.
Definition atlas_size_given (l : Locals) : bool :=
  (fixedWidth l >? 0) && (fixedHeight l >? 0).
Definition cell_size_given (l : Locals) : bool :=
  (fixedCellWidth l >? 0) && (fixedCellHeight l >? 0).

(** What [-size] and [-minsize] leave behind: 0 until given, positive after. *)
Definition zero_or_positive (x : double) : Prop :=
  x = 0%float \/ dgt x 0%float = true.

Definition sizes_parsed (l : Locals) : Prop :=
  zero_or_positive (emSize (cfg l)) /\ zero_or_positive (minEmSize l).

(** The locals a run of [fixup] ends with. *)
Definition fixed_up (hardware_concurrency : Z) (l : Locals) : Locals :=
  match snd (fixup hardware_concurrency l) with
  | Go l' => l'
  | Exit _ => l
  end.

(* ================================================================= *)
(** ** The [-spacing] option and the spacing handed to the packer *)

(** Lines 631-637, [-spacing <pixels>]: [unsigned s] is what [parseUnsigned]
    read; [packingSpacing = s] converts it to [int]. *)
Definition arg_spacing (s : Z) (l : Locals) : Locals :=
  set_packingSpacing (to_int s) l.

(** Lines 1134-1143: the spacing handed to the packer. *)
Definition spacing (l : Locals) : Z :=
  match imageType (cfg l) with
  | SDF | MSDF | MTSDF =>
      if packingSpacing l >? 0 then packingSpacing l else 0
  | _ => -1
  end.

(* ================================================================= *)
(** ** Edge-colouring seeds

    [main.cpp], lines 1414-1428. *)

(** The seed the [Workload] lambda computes for glyph [i] ([int i]). *)
Definition expensive_glyphSeed (coloringSeed i : Z) : Z :=
  wrap64
    (wrap64 (wrap64 (LCG_MULTIPLIER * Z.lxor coloringSeed (int_to_ull i))
             + LCG_INCREMENT)
     * bang_bang coloringSeed).

(** The sequential loop: [glyphSeed *= LCG_MULTIPLIER] before each glyph.
    [first] is the index of the next glyph, [count] how many are left. *)
Fixpoint cheap_calls (fn : EdgeColoringFn) (angle : double)
  (glyphSeed : Z) (first count : nat) : list coloring_call :=
  match count with
  | O => []
  | S count' =>
      let glyphSeed := wrap64 (glyphSeed * LCG_MULTIPLIER) in
      mkColoringCall first fn angle glyphSeed
      :: cheap_calls fn angle glyphSeed (S first) count'
  end.

(** The tasks of [Workload(..., glyphs.size())], one per index. *)
Definition expensive_calls (c : Configuration) (glyphCount : nat)
  : list coloring_call :=
  map (fun i =>
         mkColoringCall i (edgeColoring c) (angleThreshold c)
           (expensive_glyphSeed (coloringSeed c) (Z.of_nat i)))
      (seq 0 glyphCount).

Fixpoint emit_all (es : list event) : M unit :=
  match es with
  | [] => ret tt
  | e :: es' => emit e ;; emit_all es'
  end.

Definition edge_coloring (c : Configuration) (glyphCount : nat) : M unit :=
  if is_multichannel (imageType c)
  then
    if expensiveColoring c
    then emit (ColoringWorkload (threadCount c) (expensive_calls c glyphCount))
    else emit_all
           (map ColoringCall
              (cheap_calls (edgeColoring c) (angleThreshold c) (coloringSeed c)
                 0 glyphCount))
  else ret tt.

(** The seeds handed to [edgeColoring], by glyph index. *)
Definition coloring_seeds (es : list event) : list (nat * Z) :=
  flat_map
    (fun e =>
       match e with
       | ColoringWorkload _ calls => map (fun k => (cc_glyph k, cc_seed k)) calls
       | ColoringCall k => [(cc_glyph k, cc_seed k)]
       | _ => []
       end) es.

(* ================================================================= *)
(** ** Packing, generation and export

    [main.cpp] from line 1261 to the end of [main].  The locals are those
    left by the fix-up and the image-format checks that follow it (lines
    1062-1131, which assign [imageFormat], may clear [arteryFontFilename]
    and set [result]). *)

Definition floatingPointFormat (c : Configuration) : bool :=
  match imageFormat c with
  | TIFF | FL32 | TEXT_FLOAT | BINARY_FLOAT | BINARY_FLOAT_BE => true
  | _ => false
  end.

(** [layoutOnly], as last assigned before the fonts are loaded. *)
Definition layoutOnly (c : Configuration) : bool :=
  negb (is_set (arteryFontFilename c) || is_set (imageFilename c)).

Definition emRange_of (l : Locals) : Range :=
  match rangeUnits l with EMS => rangeValue l | PIXELS => Range_of_width 0%float end.

Definition pxRange_of (l : Locals) : Range :=
  match rangeUnits l with EMS => Range_of_width 0%float | PIXELS => rangeValue l end.

Definition unit_padding (u : Units) (p : Padding) : Padding :=
  match u with EMS => p | PIXELS => Padding_zero end.

Definition pixel_padding (u : Units) (p : Padding) : Padding :=
  match u with EMS => Padding_zero | PIXELS => p end.

Definition fixedDimensions (l : Locals) : bool :=
  (fixedWidth l >=? 0) && (fixedHeight l >=? 0).

Definition fixedScale (l : Locals) : bool := dgt (emSize (cfg l)) 0%float.

(** The setter calls shared by both packers. *)
Definition packer_settings (l : Locals) : PackerSettings :=
  let c := cfg l in
  mkPackerSettings
    (if fixedDimensions l
     then setDimensions (fixedWidth l) (fixedHeight l)
     else setDimensionsConstraint (atlasSizeConstraint l))
    (spacing l)
    (if fixedScale l then setScale (emSize c) else setMinimumScale (minEmSize l))
    (pxRange_of l)
    (emRange_of l)
    (miterLimit c)
    (pxAlignOriginX c, pxAlignOriginY c)
    (unit_padding (innerPaddingUnits l) (innerPadding l))
    (unit_padding (outerPaddingUnits l) (outerPadding l))
    (pixel_padding (innerPaddingUnits l) (innerPadding l))
    (pixel_padding (outerPaddingUnits l) (outerPadding l)).

Definition grid_settings (l : Locals) : GridSettings :=
  let g := grid (cfg l) in
  mkGridSettings
    (fixedOriginX g, fixedOriginY g)
    (if (fixedCellWidth l >=? 0) && (fixedCellHeight l >=? 0)
     then setCellDimensions (fixedCellWidth l) (fixedCellHeight l)
     else setCellDimensionsConstraint (cellSizeConstraint l))
    (if cols g >? 0 then Some (cols g) else None).

(** What [main] does with a nonzero [remaining]. *)
Definition pack_failure {A} (remaining : Z) (glyphCount : nat) : M A :=
  if remaining <? 0
  then ABORT MsgPackFailed
  else emit (Stderr (MsgUnplaced remaining (to_int (Z.of_nat glyphCount)))) ;;
       exit 1.

(** What [main] prints for a nonzero [remaining]. *)
Definition failure_message (remaining : Z) (glyphCount : nat) : message :=
  if remaining <? 0
  then MsgPackFailed
  else MsgUnplaced remaining (to_int (Z.of_nat glyphCount)).

(** The fields of [config] assigned from the packer's getters. *)
Definition store_packed (r : PackResult) (c : Configuration) : Configuration :=
  set_pxRange (pr_pixelRange r)
    (set_emSize (pr_scale r)
       (set_dimensions (fst (pr_dimensions r)) (snd (pr_dimensions r)) c)).

Definition store_grid (r : PackResult) (c : Configuration) : Configuration :=
  let g := grid c in
  set_grid
    (mkGrid (fst (pr_cellDimensions r)) (snd (pr_cellDimensions r))
       (pr_columns r) (pr_rows r) (fixedOriginX g) (fixedOriginY g)) c.

(** The configuration after a successful [pack]. *)
Definition packed_config (l : Locals) (r : PackResult) : Configuration :=
  match packingStyle l with
  | TIGHT => store_packed r (cfg l)
  | GRID => store_grid r (store_packed r (cfg l))
  end.

Definition positive_dimensions (c : Configuration) : bool :=
  (width c >? 0) && (height c >? 0).

(** The call [atlasPacker.pack(glyphs.data(), glyphs.size())] with the
    setters that precede it. *)
Definition pack_event (l : Locals) (glyphCount : nat) : event :=
  let count := to_int (Z.of_nat glyphCount) in
  match packingStyle l with
  | TIGHT => TightPack (packer_settings l) count
  | GRID => GridPack (grid_settings l) (packer_settings l) count
  end.

(** The user-assembled fields of two configurations agree: every field
    but the packer's results ([width], [height], [emSize], [pxRange] and the
    grid's cell size, columns and rows). *)
Definition same_settings (c c' : Configuration) : Prop :=
  imageType c' = imageType c
  /\ imageFormat c' = imageFormat c
  /\ yDirection c' = yDirection c
  /\ angleThreshold c' = angleThreshold c
  /\ miterLimit c' = miterLimit c
  /\ pxAlignOriginX c' = pxAlignOriginX c
  /\ pxAlignOriginY c' = pxAlignOriginY c
  /\ fixedOriginX (grid c') = fixedOriginX (grid c)
  /\ fixedOriginY (grid c') = fixedOriginY (grid c)
  /\ edgeColoring c' = edgeColoring c
  /\ expensiveColoring c' = expensiveColoring c
  /\ coloringSeed c' = coloringSeed c
  /\ generatorAttributes c' = generatorAttributes c
  /\ preprocessGeometry c' = preprocessGeometry c
  /\ kerning c' = kerning c
  /\ threadCount c' = threadCount c
  /\ arteryFontFilename c' = arteryFontFilename c
  /\ imageFilename c' = imageFilename c
  /\ jsonFilename c' = jsonFilename c
  /\ csvFilename c' = csvFilename c
  /\ shadronPreviewFilename c' = shadronPreviewFilename c
  /\ shadronPreviewText c' = shadronPreviewText c.

Section Pipeline.

(** The collaborators outside [main.cpp]: the two packers and the
    writers, each by what it returns. *)
Variable tight_pack : PackerSettings -> Z -> PackResult.
Variable grid_pack : GridSettings -> PackerSettings -> Z -> PackResult.
Variable saveImage : ImageFormat -> string -> YDirection -> bool.
Variable exportArteryFont : string -> ArteryFontExportProperties -> bool.
Variable exportCSV : string -> bool.
Variable exportJSON : string -> JsonAtlasMetrics -> bool.
Variable generateShadronPreview : string -> string -> bool.

Definition pack_tight (l : Locals) (glyphCount : nat)
  : M (Configuration * option (double * double)) :=
  let s := packer_settings l in
  let count := to_int (Z.of_nat glyphCount) in
  emit (TightPack s count) ;;
  let r := tight_pack s count in
  if negb (pr_remaining r =? 0)
  then pack_failure (pr_remaining r) glyphCount
  else
    let c := set_dimensions (fst (pr_dimensions r)) (snd (pr_dimensions r)) (cfg l) in
    if negb (positive_dimensions c)
    then ABORT MsgNoDimensions
    else
      let c := set_pxRange (pr_pixelRange r) (set_emSize (pr_scale r) c) in
      when (negb (fixedScale l)) (emit (Stdout (MsgGlyphSize (emSize c)))) ;;
      when (negb (fixedDimensions l))
        (emit (Stdout (MsgAtlasDimensions (width c) (height c)))) ;;
      ret (c, None).

Definition pack_grid (l : Locals) (glyphCount : nat)
  : M (Configuration * option (double * double)) :=
  let g := grid_settings l in
  let s := packer_settings l in
  let count := to_int (Z.of_nat glyphCount) in
  emit (GridPack g s count) ;;
  let r := grid_pack g s count in
  if negb (pr_remaining r =? 0)
  then pack_failure (pr_remaining r) glyphCount
  else
    when (pr_hasCutoff r) (emit (Stderr MsgCutoffWarning)) ;;
    let c := set_dimensions (fst (pr_dimensions r)) (snd (pr_dimensions r)) (cfg l) in
    if negb (positive_dimensions c)
    then ABORT MsgNoDimensions
    else
      let c := store_grid r (set_pxRange (pr_pixelRange r) (set_emSize (pr_scale r) c)) in
      let fx := fixedOriginX (grid c) in
      let fy := fixedOriginY (grid c) in
      when (negb (fixedScale l)) (emit (Stdout (MsgGlyphSize (emSize c)))) ;;
      when (fx || fy)
        (emit (Stdout (MsgGridCellOrigin
                         (if fx then Some (fst (pr_fixedOrigin r)) else None)
                         (if fy then Some (yDirection c, snd (pr_fixedOrigin r))
                          else None)))) ;;
      emit (Stdout (MsgGridCellDimensions (cellWidth (grid c)) (cellHeight (grid c)))) ;;
      emit (Stdout (MsgGridAtlasDimensions (width c) (height c)
                      (cols (grid c)) (rows (grid c)))) ;;
      ret (c, if fx || fy then Some (pr_fixedOrigin r) else None).

(** Determine final atlas dimensions, scale and range, pack glyphs. *)
Definition pack (l : Locals) (glyphCount : nat)
  : M (Configuration * option (double * double)) :=
  match packingStyle l with
  | TIGHT => pack_tight l glyphCount
  | GRID => pack_grid l glyphCount
  end.

(** [makeAtlas<T, S, N, GEN_FN>(glyphs, fonts, config)]; the
    configuration is a [const] reference. *)
Definition makeAtlas (k : AtlasKind) (c : Configuration) (glyphCount : nat)
  : M bool :=
  emit (Generate k (width c) (height c) (generatorAttributes c) (threadCount c)
          glyphCount) ;;
  saved <- match imageFilename c with
           | Some f =>
               emit (SaveImage (imageFormat c) f (yDirection c)) ;;
               if saveImage (imageFormat c) f (yDirection c)
               then emit (Stderr MsgImageSaved) ;; ret true
               else emit (Stderr MsgImageFailed) ;; ret false
           | None => ret true
           end ;;
  match arteryFontFilename c with
  | Some f =>
      let p := mkArfontProps (emSize c) (pxRange c) (imageType c)
                 (imageFormat c) (yDirection c) in
      emit (ExportArteryFont f p) ;;
      if exportArteryFont f p
      then emit (Stderr MsgArteryFontDone) ;; ret saved
      else emit (Stderr MsgArteryFontFailed) ;; ret false
  | None => ret saved
  end.

Definition atlas_kind (c : Configuration) : AtlasKind :=
  let st := if floatingPointFormat c then StorageFloat else StorageByte in
  match imageType c with
  | HARD_MASK => mkAtlasKind st 1 scanlineGenerator
  | SOFT_MASK | SDF => mkAtlasKind st 1 sdfGenerator
  | PSDF => mkAtlasKind st 1 psdfGenerator
  | MSDF => mkAtlasKind st 3 msdfGenerator
  | MTSDF => mkAtlasKind st 4 mtsdfGenerator
  end.

(** Generate atlas bitmap.  Returns the configuration as generation
    leaves it together with [result]. *)
Definition generate (c : Configuration) (glyphCount : nat) (result : Z)
  : M (Configuration * Z) :=
  if negb (layoutOnly c)
  then
    edge_coloring c glyphCount ;;
    success <- makeAtlas (atlas_kind c) c glyphCount ;;
    ret (c, if negb success then 1 else result)
  else ret (c, result).

Definition export_csv (c : Configuration) (result : Z) : M Z :=
  match csvFilename c with
  | Some f =>
      emit (ExportCSV f (width c) (height c) (yDirection c)) ;;
      if exportCSV f
      then emit (Stderr MsgCsvDone) ;; ret result
      else emit (Stderr MsgCsvFailed) ;; ret 1
  | None => ret result
  end.

Definition json_metrics (l : Locals) (c : Configuration)
  (origin : option (double * double)) : JsonAtlasMetrics :=
  mkJsonMetrics (pxRange c) (emSize c) (width c) (height c) (yDirection c)
    (match packingStyle l with
     | GRID =>
         let g := grid c in
         Some (mkGridMetrics (cellWidth g) (cellHeight g) (cols g) (rows g)
                 (if fixedOriginX g then option_map fst origin else None)
                 (if fixedOriginY g then option_map snd origin else None)
                 (spacing l))
     | TIGHT => None
     end).

Definition export_json (l : Locals) (c : Configuration)
  (origin : option (double * double)) (result : Z) : M Z :=
  match jsonFilename c with
  | Some f =>
      let m := json_metrics l c origin in
      emit (ExportJSON f (imageType c) m (kerning c)) ;;
      if exportJSON f m
      then emit (Stderr MsgJsonDone) ;; ret result
      else emit (Stderr MsgJsonFailed) ;; ret 1
  | None => ret result
  end.

Definition export_shadron (c : Configuration) (anyCodepointsAvailable : bool)
  (result : Z) : M Z :=
  match shadronPreviewFilename c, shadronPreviewText c with
  | Some f, Some text =>
      if anyCodepointsAvailable
      then
        emit (GenerateShadronPreview f text (imageType c) (width c) (height c)
                (pxRange c) (imageFilename c) (floatingPointFormat c)) ;;
        if generateShadronPreview f text
        then emit (Stderr MsgShadronDone) ;; ret result
        else emit (Stderr MsgShadronFailed) ;; ret 1
      else emit (Stderr MsgShadronUnsupported) ;; ret 1
  | _, _ => ret result
  end.

(** What the packer chosen by [packingStyle] reports for [l]. *)
Definition pack_result (l : Locals) (glyphCount : nat) : PackResult :=
  let count := to_int (Z.of_nat glyphCount) in
  match packingStyle l with
  | TIGHT => tight_pack (packer_settings l) count
  | GRID => grid_pack (grid_settings l) (packer_settings l) count
  end.

(** Packing followed by bitmap generation: the value is [config] as
    generation leaves it, the grid's uniform origin, and [result]. *)
Definition pack_then_generate (l : Locals) (glyphCount : nat) (result : Z)
  : M (Configuration * option (double * double) * Z) :=
  packed <- pack l glyphCount ;;
  let (c, origin) := packed : Configuration * option (double * double) in
  generated <- generate c glyphCount result ;;
  let (c, result) := generated : Configuration * Z in
  ret (c, origin, result).

(** [main] from the point where the fonts are loaded: [l] holds the
    finished configuration, [glyphCount] is [glyphs.size()], [result] the
    status accumulated so far.  The last component of the value is what
    [main] returns; the first is [config] when it does. *)
Definition pack_and_generate (l : Locals) (glyphCount : nat)
  (anyCodepointsAvailable : bool) (result : Z) : M (Configuration * Z) :=
  (if (glyphCount =? 0)%nat then ABORT MsgNoGlyphs else ret tt) ;;
  generated <- pack_then_generate l glyphCount result ;;
  let '(c, origin, result) := generated in
  result <- export_csv c result ;;
  result <- export_json l c origin result ;;
  result <- export_shadron c anyCodepointsAvailable result ;;
  ret (c, result).

Definition exit_status (m : M (Configuration * Z)) : Z :=
  match snd m with Go (_, r) => r | Exit code => code end.

End Pipeline.

(* ================================================================= *)
(** ** The state before the command line is read, and the options used below *)

(** [main]'s initialisation.  [skia] tells whether [MSDFGEN_USE_SKIA] is
    defined; [ec] is the value msdfgen's default constructor gives
    [errorCorrection]. *)
Definition initial (skia : bool) (ec : ErrorCorrectionConfig.t) : Locals :=
  mkLocals
    (mkConfiguration MSDF UNSPECIFIED BOTTOM_UP 0 0 0%float (Range_of_width 0%float)
       DEFAULT_ANGLE_THRESHOLD DEFAULT_MITER_LIMIT false true
       (mkGrid 0 0 0 0 false true) edgeColoringInkTrap false 0
       (mkGenAttrs (mkGenConfig (negb skia) ec) (negb skia))
       skia true 0 None None None None None None)
    (-1) (-1) (-1) (-1) (-1) 0%float PIXELS (Range_of_width 0%float)
    Padding_zero Padding_zero EMS EMS TIGHT NONE NONE false.

Definition on_cfg (f : Configuration -> Configuration) (l : Locals) : Locals :=
  set_cfg (f (cfg l)) l.

(** [-type], once the name is recognised. *)
Definition arg_type (t : ImageType) : Locals -> Locals := on_cfg (set_imageType t).

(** [-format], once the name is recognised. *)
Definition arg_format (f : ImageFormat) : Locals -> Locals :=
  on_cfg (set_imageFormat f).

Definition arg_imageout (f : string) : Locals -> Locals :=
  on_cfg (set_imageFilename (Some f)).

Definition arg_json (f : string) : Locals -> Locals :=
  on_cfg (set_jsonFilename (Some f)).

Definition arg_csv (f : string) : Locals -> Locals :=
  on_cfg (set_csvFilename (Some f)).

(** [-dimensions w h] with [unsigned w, h]: rejected unless both are nonzero. *)
Definition arg_dimensions (w h : Z) (l : Locals) : option Locals :=
  if negb (w =? 0) && negb (h =? 0)
  then Some (set_fixedDimensions (to_int w) (to_int h) l)
  else None.

(** [-uniformcell w h] *)
Definition arg_uniformcell (w h : Z) (l : Locals) : option Locals :=
  let l := set_packingStyle GRID l in
  if negb (w =? 0) && negb (h =? 0)
  then Some (set_fixedCell (to_int w) (to_int h) l)
  else None.

(** [-size s] and [-minsize s]: rejected unless [s > 0]. *)
Definition arg_size (s : double) (l : Locals) : option Locals :=
  if dgt s 0%float then Some (on_cfg (set_emSize s) l) else None.

Definition arg_minsize (s : double) (l : Locals) : option Locals :=
  if dgt s 0%float then Some (set_minEmSize s l) else None.

(** [-emrange r] and [-pxrange r]: rejected unless [r != 0]. *)
Definition arg_emrange (r : double) (l : Locals) : option Locals :=
  if negb (deq r 0%float) then Some (set_range EMS (Range_of_width r) l) else None.

Definition arg_pxrange (r : double) (l : Locals) : option Locals :=
  if negb (deq r 0%float) then Some (set_range PIXELS (Range_of_width r) l) else None.

(** [-aemrange r0 r1] and [-apxrange r0 r1]: rejected when [r0 == r1]. *)
Definition arg_aemrange (r0 r1 : double) (l : Locals) : option Locals :=
  if deq r0 r1 then None else Some (set_range EMS (Range_of_bounds r0 r1) l).

Definition arg_apxrange (r0 r1 : double) (l : Locals) : option Locals :=
  if deq r0 r1 then None else Some (set_range PIXELS (Range_of_bounds r0 r1) l).

(** [-errorcorrection <mode>], for a recognised mode name other than [help]. *)
Definition arg_errorcorrection (m : ErrorCorrectionConfig.Mode)
  (d : ErrorCorrectionConfig.DistanceCheckMode) (l : Locals) : Locals :=
  let c := cfg l in
  let ga := generatorAttributes c in
  let ec := errorCorrection (config ga) in
  set_explicitErrorCorrectionMode true
    (set_cfg
       (set_generatorAttributes
          (mkGenAttrs
             (mkGenConfig (overlapSupport (config ga))
                (ErrorCorrectionConfig.mk m d
                   (ErrorCorrectionConfig.minDeviationRatio ec)
                   (ErrorCorrectionConfig.minImproveRatio ec)))
             (scanlinePass ga)) c) l).

(** [-scanline] and [-noscanline] *)
Definition arg_scanline (on : bool) (l : Locals) : Locals :=
  let ga := generatorAttributes (cfg l) in
  on_cfg (set_generatorAttributes (mkGenAttrs (config ga) on)) l.

(** [-coloringstrategy distance] and [-coloringstrategy simple] *)
Definition arg_coloringstrategy_distance : Locals -> Locals :=
  on_cfg (set_coloring edgeColoringByDistance true).

Definition arg_coloringstrategy_simple : Locals -> Locals :=
  on_cfg (set_coloring edgeColoringSimple false).

(** [-seed N] with [N] an [unsigned long long]. *)
Definition arg_seed (n : Z) : Locals -> Locals := on_cfg (set_coloringSeed n).

(** [-threads N] with [unsigned tc]: rejected unless [(int) tc >= 0]. *)
Definition arg_threads (tc : Z) (l : Locals) : option Locals :=
  if to_int tc >=? 0 then Some (on_cfg (set_threadCount (to_int tc)) l) else None.

(* ================================================================= *)
(** ** Sample command lines and collaborators *)

(** Inputs used to exercise the statements below: the error-correction
    default ([auto-mixed]) and a few command lines. *)
Module Samples.

Definition auto_mixed : ErrorCorrectionConfig.t :=
  ErrorCorrectionConfig.mk ErrorCorrectionConfig.EDGE_PRIORITY
    ErrorCorrectionConfig.CHECK_DISTANCE_AT_EDGE
    0x1.1c71c71c71c72p+0%float 0x1.1c71c71c71c72p+0%float.

Definition start : Locals := initial false auto_mixed.

(** [-format png -imageout a.png] *)
Definition png (l : Locals) : Locals := arg_imageout "a.png" (arg_format PNG l).

(** [-format png -imageout a.png -coloringstrategy distance -seed 7] *)
Definition distance_seed7 : Locals :=
  arg_seed 7 (arg_coloringstrategy_distance (png start)).

(** [-format png -imageout a.png -coloringstrategy distance] (seed 0) *)
Definition distance_seed0 : Locals :=
  arg_coloringstrategy_distance (png start).


(** A command line that was accepted, or the locals before it. *)
Definition accepted (o : option Locals) : Locals :=
  match o with Some l => l | None => start end.

(** [-format png -imageout a.png -type hardmask -emrange 0.25] *)
Definition hardmask_emrange : Locals :=
  accepted (arg_emrange 0.25%float (arg_type HARD_MASK (png start))).

(** [-format png -imageout a.png -errorcorrection auto-full] *)
Definition auto_full : Locals :=
  arg_errorcorrection ErrorCorrectionConfig.EDGE_PRIORITY
    ErrorCorrectionConfig.ALWAYS_CHECK_DISTANCE (png start).

(** [-format png -imageout a.png -uniformcell 16 16] *)
Definition fixed_cell : Locals :=
  accepted (arg_uniformcell 16 16 (png start)).

(** [-format png -imageout a.png -size 48] *)
Definition size48 : Locals :=
  accepted (arg_size 48%float (png start)).

(** [-format png -imageout a.png -type sdf -spacing 2] *)
Definition sdf_spacing2 : Locals :=
  arg_spacing 2 (arg_type SDF (png start)).


(** [-format png -imageout a.png -errorcorrection distance-full] *)
Definition distance_full : Locals :=
  arg_errorcorrection ErrorCorrectionConfig.INDISCRIMINATE
    ErrorCorrectionConfig.ALWAYS_CHECK_DISTANCE (png start).

(** [-format png -imageout a.png] *)
Definition image_only : Locals := png start.

(** A packer that places everything in a 64 x 64 atlas at 32 pixels per em,
    one that leaves 3 glyphs out, and writers that succeed. *)
Definition fits64 : PackResult :=
  mkPackResult 0 (64, 64) 32%float (Range_of_width 2%float) false (16, 16) 4 4
    (0%float, 0%float).

Definition leaves3 : PackResult :=
  mkPackResult 3 (0, 0) 0%float (Range_of_width 0%float) false (0, 0) 0 0
    (0%float, 0%float).

Definition tight_const (r : PackResult) : PackerSettings -> Z -> PackResult :=
  fun _ _ => r.

Definition grid_const (r : PackResult)
  : GridSettings -> PackerSettings -> Z -> PackResult :=
  fun _ _ _ => r.

Definition image_saved : ImageFormat -> string -> YDirection -> bool :=
  fun _ _ _ => true.

Definition arfont_written : string -> ArteryFontExportProperties -> bool :=
  fun _ _ => true.

Definition csv_written : string -> bool := fun _ => true.

Definition json_written : string -> JsonAtlasMetrics -> bool := fun _ _ => true.

Definition shadron_written : string -> string -> bool := fun _ _ => true.

End Samples.

(* ================================================================= *)
(** ** String helpers

    [main.cpp], lines 261-304. *)

(** [toupper]: [c >= 'a' && c <= 'z' ? c-'a'+'A' : c]. *)
Definition toupper (c : ascii) : ascii :=
  let n := nat_of_ascii c in
  if (nat_of_ascii "a" <=? n)%nat && (n <=? nat_of_ascii "z")%nat
  then ascii_of_nat (n - nat_of_ascii "a" + nat_of_ascii "A")
  else c.

(** [strStartsWith]: walks [prefix]; a [str] that ends first differs at its
    terminator. *)
Fixpoint strStartsWith (str prefix : string) {struct prefix} : bool :=
  match prefix with
  | EmptyString => true
  | String p prefix' =>
      match str with
      | EmptyString => false
      | String s str' => if Ascii.eqb s p then strStartsWith str' prefix' else false
      end
  end.

(** The loop of [cmpExtension], on the characters of [path] and [ext] from
    the last one backwards: [b >= ext] is "characters of [ext] are left",
    [a < path] is "none of [path] is". *)
Fixpoint cmp_backwards (a b : list ascii) {struct b} : bool :=
  match b with
  | [] => true
  | cb :: b' =>
      match a with
      | [] => false
      | ca :: a' =>
          if Ascii.eqb (toupper ca) (toupper cb) then cmp_backwards a' b' else false
      end
  end.

Definition cmpExtension (path ext : string) : bool :=
  cmp_backwards (rev (list_ascii_of_string path)) (rev (list_ascii_of_string ext)).

(** [ARG_IS(s)] is [!strcmp(argv[argPos], s)], [ARG_PREFIX(s)] is
    [strStartsWith(argv[argPos], s)]. *)
Definition ARG_IS (arg s : string) : bool := String.eqb arg s.
Definition ARG_PREFIX (arg s : string) : bool := strStartsWith arg s.

(* ================================================================= *)
(** ** Option words

    [main.cpp], lines 862-896 ([-errorcorrection]). *)

(** What the word after [-errorcorrection] selects. *)
Inductive errorcorrection_word :=
| EC_mode (m : ErrorCorrectionConfig.Mode) (d : ErrorCorrectionConfig.DistanceCheckMode)
| EC_help
| EC_unknown.

Definition parse_errorcorrection (arg : string) : errorcorrection_word :=
  if ARG_PREFIX arg "disable" || ARG_IS arg "0" || ARG_IS arg "none"
  then EC_mode ErrorCorrectionConfig.DISABLED
         ErrorCorrectionConfig.DO_NOT_CHECK_DISTANCE
  else if ARG_IS arg "default" || ARG_IS arg "auto" || ARG_IS arg "auto-mixed"
          || ARG_IS arg "mixed"
  then EC_mode ErrorCorrectionConfig.EDGE_PRIORITY
         ErrorCorrectionConfig.CHECK_DISTANCE_AT_EDGE
  else if ARG_IS arg "auto-fast" || ARG_IS arg "fast"
  then EC_mode ErrorCorrectionConfig.EDGE_PRIORITY
         ErrorCorrectionConfig.DO_NOT_CHECK_DISTANCE
  else if ARG_IS arg "auto-full" || ARG_IS arg "full"
  then EC_mode ErrorCorrectionConfig.EDGE_PRIORITY
         ErrorCorrectionConfig.ALWAYS_CHECK_DISTANCE
  else if ARG_IS arg "distance" || ARG_IS arg "distance-fast"
          || ARG_IS arg "indiscriminate" || ARG_IS arg "indiscriminate-fast"
  then EC_mode ErrorCorrectionConfig.INDISCRIMINATE
         ErrorCorrectionConfig.DO_NOT_CHECK_DISTANCE
  else if ARG_IS arg "distance-full" || ARG_IS arg "indiscriminate-full"
  then EC_mode ErrorCorrectionConfig.INDISCRIMINATE
         ErrorCorrectionConfig.ALWAYS_CHECK_DISTANCE
  else if ARG_IS arg "edge-fast"
  then EC_mode ErrorCorrectionConfig.EDGE_ONLY
         ErrorCorrectionConfig.DO_NOT_CHECK_DISTANCE
  else if ARG_IS arg "edge" || ARG_IS arg "edge-full"
  then EC_mode ErrorCorrectionConfig.EDGE_ONLY
         ErrorCorrectionConfig.ALWAYS_CHECK_DISTANCE
  else if ARG_IS arg "help"
  then EC_help
  else EC_unknown.

(* ================================================================= *)
(** ** Output check and image format

    [main.cpp], line 1003 and lines 1062-1131.  [png_supported] tells that
    [MSDFGEN_DISABLE_PNG] is not defined, [artery_supported] that
    [MSDF_ATLAS_NO_ARTERY_FONT] is not. *)

(** The texts these lines write to [stderr]. *)
Inductive setup_message :=
| WarnPngUnsupported              (* this build has no PNG support *)
| WarnCannotInferFormat (imageFormatName : string)
| ErrArteryFontFormat             (* Artery Font cannot hold this image format *)
| WarnExtensionMismatch (imageFormatName : option string).

Definition set_arteryFontFilename (v : option string) (c : Configuration)
  : Configuration :=
  mkConfiguration
    (imageType c) (imageFormat c) (yDirection c) (width c) (height c) (emSize c)
    (pxRange c) (angleThreshold c) (miterLimit c) (pxAlignOriginX c)
    (pxAlignOriginY c) (grid c) (edgeColoring c) (expensiveColoring c)
    (coloringSeed c) (generatorAttributes c) (preprocessGeometry c) (kerning c)
    (threadCount c) v (imageFilename c) (jsonFilename c) (csvFilename c)
    (shadronPreviewFilename c) (shadronPreviewText c).

Definition ImageFormat_eqb (a b : ImageFormat) : bool :=
  match a, b with
  | UNSPECIFIED, UNSPECIFIED | PNG, PNG | BMP, BMP | TIFF, TIFF | RGBA, RGBA
  | FL32, FL32 | TEXT, TEXT | TEXT_FLOAT, TEXT_FLOAT | BINARY, BINARY
  | BINARY_FLOAT, BINARY_FLOAT | BINARY_FLOAT_BE, BINARY_FLOAT_BE => true
  | _, _ => false
  end.

(** [config.arteryFontFilename || config.imageFilename || config.jsonFilename
    || config.csvFilename || config.shadronPreviewFilename] *)
Definition any_output (c : Configuration) : bool :=
  is_set (arteryFontFilename c) || is_set (imageFilename c)
  || is_set (jsonFilename c) || is_set (csvFilename c)
  || is_set (shadronPreviewFilename c).

(** Lines 1063-1077: [imageExtension]. *)
Definition image_extension (png_supported : bool) (c : Configuration)
  : list setup_message * ImageFormat :=
  match imageFilename c with
  | None => ([], UNSPECIFIED)
  | Some f =>
      if cmpExtension f ".png"
      then if png_supported then ([], PNG) else ([WarnPngUnsupported], UNSPECIFIED)
      else if cmpExtension f ".bmp" then ([], BMP)
      else if cmpExtension f ".tiff" || cmpExtension f ".tif" then ([], TIFF)
      else if cmpExtension f ".rgba" then ([], RGBA)
      else if cmpExtension f ".fl32" then ([], FL32)
      else if cmpExtension f ".txt" then ([], TEXT)
      else if cmpExtension f ".bin" then ([], BINARY)
      else ([], UNSPECIFIED)
  end.

Definition default_format (png_supported : bool) : ImageFormat * string :=
  if png_supported then (PNG, "png"%string) else (TIFF, "tiff"%string).

(** Lines 1078-1094: the format when [-format] was not given.  The value is
    [config] and [imageFormatName]. *)
Definition resolve_format (png_supported : bool) (imageExtension : ImageFormat)
  (c : Configuration) (imageFormatName : option string)
  : list setup_message * (Configuration * option string) :=
  if ImageFormat_eqb (imageFormat c) UNSPECIFIED
  then
    let (fmt, name) := default_format png_supported in
    let c := set_imageFormat fmt c in
    if negb (is_set (arteryFontFilename c))
    then
      if negb (ImageFormat_eqb imageExtension UNSPECIFIED)
      then ([], (set_imageFormat imageExtension c, Some name))
      else if is_set (imageFilename c)
      then ([WarnCannotInferFormat name], (c, Some name))
      else ([], (c, Some name))
    else ([], (c, Some name))
  else ([], (c, imageFormatName)).

(** The formats an Artery Font file can embed. *)
Definition artery_compatible (f : ImageFormat) : bool :=
  match f with PNG | BINARY | BINARY_FLOAT => true | _ => false end.

(** Lines 1095-1106.  The value is [config] and [result]. *)
Definition check_artery_font (artery_supported : bool) (c : Configuration)
  (result : Z) : list setup_message * Run.result (Configuration * Z) :=
  if artery_supported && is_set (arteryFontFilename c)
     && negb (artery_compatible (imageFormat c))
  then
    let c := set_arteryFontFilename None c in
    if negb (any_output c)
    then ([ErrArteryFontFormat], Exit 1)
    else ([ErrArteryFontFormat], Go (c, 1))
  else ([], Go (c, result)).

(** Lines 1107-1123: does the extension of [-imageout] disagree with the
    format? *)
Definition mismatch (f imageExtension : ImageFormat) : bool :=
  match f with
  | TEXT | TEXT_FLOAT => negb (ImageFormat_eqb imageExtension TEXT)
  | BINARY | BINARY_FLOAT | BINARY_FLOAT_BE =>
      negb (ImageFormat_eqb imageExtension BINARY)
  | _ => negb (ImageFormat_eqb imageExtension f)
  end.

Definition warn_mismatch (imageExtension : ImageFormat) (c : Configuration)
  (imageFormatName : option string) : list setup_message :=
  if negb (ImageFormat_eqb imageExtension UNSPECIFIED)
     && mismatch (imageFormat c) imageExtension
  then [WarnExtensionMismatch imageFormatName]
  else [].

(** Finalize image format: lines 1062-1124. *)
Definition finalize_image_format (png_supported artery_supported : bool)
  (c : Configuration) (imageFormatName : option string) (result : Z)
  : list setup_message * Run.result (Configuration * Z) :=
  let (m1, imageExtension) := image_extension png_supported c in
  let '(m2, (c, imageFormatName)) :=
    resolve_format png_supported imageExtension c imageFormatName in
  match check_artery_font artery_supported c result with
  | (m3, Exit code) => (m1 ++ m2 ++ m3, Exit code)
  | (m3, Go (c, result)) =>
      (m1 ++ m2 ++ m3 ++ warn_mismatch imageExtension c imageFormatName,
       Go (c, result))
  end.

(** The configurations agree except for the two fields these lines assign. *)
Definition same_but_format (c c' : Configuration) : Prop :=
  set_arteryFontFilename (arteryFontFilename c) (set_imageFormat (imageFormat c) c')
  = c.

(* ================================================================= *)
(** ** The fields the fix-up can assign *)

(** [x] is [l] except, possibly, for the miter limit, the kerning flag, the
    thread count, the distance check mode, the minimum scale, the range
    with its units, and the atlas size constraint. *)
Definition fixup_shape (l x : Locals) : Prop :=
  exists miter kern threads check minimum units range constraint,
    x = let c := cfg l in
        let ga := generatorAttributes c in
        let ec := errorCorrection (config ga) in
        mkLocals
          (mkConfiguration (imageType c) (imageFormat c) (yDirection c) (width c)
             (height c) (emSize c) (pxRange c) (angleThreshold c) miter
             (pxAlignOriginX c) (pxAlignOriginY c) (grid c) (edgeColoring c)
             (expensiveColoring c) (coloringSeed c)
             (mkGenAttrs
                (mkGenConfig (overlapSupport (config ga))
                   (ErrorCorrectionConfig.mk (ErrorCorrectionConfig.mode ec) check
                      (ErrorCorrectionConfig.minDeviationRatio ec)
                      (ErrorCorrectionConfig.minImproveRatio ec)))
                (scanlinePass ga))
             (preprocessGeometry c) kern threads (arteryFontFilename c)
             (imageFilename c) (jsonFilename c) (csvFilename c)
             (shadronPreviewFilename c) (shadronPreviewText c))
          (fixedWidth l) (fixedHeight l) (fixedCellWidth l) (fixedCellHeight l)
          (packingSpacing l) minimum units range (innerPadding l) (outerPadding l)
          (innerPaddingUnits l) (outerPaddingUnits l) (packingStyle l) constraint
          (cellSizeConstraint l) (explicitErrorCorrectionMode l).

(* ================================================================= *)
(** ** Atlas size options

    [main.cpp], lines 638-662: [-pots], [-potr], [-square], [-square2] and
    [-square4] choose a constraint and forget fixed dimensions. *)

Inductive constraint_option := pots | potr | square | square2 | square4.

Definition constraint_of (o : constraint_option) : DimensionsConstraint :=
  match o with
  | pots => POWER_OF_TWO_SQUARE
  | potr => POWER_OF_TWO_RECTANGLE
  | square => SQUARE
  | square2 => EVEN_SQUARE
  | square4 => MULTIPLE_OF_FOUR_SQUARE
  end.

Definition arg_constraint (o : constraint_option) (l : Locals) : Locals :=
  set_fixedDimensions (-1) (-1) (set_atlasSizeConstraint (constraint_of o) l).

(* ================================================================= *)
(** ** Kinds of events *)

Definition is_coloring (e : event) : bool :=
  match e with ColoringWorkload _ _ | ColoringCall _ => true | _ => false end.

(** The image or the Artery Font is written. *)
Definition writes_bitmap (e : event) : bool :=
  match e with SaveImage _ _ _ | ExportArteryFont _ _ => true | _ => false end.

(** The properties the Artery Font writer is given for [c]. *)
Definition artery_properties (c : Configuration) : ArteryFontExportProperties :=
  mkArfontProps (emSize c) (pxRange c) (imageType c) (imageFormat c) (yDirection c).

(** Events that are neither colouring, generation nor the writing of a file:
    console output and the call of a packer. *)
Definition is_setup (e : event) : bool :=
  negb (is_generate e || is_coloring e || writes_file e).

(** Nothing is generated, coloured or written as a bitmap. *)
Definition layout_event (e : event) : Prop :=
  is_generate e = false /\ is_coloring e = false /\ writes_bitmap e = false.

(** What a [Generate] event must look like for locals [l], [n] glyphs and
    the packer's report [r]: the storage type that goes with the image
    format, the channel count and generator function that go with the
    image type, the packer's dimensions and all the glyphs. *)
Definition generates_for (l : Locals) (n : nat) (r : PackResult) (e : event)
  : Prop :=
  match e with
  | Generate k w h _ _ g =>
      ak_storage k
      = match imageFormat (cfg l) with
        | TIFF | FL32 | TEXT_FLOAT | BINARY_FLOAT | BINARY_FLOAT_BE => StorageFloat
        | UNSPECIFIED | PNG | BMP | RGBA | TEXT | BINARY => StorageByte
        end
      /\ (ak_channels k, ak_generator k)
         = match imageType (cfg l) with
           | HARD_MASK => (1, scanlineGenerator)
           | SOFT_MASK => (1, sdfGenerator)
           | SDF => (1, sdfGenerator)
           | PSDF => (1, psdfGenerator)
           | MSDF => (3, msdfGenerator)
           | MTSDF => (4, mtsdfGenerator)
           end
      /\ (w, h) = pr_dimensions r /\ 0 < w /\ 0 < h
      /\ g = n /\ layoutOnly (cfg l) = false
  | _ => True
  end.

(** What an [ExportJSON] event must look like. *)
Definition json_for (l : Locals) (r : PackResult) (e : event) : Prop :=
  match e with
  | ExportJSON _ t m kern =>
      t = imageType (cfg l) /\ kern = kerning (cfg l)
      /\ jm_size m = pr_scale r
      /\ jm_distanceRange m = pr_pixelRange r
      /\ (jm_width m, jm_height m) = pr_dimensions r
      /\ jm_yDirection m = yDirection (cfg l)
      /\ match packingStyle l with
         | TIGHT => jm_grid m = None
         | GRID =>
             exists g,
               jm_grid m = Some g
               /\ (gm_cellWidth g, gm_cellHeight g) = pr_cellDimensions r
               /\ gm_columns g = pr_columns r /\ gm_rows g = pr_rows r
               /\ gm_spacing g = spacing l
         end
  | _ => True
  end.

(* ================================================================= *)
(** ** Font inputs

    [struct FontInput] and [main.cpp], lines 1009-1024.  A [const char *] is
    the string it points to, or [None] for [nullptr]. *)

Inductive GlyphIdentifierType := GLYPH_INDEX | UNICODE_CODEPOINT.

Record FontInput := mkFontInput {
  fontFilename : option string;
  variableFont : bool;
  glyphIdentifierType : GlyphIdentifierType;
  charsetFilename : option string;
  charsetString : option string;
  fontScale : double;
  fontName : option string
}.

(** [it->charsetFilename || it->charsetString
     || it->glyphIdentifierType == GlyphIdentifierType::GLYPH_INDEX] *)
Definition has_charset (i : FontInput) : bool :=
  is_set (charsetFilename i) || is_set (charsetString i)
  || match glyphIdentifierType i with GLYPH_INDEX => true | _ => false end.

(** The body of the loop: what [*it] takes over from [*nextFontInput]. *)
Definition inherit (next it : FontInput) : FontInput :=
  let it :=
    if negb (is_set (fontFilename it)) && is_set (fontFilename next)
    then mkFontInput (fontFilename next) (variableFont it) (glyphIdentifierType it)
           (charsetFilename it) (charsetString it) (fontScale it) (fontName it)
    else it in
  let it :=
    if negb (has_charset it) && has_charset next
    then mkFontInput (fontFilename it) (variableFont it) (glyphIdentifierType next)
           (charsetFilename next) (charsetString next) (fontScale it) (fontName it)
    else it in
  if PrimFloat.ltb (fontScale it) 0 && PrimFloat.leb 0 (fontScale next)
  then mkFontInput (fontFilename it) (variableFont it) (glyphIdentifierType it)
         (charsetFilename it) (charsetString it) (fontScale next) (fontName it)
  else it.

(** The loop, over the inputs from the last one backwards; [next] is
    [*nextFontInput]. *)
Fixpoint inherit_backwards (next : FontInput) (inputs : list FontInput)
  : list FontInput :=
  match inputs with
  | [] => []
  | it :: rest =>
      let it := inherit next it in
      it :: inherit_backwards it rest
  end.

Section FontInputs.

(** [!memcmp(&a, &b, sizeof(FontInput))] *)
Variable same_bytes : FontInput -> FontInput -> bool.

Definition finalize_font_inputs (fontInputs : list FontInput) (fontInput : FontInput)
  : list FontInput :=
  let fontInputs := rev (inherit_backwards fontInput (rev fontInputs)) in
  match rev fontInputs with
  | [] => fontInputs ++ [fontInput]
  | back :: _ =>
      if negb (same_bytes back fontInput)
      then fontInputs ++ [fontInput]
      else fontInputs
  end.

End FontInputs.

(** What an input keeps through the loop: its own font file when it has
    one, its name and its variable-font flag. *)
Definition keeps_own (before after : FontInput) : Prop :=
  (is_set (fontFilename before) = true -> fontFilename after = fontFilename before)
  /\ fontName after = fontName before
  /\ variableFont after = variableFont before.

(* ================================================================= *)
(** ** Loading fonts

    [main.cpp], lines 306-328 ([loadVarFont]) and 1151-1184 (the class
    [FontHolder]).  Fonts live in the FreeType library; [World] is what
    the library holds: the handles it has given out and not yet destroyed. *)

Record FontHandle := mkFont {
  font_id : nat;
  font_file : string;                       (* the file it was loaded from *)
  font_axes : list (string * double)        (* [setFontVariationAxis] calls *)
}.

Record World := mkWorld {
  next_id : nat;
  live : list nat;
  double_free : bool          (* a handle that is not live was destroyed *)
}.

(** The characters of [s] before the first [stop], and [s] from that
    [stop] on (empty when there is none). *)
Fixpoint split_at (stop : ascii) (s : string) : string * string :=
  match s with
  | EmptyString => (EmptyString, EmptyString)
  | String c s' =>
      if Ascii.eqb c stop then (EmptyString, s)
      else let (b, r) := split_at stop s' in (String c b, r)
  end.

(** [filename += n] *)
Fixpoint advance (n : nat) (s : string) : string :=
  match n, s with
  | S n', String _ s' => advance n' s'
  | _, _ => s
  end.

Definition destroyFont (w : World) (f : FontHandle) : World :=
  if existsb (Nat.eqb (font_id f)) (live w)
  then mkWorld (next_id w) (filter (fun i => negb (Nat.eqb (font_id f) i)) (live w))
         (double_free w)
  else mkWorld (next_id w) (live w) true.

Module FontHolder.

Record t := mk {
  ft : bool;                          (* [initializeFreetype] succeeded *)
  font : option FontHandle;
  fontFilename : option string
}.

(** [FontHolder()] *)
Definition init (freetype : bool) : t := mk freetype None None.

(** [~FontHolder()] *)
Definition destroy (w : World) (h : t) : World :=
  if ft h
  then match font h with Some f => destroyFont w f | None => w end
  else w.

End FontHolder.

Section Fonts.

Import FontHolder.

(** [loadable f]: [msdfgen::loadFont] finds a font in file [f].
    [scan_double s]: [sscanf(s, "%lf%n", &value, &skip) == 1] and the
    [value] and [skip] it then gives.  [varfonts]:
    [MSDFGEN_DISABLE_VARIABLE_FONTS] is not defined. *)
Variable loadable : string -> bool.
Variable scan_double : string -> option (double * nat).
Variable varfonts : bool.

Definition loadFont (w : World) (f : string) : World * option FontHandle :=
  if loadable f
  then (mkWorld (S (next_id w)) (next_id w :: live w) (double_free w),
        Some (mkFont (next_id w) f []))
  else (w, None).

(** The [do ... while] loop of [loadVarFont] on the text after ['?']: the
    axes it sets, in order.  Every round moves [filename] forward, so
    [fuel] above the length of the text is never used up. *)
Fixpoint variation_axes (fuel : nat) (filename : string)
  : option (list (string * double)) :=
  match fuel with
  | O => None
  | S fuel' =>
      let (buffer, rest) := split_at "=" filename in
      let '(set, filename) :=
        match rest with
        | String _ after =>               (* [*filename == '='] *)
            match scan_double after with
            | Some (value, skip) => ([(buffer, value)], advance skip after)
            | None => ([], after)
            end
        | EmptyString => ([], EmptyString)
        end in
      match filename with
      | String c next =>
          if Ascii.eqb c "&"
          then option_map (app set) (variation_axes fuel' next)
          else Some set
      | EmptyString => Some set
      end
  end.

Definition loadVarFont (w : World) (filename : string)
  : World * option FontHandle :=
  let (buffer, rest) := split_at "?" filename in
  match loadFont w buffer with
  | (w', Some font) =>
      match rest with
      | String _ query =>                 (* [*filename++ == '?'] *)
          match variation_axes (S (String.length query)) query with
          | Some axes => (w', Some (mkFont (font_id font) (font_file font) axes))
          | None => (w', Some font)
          end
      | EmptyString => (w', Some font)
      end
  | (w', None) => (w', None)
  end.

(** [bool load(const char *fontFilename, bool isVarFont)] *)
Definition FontHolder_load (w : World) (h : FontHolder.t) (name : option string) (isVarFont : bool)
  : World * FontHolder.t * bool :=
  match ft h, name with
  | true, Some f =>
      if match fontFilename h with Some g => String.eqb g f | None => false end
      then (w, h, true)
      else
        let w := match font h with Some old => destroyFont w old | None => w end in
        match (if isVarFont && varfonts then loadVarFont w f else loadFont w f) with
        | (w, Some new) => (w, mk true (Some new) (Some f), true)
        | (w, None) => (w, mk true None None, false)
        end
  | _, _ => (w, h, false)
  end.

(** The loop over [fontInputs], as far as the holder goes: it stops at the
    first font that cannot be loaded.  The value tells whether all were. *)
Fixpoint FontHolder_load_all (w : World) (h : FontHolder.t)
  (inputs : list (option string * bool)) : World * FontHolder.t * bool :=
  match inputs with
  | [] => (w, h, true)
  | (name, isVarFont) :: rest =>
      match FontHolder_load w h name isVarFont with
      | (w, h, true) => FontHolder_load_all w h rest
      | (w, h, false) => (w, h, false)
      end
  end.

End Fonts.

(** What holds of the library and the holder between two calls of [load]:
    the library holds the holder's font and no other, nothing was
    destroyed twice, a remembered file name comes with a font, and a font
    with a FreeType library. *)
Definition holder_ok (w : World) (h : FontHolder.t) : Prop :=
  live w = match FontHolder.font h with Some f => [font_id f] | None => [] end
  /\ double_free w = false
  /\ (FontHolder.fontFilename h <> None -> FontHolder.font h <> None)
  /\ (FontHolder.font h <> None -> FontHolder.ft h = true).

(** The text after ['?'] that names the axes [axes], each with the text
    of its value. *)
Fixpoint query_of (axes : list (string * string * double)) : string :=
  match axes with
  | [] => EmptyString
  | (name, text, _) :: rest =>
      (name ++ String "=" (text ++
         match rest with
         | [] => EmptyString
         | _ => String "&" (query_of rest)
         end))%string
  end.

(** [s] holds no [c]. *)
Definition free_of (c : ascii) (s : string) : Prop :=
  ~ In c (list_ascii_of_string s).

(** [scan] reads [text] as [value] when [text] ends the string or ['&']
    follows. *)
Definition scans (scan : string -> option (double * nat)) (text : string)
  (value : double) : Prop :=
  forall tail,
    scan (text ++ match tail with
                  | None => EmptyString
                  | Some s => String "&" s
                  end)%string
    = Some (value, String.length text).

(* ================================================================= *)
(** ** More sample command lines *)

Module MoreSamples.

(** [-imageout a.bmp] *)
Definition bmp_only : Locals := arg_imageout "a.bmp" Samples.start.

(** [-arfont a.arfont -format tiff] *)
Definition arfont_tiff : Locals :=
  arg_format TIFF (on_cfg (set_arteryFontFilename (Some "a.arfont"%string))
                     Samples.start).

(** [-arfont a.arfont -imageout a.bmp] *)
Definition arfont_bmp : Locals :=
  arg_imageout "a.bmp" (on_cfg (set_arteryFontFilename (Some "a.arfont"%string))
                          Samples.start).

(** [-font b.ttf -chars C] *)
Definition last_input : FontInput :=
  mkFontInput (Some "b.ttf"%string) false UNICODE_CODEPOINT None (Some "C"%string)
    (-1)%float None.

(** [-chars A -and -font b.ttf]: the first input has no font of its own. *)
Definition fontless_input : FontInput :=
  mkFontInput None false UNICODE_CODEPOINT None (Some "A"%string) (-1)%float None.

Definition never_same : FontInput -> FontInput -> bool := fun _ _ => false.

(** [-json a.json]: a layout is all that is asked for. *)
Definition json_only : Locals := arg_json "a.json" Samples.start.

(** A packer that places every glyph but reports no atlas dimensions. *)
Definition no_room : PackResult :=
  mkPackResult 0 (0, 0) 32%float (Range_of_width 2%float) false (0, 0) 0 0
    (0%float, 0%float).

(** Every font file can be loaded; [sscanf] reads the text "7" and no
    other. *)
Definition always_loadable : string -> bool := fun _ => true.

Definition scan_seven (s : string) : option (double * nat) :=
  match s with
  | String "7" EmptyString | String "7" (String "&" _) => Some (7%float, 1%nat)
  | _ => None
  end.

End MoreSamples.

(* ================================================================= *)
(** * Properties *)

(* ================================================================= *)
(** ** Arithmetic modulo 2^64 *)

Module Wrap.

Lemma wrap64_range z : is_ull (wrap64 z).
Proof.
  unfold is_ull, wrap64, ULLONG_MAX.
  pose proof (Z.mod_pos_bound z (2 ^ 64) ltac:(lia)). lia.
Qed.

Lemma wrap64_small z : is_ull z -> wrap64 z = z.
Proof.
  unfold is_ull, wrap64, ULLONG_MAX. intros H.
  apply Z.mod_small. lia.
Qed.

Lemma wrap64_mul_l a b : wrap64 (wrap64 a * b) = wrap64 (a * b).
Proof. unfold wrap64. apply Z.mul_mod_idemp_l. lia. Qed.

Lemma wrap64_add_l a b : wrap64 (wrap64 a + b) = wrap64 (a + b).
Proof. unfold wrap64. apply Z.add_mod_idemp_l. lia. Qed.

Lemma to_int_small z : 0 <= z <= INT_MAX -> to_int z = z.
Proof.
  unfold to_int, INT_MAX. intros H.
  rewrite Z.mod_small by lia. lia.
Qed.

Lemma int_to_ull_nonneg i : 0 <= i <= INT_MAX -> int_to_ull i = i.
Proof.
  unfold int_to_ull, INT_MAX. intros H.
  apply wrap64_small. unfold is_ull, ULLONG_MAX. lia.
Qed.

(** Exclusive or stays within the word. *)
Lemma lxor_lt_pow2 a b n :
  0 < n -> 0 <= a < 2 ^ n -> 0 <= b < 2 ^ n -> 0 <= Z.lxor a b < 2 ^ n.
Proof.
  intros Hn Ha Hb.
  assert (Hx : 0 <= Z.lxor a b) by (apply Z.lxor_nonneg; lia).
  split; [exact Hx|].
  destruct (Z.eq_dec (Z.lxor a b) 0) as [E|E].
  - rewrite E. apply Z.pow_pos_nonneg; lia.
  - apply Z.log2_lt_pow2; [lia|].
    pose proof (Z.log2_lxor a b ltac:(lia) ltac:(lia)) as Hl.
    assert (Z.log2 a < n).
    { destruct (Z.eq_dec a 0) as [->|]; [simpl; lia|].
      apply Z.log2_lt_pow2; lia. }
    assert (Z.log2 b < n).
    { destruct (Z.eq_dec b 0) as [->|]; [simpl; lia|].
      apply Z.log2_lt_pow2; lia. }
    lia.
Qed.

Lemma lxor_ull s i : is_ull s -> 0 <= i <= INT_MAX -> is_ull (Z.lxor s i).
Proof.
  unfold is_ull, ULLONG_MAX, INT_MAX. intros Hs Hi.
  pose proof (lxor_lt_pow2 s i 64 ltac:(lia) ltac:(lia) ltac:(lia)). lia.
Qed.

Lemma lxor_cancel_l s i j : Z.lxor s i = Z.lxor s j -> i = j.
Proof.
  intros H.
  apply (f_equal (Z.lxor s)) in H.
  rewrite <- !Z.lxor_assoc, Z.lxor_nilpotent, !Z.lxor_0_l in H.
  exact H.
Qed.


(** The multiplier is odd, hence a unit modulo 2^64. *)
Lemma LCG_MULTIPLIER_unit :
  wrap64 (LCG_MULTIPLIER * LCG_MULTIPLIER_inverse) = 1.
Proof. reflexivity. Qed.

(** The affine step of the generator is injective on 64-bit words. *)
Lemma lcg_step_inj x y :
  is_ull x -> is_ull y ->
  wrap64 (LCG_MULTIPLIER * x + LCG_INCREMENT)
  = wrap64 (LCG_MULTIPLIER * y + LCG_INCREMENT) ->
  x = y.
Proof.
  intros Hx Hy H.
  assert (U : forall z,
             wrap64 ((wrap64 (LCG_MULTIPLIER * z + LCG_INCREMENT) - LCG_INCREMENT)
                     * LCG_MULTIPLIER_inverse) = wrap64 z).
  { intros z. unfold wrap64.
    rewrite <- Z.mul_mod_idemp_l by lia.
    rewrite Zminus_mod_idemp_l.
    replace (LCG_MULTIPLIER * z + LCG_INCREMENT - LCG_INCREMENT)
      with (LCG_MULTIPLIER * z) by lia.
    rewrite Z.mul_mod_idemp_l by lia.
    replace (LCG_MULTIPLIER * z * LCG_MULTIPLIER_inverse)
      with (z * (LCG_MULTIPLIER * LCG_MULTIPLIER_inverse)) by lia.
    rewrite <- Z.mul_mod_idemp_r by lia.
    change ((LCG_MULTIPLIER * LCG_MULTIPLIER_inverse) mod 2 ^ 64) with 1.
    rewrite Z.mul_1_r. reflexivity. }
  rewrite <- (wrap64_small x Hx), <- (wrap64_small y Hy).
  rewrite <- (U x), <- (U y), H. reflexivity.
Qed.

End Wrap.

(* ================================================================= *)
(** ** The seed assigner *)

Section Seeds.

Import Wrap.

Lemma expensive_glyphSeed_closed s i :
  0 <= i <= INT_MAX ->
  expensive_glyphSeed s i
  = ((LCG_MULTIPLIER * Z.lxor s i + LCG_INCREMENT)
     * (if negb (s =? 0) then 1 else 0)) mod 2 ^ 64.
Proof.
  intros Hi. unfold expensive_glyphSeed.
  rewrite (int_to_ull_nonneg i Hi), wrap64_add_l, wrap64_mul_l.
  unfold bang_bang, lnot, wrap64.
  destruct (s =? 0); reflexivity.
Qed.

Lemma expensive_glyphSeed_nonzero s i :
  s <> 0 -> 0 <= i <= INT_MAX ->
  expensive_glyphSeed s i
  = wrap64 (LCG_MULTIPLIER * Z.lxor s i + LCG_INCREMENT).
Proof.
  intros Hs Hi. rewrite (expensive_glyphSeed_closed s i Hi).
  apply Z.eqb_neq in Hs. rewrite Hs. simpl negb.
  rewrite Z.mul_1_r. reflexivity.
Qed.

Lemma nth_error_seq_0 n i : (i < n)%nat -> nth_error (seq 0 n) i = Some i.
Proof.
  intros H.
  rewrite (nth_error_nth' (seq 0 n) 0%nat) by (rewrite length_seq; exact H).
  rewrite seq_nth by exact H. reflexivity.
Qed.

Lemma expensive_calls_nth c n i :
  (i < n)%nat ->
  nth_error (expensive_calls c n) i
  = Some (mkColoringCall i (edgeColoring c) (angleThreshold c)
            (expensive_glyphSeed (coloringSeed c) (Z.of_nat i))).
Proof.
  intros H. unfold expensive_calls.
  rewrite nth_error_map, (nth_error_seq_0 n i H). reflexivity.
Qed.

Lemma cheap_calls_length fn a s first n :
  List.length (cheap_calls fn a s first n) = n.
Proof.
  revert s first. induction n as [|n IH]; intros s first; simpl.
  - reflexivity.
  - rewrite IH. reflexivity.
Qed.


Lemma log_emit_all es : log (emit_all es) = es.
Proof.
  induction es as [|e es IH]; [reflexivity|].
  unfold log in *. simpl.
  destruct (emit_all es) as [lg r]. simpl in *. rewrite IH. reflexivity.
Qed.

Lemma coloring_seeds_calls ks :
  coloring_seeds (map ColoringCall ks)
  = map (fun k => (cc_glyph k, cc_seed k)) ks.
Proof.
  induction ks as [|k ks IH]; [reflexivity|].
  cbn [map]. unfold coloring_seeds in *. cbn [flat_map app].
  rewrite IH. reflexivity.
Qed.

End Seeds.




(** C5: for a nonzero global seed, the expensive policy gives distinct
    glyphs distinct seeds: [i |-> K * (S xor i) + C] modulo 2^64 is injective
    on glyph indices. *)
Theorem expensive_seeds_distinct (c : Configuration) (glyphCount i j : nat) :
  is_multichannel (imageType c) = true ->
  expensiveColoring c = true ->
  is_ull (coloringSeed c) ->
  coloringSeed c <> 0 ->
  Z.of_nat glyphCount <= INT_MAX ->
  (i < glyphCount)%nat -> (j < glyphCount)%nat ->
  i <> j ->
  exists si sj,
    nth_error (coloring_seeds (log (edge_coloring c glyphCount))) i = Some (i, si)
    /\ nth_error (coloring_seeds (log (edge_coloring c glyphCount))) j = Some (j, sj)
    /\ si = (LCG_MULTIPLIER * Z.lxor (coloringSeed c) (Z.of_nat i) + LCG_INCREMENT)
            mod 2 ^ 64
    /\ sj = (LCG_MULTIPLIER * Z.lxor (coloringSeed c) (Z.of_nat j) + LCG_INCREMENT)
            mod 2 ^ 64
    /\ si <> sj.
Proof.
  intros Hm He Hs Hs0 Hn Hi Hj Hij.
  assert (Hzi : 0 <= Z.of_nat i <= INT_MAX) by lia.
  assert (Hzj : 0 <= Z.of_nat j <= INT_MAX) by lia.
  assert (E : forall k, (k < glyphCount)%nat ->
              nth_error (coloring_seeds (log (edge_coloring c glyphCount))) k
              = Some (k, expensive_glyphSeed (coloringSeed c) (Z.of_nat k))).
  { intros k Hk. unfold edge_coloring. rewrite Hm, He.
    unfold log, emit, coloring_seeds. cbn [fst flat_map].
    rewrite app_nil_r, nth_error_map, (expensive_calls_nth c glyphCount k Hk).
    reflexivity. }
  exists (expensive_glyphSeed (coloringSeed c) (Z.of_nat i)),
         (expensive_glyphSeed (coloringSeed c) (Z.of_nat j)).
  rewrite (E i Hi), (E j Hj).
  rewrite !expensive_glyphSeed_nonzero by assumption.
  repeat split.
  intros H. apply Wrap.lcg_step_inj in H; try (apply Wrap.lxor_ull; assumption).
  apply Wrap.lxor_cancel_l in H. lia.
Qed.

Lemma expensive_seeds_distinct_witness :
  exists si sj,
    nth_error (coloring_seeds (log (edge_coloring (cfg Samples.distance_seed7) 3))) 0
    = Some (0%nat, si)
    /\ nth_error (coloring_seeds (log (edge_coloring (cfg Samples.distance_seed7) 3))) 2
       = Some (2%nat, sj)
    /\ si = (LCG_MULTIPLIER * Z.lxor 7 0 + LCG_INCREMENT) mod 2 ^ 64
    /\ sj = (LCG_MULTIPLIER * Z.lxor 7 2 + LCG_INCREMENT) mod 2 ^ 64
    /\ si <> sj.
Proof.
  apply (expensive_seeds_distinct (cfg Samples.distance_seed7) 3 0 2);
    [ reflexivity | reflexivity
    | unfold is_ull, ULLONG_MAX; simpl; lia
    | simpl; lia
    | unfold INT_MAX; lia | lia | lia | lia ].
Defined.



(* ================================================================= *)
(** ** The configuration fix-up *)

(** Case analysis on every condition a goal branches on. *)
Ltac split_branches :=
  repeat match goal with
         | |- context [match ?x with _ => _ end] => destruct x
         end.

Section Fixup.

Variable hardware_concurrency : Z.

Lemma fixup_default_size_cases l :
  fixup_default_size l
  = if nothing_sized l
    then ([Stderr MsgDefaultSize], Go (set_minEmSize DEFAULT_SIZE l))
    else ([], Go l).
Proof. unfold fixup_default_size. destruct (nothing_sized l); reflexivity. Qed.

Lemma fixup_scanline_cases l :
  fixup_scanline l
  = if scanlinePass (generatorAttributes (cfg l))
    then ((if downgrades l
           then [Stderr (MsgScanlineFallback
                           (fallbackModeName
                              (ErrorCorrectionConfig.mode (error_correction (cfg l)))))]
           else []),
          Go (set_cfg
                (set_distanceCheckMode ErrorCorrectionConfig.DO_NOT_CHECK_DISTANCE
                   (cfg l)) l))
    else ([], Go l).
Proof.
  unfold fixup_scanline.
  destruct (scanlinePass (generatorAttributes (cfg l))); [|reflexivity].
  destruct (downgrades l); reflexivity.
Qed.

(** [fixup] never leaves [main]: it is the two announcements followed by
    the fixed-up locals. *)
Lemma fixup_run l :
  fixup hardware_concurrency l
  = (fst (fixup_default_size (before_default l))
     ++ fst (fixup_scanline (after_default hardware_concurrency (defaulted l))),
     snd (fixup_scanline (after_default hardware_concurrency (defaulted l)))).
Proof.
  unfold fixup, defaulted. rewrite fixup_default_size_cases.
  destruct (nothing_sized (before_default l)); cbn [bind fst snd];
    match goal with
    | |- context [fixup_scanline ?x] => destruct (fixup_scanline x)
    end; reflexivity.
Qed.

Lemma fixed_up_eq l :
  fixed_up hardware_concurrency l
  = let l7 := after_default hardware_concurrency (defaulted l) in
    if scanlinePass (generatorAttributes (cfg l7))
    then set_cfg
           (set_distanceCheckMode ErrorCorrectionConfig.DO_NOT_CHECK_DISTANCE (cfg l7))
           l7
    else l7.
Proof.
  unfold fixed_up. rewrite fixup_run. cbn [snd]. rewrite fixup_scanline_cases.
  cbv zeta.
  destruct (scanlinePass
              (generatorAttributes
                 (cfg (after_default hardware_concurrency (defaulted l)))));
    reflexivity.
Qed.

Lemma fixup_returns l :
  snd (fixup hardware_concurrency l) = Go (fixed_up hardware_concurrency l).
Proof.
  unfold fixed_up. rewrite fixup_run. cbn [snd]. rewrite fixup_scanline_cases.
  destruct (scanlinePass
              (generatorAttributes
                 (cfg (after_default hardware_concurrency (defaulted l)))));
    reflexivity.
Qed.

End Fixup.

(** What the fix-up leaves alone. *)
Section FixupFrame.

Variable hardware_concurrency : Z.

Ltac unfold_steps :=
  unfold defaulted, after_default, before_default, fixup_threadCount, fixup_kerning,
    fixup_range, fixup_minEmSize, fixup_miterLimit, fixup_atlasSizeConstraint.

Ltac frame := intros; unfold_steps; split_branches; reflexivity.

Lemma defaulted_imageType l : imageType (cfg (defaulted l)) = imageType (cfg l).
Proof. frame. Qed.

Lemma defaulted_range l :
  rangeUnits (defaulted l) = rangeUnits l /\ rangeValue (defaulted l) = rangeValue l.
Proof. split; frame. Qed.

Lemma defaulted_threadCount l : threadCount (cfg (defaulted l)) = threadCount (cfg l).
Proof. frame. Qed.

Lemma defaulted_generatorAttributes l :
  generatorAttributes (cfg (defaulted l)) = generatorAttributes (cfg l).
Proof. frame. Qed.

Lemma defaulted_explicit l :
  explicitErrorCorrectionMode (defaulted l) = explicitErrorCorrectionMode l.
Proof. frame. Qed.

Lemma after_default_imageType l :
  imageType (cfg (after_default hardware_concurrency l)) = imageType (cfg l).
Proof. frame. Qed.

Lemma after_default_range l :
  rangeUnits (after_default hardware_concurrency l) = rangeUnits (fixup_range l)
  /\ rangeValue (after_default hardware_concurrency l) = rangeValue (fixup_range l).
Proof. split; frame. Qed.

Lemma after_default_generatorAttributes l :
  generatorAttributes (cfg (after_default hardware_concurrency l))
  = generatorAttributes (cfg l).
Proof. frame. Qed.

Lemma after_default_explicit l :
  explicitErrorCorrectionMode (after_default hardware_concurrency l)
  = explicitErrorCorrectionMode l.
Proof. frame. Qed.

Lemma after_default_minEmSize l :
  minEmSize (after_default hardware_concurrency l) = minEmSize l.
Proof. frame. Qed.

Lemma after_default_threadCount l :
  threadCount (cfg (after_default hardware_concurrency l))
  = if threadCount (cfg l) <=? 0
    then Z.max (to_int hardware_concurrency) 1
    else threadCount (cfg l).
Proof.
  unfold after_default, fixup_threadCount.
  assert (K : threadCount (cfg (fixup_kerning (fixup_range l))) = threadCount (cfg l))
    by frame.
  rewrite K. destruct (threadCount (cfg l) <=? 0); [reflexivity | exact K].
Qed.

(** The scanline step touches [distanceCheckMode] only. *)
Lemma fixed_up_outside_cfg l :
  let l7 := after_default hardware_concurrency (defaulted l) in
  rangeUnits (fixed_up hardware_concurrency l) = rangeUnits l7
  /\ rangeValue (fixed_up hardware_concurrency l) = rangeValue l7
  /\ minEmSize (fixed_up hardware_concurrency l) = minEmSize l7
  /\ packingSpacing (fixed_up hardware_concurrency l) = packingSpacing l7
  /\ imageType (cfg (fixed_up hardware_concurrency l)) = imageType (cfg l7)
  /\ threadCount (cfg (fixed_up hardware_concurrency l)) = threadCount (cfg l7)
  /\ emSize (cfg (fixed_up hardware_concurrency l)) = emSize (cfg l7).
Proof.
  rewrite fixed_up_eq. cbv zeta.
  destruct (scanlinePass
              (generatorAttributes
                 (cfg (after_default hardware_concurrency (defaulted l)))));
    repeat split; reflexivity.
Qed.

End FixupFrame.

(** C3: for a hard or soft mask the fix-up forces the range to pixels and
    to the range of width 1 (bounds -0.5 and 0.5), whatever range the
    command line gave; the packer is then handed that pixel range and a
    zero em range. *)
Theorem mask_range_is_one_pixel (hardware_concurrency : Z) (l : Locals) :
  is_mask (imageType (cfg l)) = true ->
  let l' := fixed_up hardware_concurrency l in
  snd (fixup hardware_concurrency l) = Go l'
  /\ rangeUnits l' = PIXELS
  /\ rangeValue l' = Range_of_width 1%float
  /\ rangeValue l' = mkRange (-0.5)%float 0.5%float
  /\ Range_width (rangeValue l') = 1%float
  /\ ps_pixelRange (packer_settings l') = Range_of_width 1%float
  /\ ps_unitRange (packer_settings l') = Range_of_width 0%float.
Proof.
  intros Hm l'.
  destruct (fixed_up_outside_cfg hardware_concurrency l) as (Hu & Hv & _).
  destruct (after_default_range hardware_concurrency (defaulted l)) as [Hu' Hv'].
  assert (Hd : is_mask (imageType (cfg (defaulted l))) = true)
    by (rewrite defaulted_imageType; exact Hm).
  assert (U : rangeUnits l' = PIXELS).
  { unfold l'. rewrite Hu, Hu'. unfold fixup_range. rewrite Hd. reflexivity. }
  assert (V : rangeValue l' = Range_of_width 1%float).
  { unfold l'. rewrite Hv, Hv'. unfold fixup_range. rewrite Hd. reflexivity. }
  split; [apply fixup_returns|].
  split; [exact U|]. split; [exact V|].
  split; [rewrite V; reflexivity|].
  split; [rewrite V; reflexivity|].
  unfold packer_settings, pxRange_of, emRange_of. cbn [ps_pixelRange ps_unitRange].
  rewrite U, V. split; reflexivity.
Qed.

Lemma mask_range_is_one_pixel_witness :
  rangeUnits (fixed_up 8 Samples.hardmask_emrange) = PIXELS
  /\ rangeValue (fixed_up 8 Samples.hardmask_emrange) = mkRange (-0.5)%float 0.5%float
  /\ rangeUnits Samples.hardmask_emrange = EMS
  /\ rangeValue Samples.hardmask_emrange = mkRange (-0.125)%float 0.125%float.
Proof.
  pose proof (mask_range_is_one_pixel 8 Samples.hardmask_emrange eq_refl) as H.
  cbv zeta in H.
  destruct H as (_ & U & _ & V & _).
  split; [exact U|]. split; [exact V|]. split; reflexivity.
Defined.


Section Scanline.

Variable hardware_concurrency : Z.

Import ErrorCorrectionConfig.

Lemma DistanceCheckMode_eqb_eq a b : DistanceCheckMode_eqb a b = true <-> a = b.
Proof. destruct a, b; simpl; split; intros H; congruence. Qed.

Lemma downgrades_iff l :
  downgrades l = true
  <-> explicitErrorCorrectionMode l = true
      /\ distanceCheckMode (error_correction (cfg l)) <> DO_NOT_CHECK_DISTANCE.
Proof.
  unfold downgrades. rewrite andb_true_iff, negb_true_iff.
  split; intros [He Hd]; (split; [exact He|]).
  - intros E. apply DistanceCheckMode_eqb_eq in E. congruence.
  - destruct (DistanceCheckMode_eqb _ _) eqn:E; [|reflexivity].
    apply DistanceCheckMode_eqb_eq in E. contradiction.
Qed.

(** The default-size step prints nothing about error correction. *)
Lemma default_size_log_no_fallback l name :
  ~ In (Stderr (MsgScanlineFallback name)) (fst (fixup_default_size l)).
Proof.
  rewrite fixup_default_size_cases. destruct (nothing_sized l); simpl.
  - intros [H|[]]. discriminate.
  - intros [].
Qed.

(** What reaches the scanline step of the error-correction settings is what
    the command line left. *)
Lemma before_scanline l :
  let l7 := after_default hardware_concurrency (defaulted l) in
  generatorAttributes (cfg l7) = generatorAttributes (cfg l)
  /\ explicitErrorCorrectionMode l7 = explicitErrorCorrectionMode l
  /\ downgrades l7 = downgrades l.
Proof.
  cbv zeta.
  assert (G : generatorAttributes
                (cfg (after_default hardware_concurrency (defaulted l)))
              = generatorAttributes (cfg l))
    by (rewrite after_default_generatorAttributes;
        apply defaulted_generatorAttributes).
  assert (X : explicitErrorCorrectionMode
                (after_default hardware_concurrency (defaulted l))
              = explicitErrorCorrectionMode l)
    by (rewrite after_default_explicit; apply defaulted_explicit).
  repeat split; try assumption.
  unfold downgrades, error_correction. rewrite G, X. reflexivity.
Qed.

Lemma fallback_in_log l name :
  scanlinePass (generatorAttributes (cfg l)) = true ->
  In (Stderr (MsgScanlineFallback name)) (log (fixup hardware_concurrency l))
  <-> downgrades l = true
      /\ name = fallbackModeName (mode (error_correction (cfg l))).
Proof.
  intros Hs.
  destruct (before_scanline l) as (G & X & D).
  unfold log. rewrite fixup_run. cbn [fst]. rewrite in_app_iff.
  rewrite fixup_scanline_cases, G, Hs, D. cbn [fst].
  unfold error_correction. rewrite G.
  split.
  - intros [H|H]; [exfalso; exact (default_size_log_no_fallback _ _ H)|].
    destruct (downgrades l); simpl in H; [|contradiction].
    destruct H as [H|[]]. injection H as <-. split; reflexivity.
  - intros [Hd ->]. right. rewrite Hd. left. reflexivity.
Qed.

End Scanline.


(* ----------------------------------------------------------------- *)
(** *** The default size *)

Section DefaultSize.

Variable hardware_concurrency : Z.

(** A double greater than 0 is not less than 0. *)
Lemma dgt_zero_asym m : dgt m 0%float = true -> dgt 0%float m = false.
Proof.
  unfold dgt. rewrite !ltb_spec.
  change (Prim2SF 0%float) with (S754_zero false).
  destruct (Prim2SF m) as [s|s| |s mant e]; try destruct s;
    cbv [SFltb SFcompare]; intros H; congruence.
Qed.

Lemma before_default_fixed l :
  fixedWidth (before_default l) = fixedWidth l
  /\ fixedHeight (before_default l) = fixedHeight l
  /\ fixedCellWidth (before_default l) = fixedCellWidth l
  /\ fixedCellHeight (before_default l) = fixedCellHeight l.
Proof.
  unfold before_default, fixup_minEmSize, fixup_miterLimit, fixup_atlasSizeConstraint.
  repeat split; split_branches; reflexivity.
Qed.

Lemma before_default_minEmSize l :
  minEmSize (before_default l)
  = if dgt (emSize (cfg l)) (minEmSize l) then emSize (cfg l) else minEmSize l.
Proof.
  unfold before_default, fixup_minEmSize.
  assert (E : emSize (cfg (fixup_miterLimit (fixup_atlasSizeConstraint l)))
              = emSize (cfg l))
    by (unfold fixup_miterLimit, fixup_atlasSizeConstraint; split_branches; reflexivity).
  assert (M : minEmSize (fixup_miterLimit (fixup_atlasSizeConstraint l)) = minEmSize l)
    by (unfold fixup_miterLimit, fixup_atlasSizeConstraint; split_branches; reflexivity).
  rewrite E, M. destruct (dgt (emSize (cfg l)) (minEmSize l)); [reflexivity | exact M].
Qed.

(** The guard of the fallback, in terms of what the command line gave. *)
Lemma nothing_sized_before_default l :
  sizes_parsed l ->
  nothing_sized (before_default l)
  = negb (scale_given l || min_scale_given l || atlas_size_given l
          || cell_size_given l).
Proof.
  intros [He Hm].
  destruct (before_default_fixed l) as (W & H & CW & CH).
  unfold nothing_sized. rewrite W, H, CW, CH, before_default_minEmSize.
  fold (atlas_size_given l) (cell_size_given l).
  assert (D : dgt (if dgt (emSize (cfg l)) (minEmSize l)
                   then emSize (cfg l) else minEmSize l) 0%float
              = scale_given l || min_scale_given l).
  { unfold scale_given, min_scale_given.
    destruct (dgt (emSize (cfg l)) (minEmSize l)) eqn:C.
    - destruct He as [He|He].
      + rewrite He in C |- *. destruct Hm as [Hm|Hm].
        * rewrite Hm in C. vm_compute in C. discriminate.
        * rewrite (dgt_zero_asym _ Hm) in C. discriminate.
      + rewrite He. reflexivity.
    - destruct Hm as [Hm|Hm].
      + rewrite Hm in C |- *. rewrite C. reflexivity.
      + rewrite Hm. apply eq_sym, orb_true_r. }
  rewrite D.
  destruct (scale_given l || min_scale_given l), (atlas_size_given l),
    (cell_size_given l); reflexivity.
Qed.

Lemma scanline_log_no_notice l :
  ~ In (Stderr MsgDefaultSize) (fst (fixup_scanline l)).
Proof.
  rewrite fixup_scanline_cases.
  destruct (scanlinePass (generatorAttributes (cfg l))); cbn [fst]; [|intros []].
  destruct (downgrades l); simpl; [|intros []].
  intros [H|[]]. discriminate.
Qed.

Lemma fixed_up_minEmSize l :
  minEmSize (fixed_up hardware_concurrency l) = minEmSize (defaulted l).
Proof.
  destruct (fixed_up_outside_cfg hardware_concurrency l) as (_ & _ & M & _).
  rewrite M. apply after_default_minEmSize.
Qed.

(** The handlers establish [sizes_parsed]. *)
Lemma sizes_parsed_initial skia ec : sizes_parsed (initial skia ec).
Proof. split; left; reflexivity. Qed.

Lemma sizes_parsed_arg_size s l l' :
  sizes_parsed l -> arg_size s l = Some l' -> sizes_parsed l'.
Proof.
  intros [He Hm] H. unfold arg_size in H.
  destruct (dgt s 0%float) eqn:D; [|discriminate].
  injection H as <-. split; [right; exact D | exact Hm].
Qed.

Lemma sizes_parsed_arg_minsize s l l' :
  sizes_parsed l -> arg_minsize s l = Some l' -> sizes_parsed l'.
Proof.
  intros [He Hm] H. unfold arg_minsize in H.
  destruct (dgt s 0%float) eqn:D; [|discriminate].
  injection H as <-. split; [exact He | right; exact D].
Qed.

End DefaultSize.

(** C7, as the code has it: when no fixed scale, no minimum scale, no atlas
    size and no fixed grid cell size is given, the fix-up first prints the
    notice and the minimum scale becomes [DEFAULT_SIZE] = 32; when any of
    the four is given, the notice is not printed and the minimum scale is
    the larger of the given scale and the given minimum scale. *)
Theorem default_size_fallback (hardware_concurrency : Z) (l : Locals) :
  sizes_parsed l ->
  let given :=
    scale_given l || min_scale_given l || atlas_size_given l || cell_size_given l in
  let l' := fixed_up hardware_concurrency l in
  (given = false ->
   hd_error (log (fixup hardware_concurrency l)) = Some (Stderr MsgDefaultSize)
   /\ minEmSize l' = DEFAULT_SIZE
   /\ DEFAULT_SIZE = 32%float)
  /\ (given = true ->
      ~ In (Stderr MsgDefaultSize) (log (fixup hardware_concurrency l))
      /\ minEmSize l'
         = if dgt (emSize (cfg l)) (minEmSize l) then emSize (cfg l) else minEmSize l).
Proof.
  intros Hp given l'.
  pose proof (nothing_sized_before_default l Hp) as N. fold given in N.
  unfold l'. rewrite fixed_up_minEmSize. unfold log, defaulted.
  rewrite fixup_run. cbn [fst]. rewrite fixup_default_size_cases, N.
  split; intros G; rewrite G; cbn [negb fst].
  - repeat split; reflexivity.
  - split; [|apply before_default_minEmSize].
    cbn [app]. apply scanline_log_no_notice.
Qed.

Lemma default_size_fallback_witness :
  (hd_error (log (fixup 8 Samples.image_only)) = Some (Stderr MsgDefaultSize)
   /\ minEmSize (fixed_up 8 Samples.image_only) = 32%float)
  /\ (minEmSize (fixed_up 8 Samples.size48) = 48%float
      /\ log (fixup 8 Samples.size48) = []).
Proof.
  split.
  - destruct (default_size_fallback 8 Samples.image_only
                (sizes_parsed_initial false Samples.auto_mixed : sizes_parsed Samples.image_only)) as [A _].
    cbv zeta in A. destruct (A eq_refl) as (H1 & H2 & _).
    split; [exact H1 | exact H2].
  - split; reflexivity.
Defined.

(** C7 as stated fails: with a fixed grid cell size and neither a scale, a
    minimum scale nor an atlas size ([-uniformcell 16 16]), no notice is
    printed and the minimum scale stays 0 instead of becoming 32. *)
Lemma default_size_skipped_for_fixed_cell :
  scale_given Samples.fixed_cell = false
  /\ min_scale_given Samples.fixed_cell = false
  /\ atlas_size_given Samples.fixed_cell = false
  /\ emSize (cfg Samples.fixed_cell) = 0%float
  /\ minEmSize Samples.fixed_cell = 0%float
  /\ (fixedWidth Samples.fixed_cell, fixedHeight Samples.fixed_cell) = (-1, -1)
  /\ log (fixup 8 Samples.fixed_cell) = []
  /\ minEmSize (fixed_up 8 Samples.fixed_cell) = 0%float
  /\ deq (minEmSize (fixed_up 8 Samples.fixed_cell)) DEFAULT_SIZE = false.
Proof. repeat split. Qed.

(* ----------------------------------------------------------------- *)
(** *** Spacing *)

Lemma fixed_up_spacing hardware_concurrency l :
  spacing (fixed_up hardware_concurrency l) = spacing l.
Proof.
  destruct (fixed_up_outside_cfg hardware_concurrency l) as (_ & _ & _ & P & T & _).
  unfold spacing. rewrite P, T.
  assert (P' : packingSpacing (after_default hardware_concurrency (defaulted l))
               = packingSpacing l).
  { unfold defaulted, after_default, before_default, fixup_threadCount, fixup_kerning,
      fixup_range, fixup_minEmSize, fixup_miterLimit, fixup_atlasSizeConstraint.
    split_branches; reflexivity. }
  rewrite P', after_default_imageType, defaulted_imageType. reflexivity.
Qed.




(* ================================================================= *)
(** ** Laws of the run monad *)

Module RunFacts.

Lemma bind_ret_l {A B} (a : A) (f : A -> M B) : bind (ret a) f = f a.
Proof. unfold bind, ret. destruct (f a) as [lg r]. reflexivity. Qed.

Lemma bind_exit {A B} lg code (f : A -> M B) :
  bind (lg, Exit code) f = (lg, Exit code).
Proof. reflexivity. Qed.

Lemma bind_go {A B} lg (a : A) (f : A -> M B) :
  bind (lg, Go a) f = (lg ++ fst (f a), snd (f a)).
Proof. unfold bind. destruct (f a) as [lg' r]. reflexivity. Qed.

(** A run that reaches its end went through both of its halves. *)
Lemma bind_inv_go {A B} (m : M A) (f : A -> M B) lg b :
  bind m f = (lg, Go b) ->
  exists lg1 a lg2, m = (lg1, Go a) /\ f a = (lg2, Go b) /\ lg = lg1 ++ lg2.
Proof.
  destruct m as [lg1 [a|code]]; [|discriminate].
  rewrite bind_go. intros H. injection H as <- H.
  exists lg1, a, (fst (f a)). repeat split.
  destruct (f a) as [lg2 r]. simpl in *. subst r. reflexivity.
Qed.

Lemma when_go b (m : M unit) lg u :
  when b m = (lg, Go u) -> (b = true /\ m = (lg, Go u)) \/ (b = false /\ lg = []).
Proof.
  destruct b; cbn [when]; intros H; [left; split; [reflexivity | exact H]|].
  right. injection H as <- _. split; reflexivity.
Qed.

End RunFacts.

(* ================================================================= *)
(** ** Properties of every event of a run *)

Module Events.

Definition all {A} (P : event -> Prop) (m : M A) : Prop := Forall P (log m).

Lemma all_ret {A} P (a : A) : all P (ret a).
Proof. constructor. Qed.

Lemma all_exit {A} P code : all P (@exit A code).
Proof. constructor. Qed.

Lemma all_emit P e : P e -> all P (emit e).
Proof. intros H. repeat constructor. exact H. Qed.

Lemma all_bind {A B} P (m : M A) (f : A -> M B) :
  all P m -> (forall a, snd m = Go a -> all P (f a)) -> all P (bind m f).
Proof.
  unfold all, log. destruct m as [lg [a|code]]; intros Hm Hf.
  - rewrite RunFacts.bind_go. cbn [fst] in *. apply Forall_app. split; [exact Hm|].
    apply Hf. reflexivity.
  - exact Hm.
Qed.

Lemma all_impl {A} (P Q : event -> Prop) (m : M A) :
  (forall e, P e -> Q e) -> all P m -> all Q m.
Proof. intros H. apply Forall_impl. exact H. Qed.

Lemma all_when P b m : all P m -> all P (when b m).
Proof. destruct b; [auto | intros _; apply all_ret]. Qed.

Lemma all_ABORT {A} P msg : P (Stderr msg) -> all P (@ABORT A msg).
Proof.
  intros H. unfold ABORT. apply all_bind; [apply all_emit; exact H|].
  intros _ _. apply all_exit.
Qed.

Lemma all_emit_all P es : Forall P es -> all P (emit_all es).
Proof. unfold all. rewrite log_emit_all. auto. Qed.

End Events.

(** Solves [Events.all P m] for a run [m] written with the monad's
    operations, when [P] holds of each event it emits by computation. *)
Ltac all_events :=
  repeat first
    [ apply Events.all_ret
    | apply Events.all_exit
    | apply Events.all_when
    | apply Events.all_ABORT
    | apply Events.all_emit
    | apply Events.all_bind; [|intros ? ?]
    | match goal with
      | |- Events.all _ (match ?x with _ => _ end) => destruct x
      end
    | exact I
    | (split; reflexivity) ].

(* ================================================================= *)
(** ** Packing and generation *)

Section PipelineFacts.

Import RunFacts.

Variable tight_pack : PackerSettings -> Z -> PackResult.
Variable grid_pack : GridSettings -> PackerSettings -> Z -> PackResult.
Variable saveImage : ImageFormat -> string -> YDirection -> bool.
Variable exportArteryFont : string -> ArteryFontExportProperties -> bool.
Variable exportCSV : string -> bool.
Variable exportJSON : string -> JsonAtlasMetrics -> bool.
Variable generateShadronPreview : string -> string -> bool.

Local Abbreviation result_of := (pack_result tight_pack grid_pack).
Local Abbreviation packing := (pack tight_pack grid_pack).
Local Abbreviation generating := (generate saveImage exportArteryFont).
Local Abbreviation pipeline :=
  (pack_and_generate tight_pack grid_pack saveImage exportArteryFont exportCSV
     exportJSON generateShadronPreview).

Lemma pack_failure_run {A} remaining glyphCount :
  @pack_failure A remaining glyphCount
  = ([Stderr (failure_message remaining glyphCount)], Exit 1).
Proof.
  unfold pack_failure, failure_message, ABORT.
  destruct (remaining <? 0); reflexivity.
Qed.

(** A nonzero [remaining] ends [main] right after the call. *)
Lemma pack_fails l n :
  pr_remaining (result_of l n) <> 0 ->
  packing l n
  = ([pack_event l n; Stderr (failure_message (pr_remaining (result_of l n)) n)],
     Exit 1).
Proof.
  intros H. apply Z.eqb_neq in H. revert H.
  unfold pack, pack_result, pack_event, pack_tight, pack_grid.
  destruct (packingStyle l); cbv zeta; intros H; rewrite H; cbn [negb];
    rewrite pack_failure_run; reflexivity.
Qed.

Lemma pipeline_fails l n any result :
  n <> 0%nat ->
  pr_remaining (result_of l n) <> 0 ->
  pipeline l n any result
  = ([pack_event l n; Stderr (failure_message (pr_remaining (result_of l n)) n)],
     Exit 1).
Proof.
  intros Hn Hk. unfold pack_and_generate.
  apply Nat.eqb_neq in Hn. rewrite Hn, bind_ret_l.
  unfold pack_then_generate. rewrite (pack_fails l n Hk). reflexivity.
Qed.

Lemma pack_event_quiet l n :
  writes_file (pack_event l n) = false /\ is_generate (pack_event l n) = false.
Proof. unfold pack_event. destruct (packingStyle l); split; reflexivity. Qed.

(** C2: when [pack] returns a nonzero value, [main] returns 1 right after
    the call, having written no file and generated no bitmap: a negative
    value gives the general packing-failure message, a positive value [k]
    the message that [k] glyphs out of [glyphs.size()] could not be placed.
    Generation and the exporters are only reached when [pack] returned 0. *)
Theorem nonzero_pack_aborts (l : Locals) (glyphCount : nat) (any : bool)
  (result : Z) :
  glyphCount <> 0%nat ->
  Z.of_nat glyphCount <= INT_MAX ->
  let k := pr_remaining (result_of l glyphCount) in
  let m := pipeline l glyphCount any result in
  (k <> 0 ->
   exit_status m = 1
   /\ Forall (fun e => writes_file e = false /\ is_generate e = false) (log m)
   /\ (k < 0 -> log m = [pack_event l glyphCount; Stderr MsgPackFailed])
   /\ (0 < k ->
       log m = [pack_event l glyphCount;
                Stderr (MsgUnplaced k (Z.of_nat glyphCount))]))
  /\ (forall e,
         In e (log m) -> writes_file e = true \/ is_generate e = true -> k = 0).
Proof.
  intros Hn Hmax k m.
  assert (F : k <> 0 ->
              m = ([pack_event l glyphCount;
                    Stderr (failure_message k glyphCount)], Exit 1))
    by (intros Hk; apply pipeline_fails; assumption).
  assert (Q : k <> 0 ->
              Forall (fun e => writes_file e = false /\ is_generate e = false) (log m)).
  { intros Hk. rewrite (F Hk). unfold log. cbn [fst].
    repeat constructor; apply pack_event_quiet. }
  split.
  - intros Hk. split; [rewrite (F Hk); reflexivity|].
    split; [exact (Q Hk)|].
    rewrite (F Hk). unfold log, failure_message. cbn [fst].
    split; intros Hs.
    + apply Z.ltb_lt in Hs. rewrite Hs. reflexivity.
    + assert (Hge : (k <? 0) = false) by (apply Z.ltb_ge; lia).
      rewrite Hge, Wrap.to_int_small by lia. reflexivity.
  - intros e He Hw.
    destruct (Z.eq_dec k 0) as [E|E]; [exact E|exfalso].
    pose proof (Q E) as Hq. rewrite Forall_forall in Hq.
    destruct (Hq e He) as [W G]. destruct Hw; congruence.
Qed.

Ltac split_hyp_branches H :=
  repeat match type of H with
         | context [if ?b then _ else _] => destruct b eqn:?
         end.

Lemma pack_go l n lg c o :
  packing l n = (lg, Go (c, o)) ->
  pr_remaining (result_of l n) = 0
  /\ positive_dimensions c = true
  /\ c = packed_config l (result_of l n).
Proof.
  unfold pack, pack_result, packed_config, pack_tight, pack_grid.
  destruct (packingStyle l); cbv zeta; intros H;
    (destruct (pr_remaining _ =? 0) eqn:K;
     [ apply Z.eqb_eq in K
     | cbn [negb] in H; rewrite pack_failure_run in H; discriminate ]);
    (split; [exact K|]);
    unfold when, ABORT, emit, exit, ret, bind in H; cbn [negb] in H;
    split_hyp_branches H; cbn in H; try discriminate;
    injection H as _ <- _; (split; [|reflexivity]).
  all: match goal with
       | P : negb (positive_dimensions _) = false |- _ =>
           apply negb_false_iff in P; exact P
       end.
Qed.

Local Abbreviation packing_then_generating :=
  (pack_then_generate tight_pack grid_pack saveImage exportArteryFont).

(** Edge colouring and [makeAtlas] read the configuration; [generate] hands
    back the one it was given. *)
Lemma generate_keeps_config c n result lg c' r :
  generating c n result = (lg, Go (c', r)) -> c' = c.
Proof.
  unfold generate. destruct (negb (layoutOnly c)).
  - intros H. apply bind_inv_go in H. destruct H as (lg1 & [] & lg2 & _ & H & _).
    apply bind_inv_go in H. destruct H as (lg3 & ok & lg4 & _ & H & _).
    unfold ret in H. injection H as _ <- _. reflexivity.
  - unfold ret. intros H. injection H as _ <- _. reflexivity.
Qed.

Lemma pack_then_generate_go l n result lg c o r :
  packing_then_generating l n result = (lg, Go (c, o, r)) ->
  pr_remaining (result_of l n) = 0
  /\ positive_dimensions c = true
  /\ c = packed_config l (result_of l n).
Proof.
  unfold pack_then_generate. intros H.
  apply bind_inv_go in H. destruct H as (lg1 & [c1 o1] & lg2 & P & H & _).
  apply bind_inv_go in H. destruct H as (lg3 & [c2 r2] & lg4 & G & H & _).
  unfold ret in H. injection H as _ <- _ _.
  apply generate_keeps_config in G. subst c2.
  exact (pack_go l n lg1 c1 o1 P).
Qed.

Lemma packed_config_same_settings l r : same_settings (cfg l) (packed_config l r).
Proof.
  unfold packed_config, same_settings.
  destruct (packingStyle l); repeat split; reflexivity.
Qed.

(** C9, as the code has it: right after [pack] returns 0, [main] stores
    the packer's results in [config]: [width], [height], [emSize],
    [pxRange], and for the grid packer the grid's cell size, columns and
    rows.  Every other field has, when bitmap generation completes, the
    value it had when [pack] was called, and edge colouring and generation
    themselves leave [config] as it was. *)
Theorem configuration_settings_preserved (l : Locals) (glyphCount : nat)
  (result : Z) (lg : list event) (c : Configuration)
  (origin : option (double * double)) (r : Z) :
  packing_then_generating l glyphCount result = (lg, Go (c, origin, r)) ->
  same_settings (cfg l) c
  /\ c = packed_config l (result_of l glyphCount)
  /\ (packingStyle l = TIGHT -> grid c = grid (cfg l))
  /\ positive_dimensions c = true
  /\ (forall c0 lg0 c1 r1,
         generating c0 glyphCount result = (lg0, Go (c1, r1)) -> c1 = c0).
Proof.
  intros H. apply pack_then_generate_go in H. destruct H as (_ & D & ->).
  split; [apply packed_config_same_settings|].
  split; [reflexivity|].
  split; [intros T; unfold packed_config; rewrite T; reflexivity|].
  split; [exact D|].
  intros c0 lg0 c1 r1. apply generate_keeps_config.
Qed.

(* ----------------------------------------------------------------- *)
(** *** What generation runs with *)

Lemma edge_coloring_uses_config c n : Events.all (uses_config c) (edge_coloring c n).
Proof.
  unfold edge_coloring.
  destruct (is_multichannel (imageType c)); [|apply Events.all_ret].
  destruct (expensiveColoring c).
  - apply Events.all_emit. reflexivity.
  - apply Events.all_emit_all. apply Forall_map, Forall_forall. intros k _. exact I.
Qed.

Lemma generate_uses_config c n r : Events.all (uses_config c) (generating c n r).
Proof.
  unfold generate, makeAtlas.
  destruct (negb (layoutOnly c)); [|apply Events.all_ret].
  apply Events.all_bind; [apply edge_coloring_uses_config|intros _ _].
  all_events.
Qed.

Lemma uses_config_same c c' e :
  same_settings c c' -> uses_config c' e -> uses_config c e.
Proof.
  intros S. unfold same_settings in S.
  destruct S as (_&_&_&_&_&_&_&_&_&_&_&_&G&_&_&T&_).
  destruct e; cbn [uses_config]; rewrite ?G, ?T; auto.
Qed.

Lemma pack_uses_config c l n : Events.all (uses_config c) (packing l n).
Proof.
  unfold pack, pack_tight, pack_grid, pack_failure.
  destruct (packingStyle l); cbv zeta; all_events.
Qed.

(** Packing changes neither the thread count nor the generator attributes,
    so generation runs with those the fix-up left. *)
Lemma pipeline_uses_config l n any r :
  Events.all (uses_config (cfg l)) (pipeline l n any r).
Proof.
  unfold pack_and_generate, pack_then_generate, export_csv, export_json,
    export_shadron.
  apply Events.all_bind; [destruct (n =? 0)%nat; all_events|intros _ _].
  apply Events.all_bind; [|intros [[c o] r'] _; all_events].
  apply Events.all_bind; [apply pack_uses_config|].
  intros [c o] P.
  destruct (packing l n) as [lg res] eqn:E.
  cbn [snd] in P. subst res.
  pose proof (pack_go _ _ _ _ _ E) as (_ & _ & ->).
  apply Events.all_bind; [|intros [c' r'] _; apply Events.all_ret].
  apply (Events.all_impl (uses_config (packed_config l (result_of l n)))).
  - intros e. apply uses_config_same, packed_config_same_settings.
  - apply generate_uses_config.
Qed.

Lemma pipeline_threads l n any r e t :
  In e (log (pipeline l n any r)) -> threads_of e = Some t -> t = threadCount (cfg l).
Proof.
  intros He Ht.
  pose proof (pipeline_uses_config l n any r) as H.
  unfold Events.all in H. rewrite Forall_forall in H. specialize (H e He).
  destruct e; cbn [threads_of uses_config] in *; try discriminate;
    injection Ht as <-; [exact H | exact (proj2 H)].
Qed.

Lemma pipeline_attributes l n any r e a :
  In e (log (pipeline l n any r)) ->
  attributes_of e = Some a -> a = generatorAttributes (cfg l).
Proof.
  intros He Ha.
  pose proof (pipeline_uses_config l n any r) as H.
  unfold Events.all in H. rewrite Forall_forall in H. specialize (H e He).
  destruct e; cbn [attributes_of uses_config] in *; try discriminate.
  injection Ha as <-. exact (proj1 H).
Qed.

(** C8: a thread count that is 0 (or not positive) becomes the maximum of
    the detected hardware concurrency and 1, a positive one is kept; that
    is the count edge colouring and bitmap generation then run with. *)
Theorem effective_thread_count (hardware_concurrency : Z) (l : Locals)
  (glyphCount : nat) (any : bool) (result : Z) :
  0 <= hardware_concurrency <= INT_MAX ->
  let effective :=
    if threadCount (cfg l) <=? 0
    then Z.max hardware_concurrency 1
    else threadCount (cfg l) in
  threadCount (cfg (fixed_up hardware_concurrency l)) = effective
  /\ (forall e t,
         In e (log (pipeline (fixed_up hardware_concurrency l) glyphCount any result)) ->
         threads_of e = Some t -> t = effective).
Proof.
  intros Hh effective.
  assert (E : threadCount (cfg (fixed_up hardware_concurrency l)) = effective).
  { destruct (fixed_up_outside_cfg hardware_concurrency l)
      as (_ & _ & _ & _ & _ & T & _).
    rewrite T, after_default_threadCount, defaulted_threadCount.
    rewrite (Wrap.to_int_small _ Hh). reflexivity. }
  split; [exact E|].
  intros e t He Ht. rewrite <- E. exact (pipeline_threads _ _ _ _ e t He Ht).
Qed.

(** C4: when the scanline pass is enabled, the fix-up sets the distance
    check mode to [DO_NOT_CHECK_DISTANCE], keeps the error-correction mode
    (and the scanline pass), and prints the fallback warning exactly when
    an error-correction mode was given explicitly and its distance check
    mode was not already [DO_NOT_CHECK_DISTANCE].  The warning names the
    fallback mode: "disabled", "distance-fast", "auto-fast" or "edge-fast"
    for the mode that is kept, which is the word with which
    [-errorcorrection] selects the settings the fix-up leaves.  The
    generator is then run with these attributes. *)
Theorem scanline_disables_distance_check (hardware_concurrency : Z) (l : Locals)
  (glyphCount : nat) (any : bool) (result : Z) :
  scanlinePass (generatorAttributes (cfg l)) = true ->
  let l' := fixed_up hardware_concurrency l in
  let ec := error_correction (cfg l) in
  let ec' := error_correction (cfg l') in
  ErrorCorrectionConfig.distanceCheckMode ec'
  = ErrorCorrectionConfig.DO_NOT_CHECK_DISTANCE
  /\ ErrorCorrectionConfig.mode ec' = ErrorCorrectionConfig.mode ec
  /\ scanlinePass (generatorAttributes (cfg l')) = true
  /\ ((exists name,
          In (Stderr (MsgScanlineFallback name)) (log (fixup hardware_concurrency l)))
      <-> explicitErrorCorrectionMode l = true
          /\ ErrorCorrectionConfig.distanceCheckMode ec
             <> ErrorCorrectionConfig.DO_NOT_CHECK_DISTANCE)
  /\ (forall name,
         In (Stderr (MsgScanlineFallback name)) (log (fixup hardware_concurrency l)) ->
         name = match ErrorCorrectionConfig.mode ec with
                | ErrorCorrectionConfig.DISABLED => "disabled"
                | ErrorCorrectionConfig.INDISCRIMINATE => "distance-fast"
                | ErrorCorrectionConfig.EDGE_PRIORITY => "auto-fast"
                | ErrorCorrectionConfig.EDGE_ONLY => "edge-fast"
                end%string
         /\ parse_errorcorrection name
            = EC_mode (ErrorCorrectionConfig.mode ec')
                (ErrorCorrectionConfig.distanceCheckMode ec'))
  /\ (forall e a,
         In e (log (pipeline l' glyphCount any result)) ->
         attributes_of e = Some a ->
         scanlinePass a = true
         /\ ErrorCorrectionConfig.distanceCheckMode (errorCorrection (config a))
            = ErrorCorrectionConfig.DO_NOT_CHECK_DISTANCE
         /\ ErrorCorrectionConfig.mode (errorCorrection (config a))
            = ErrorCorrectionConfig.mode ec).
Proof.
  intros Hs l' ec ec'.
  destruct (before_scanline hardware_concurrency l) as (G & _ & _).
  assert (E : cfg l'
              = set_distanceCheckMode ErrorCorrectionConfig.DO_NOT_CHECK_DISTANCE
                  (cfg (after_default hardware_concurrency (defaulted l)))).
  { unfold l'. rewrite fixed_up_eq. cbv zeta. rewrite G, Hs. reflexivity. }
  assert (A : ErrorCorrectionConfig.distanceCheckMode ec'
              = ErrorCorrectionConfig.DO_NOT_CHECK_DISTANCE
              /\ ErrorCorrectionConfig.mode ec' = ErrorCorrectionConfig.mode ec
              /\ scanlinePass (generatorAttributes (cfg l')) = true).
  { unfold ec', ec, error_correction. rewrite E.
    unfold set_distanceCheckMode.
    cbn [generatorAttributes set_generatorAttributes config errorCorrection
         scanlinePass ErrorCorrectionConfig.set_distanceCheckMode
         ErrorCorrectionConfig.mode ErrorCorrectionConfig.distanceCheckMode].
    rewrite G. repeat split. exact Hs. }
  destruct A as (A1 & A2 & A3).
  split; [exact A1|]. split; [exact A2|]. split; [exact A3|].
  split; [|split].
  - unfold ec. rewrite <- downgrades_iff. split.
    + intros [name H]. apply (fallback_in_log hardware_concurrency l name Hs) in H.
      exact (proj1 H).
    + intros Hd. eexists.
      apply (fallback_in_log hardware_concurrency l _ Hs). split; [exact Hd|reflexivity].
  - intros name H. apply (fallback_in_log hardware_concurrency l name Hs) in H.
    destruct H as [_ ->]. rewrite A1, A2. fold ec.
    destruct (ErrorCorrectionConfig.mode ec); split; reflexivity.
  - intros e a He Ha. apply (pipeline_attributes _ _ _ _ e a He) in Ha. subst a.
    split; [exact A3|]. split; [exact A1 | exact A2].
Qed.

End PipelineFacts.


Lemma nonzero_pack_aborts_witness :
  let l := fixed_up 8 Samples.image_only in
  let m :=
    pack_and_generate (Samples.tight_const Samples.leaves3)
      (Samples.grid_const Samples.leaves3) Samples.image_saved
      Samples.arfont_written Samples.csv_written Samples.json_written
      Samples.shadron_written l 5 true 0 in
  exit_status m = 1
  /\ log m = [pack_event l 5; Stderr (MsgUnplaced 3 5)].
Proof.
  cbv zeta.
  destruct (nonzero_pack_aborts (Samples.tight_const Samples.leaves3)
              (Samples.grid_const Samples.leaves3) Samples.image_saved
              Samples.arfont_written Samples.csv_written Samples.json_written
              Samples.shadron_written (fixed_up 8 Samples.image_only) 5 true 0
              ltac:(discriminate) ltac:(unfold INT_MAX; simpl; lia)) as [A _].
  cbv zeta in A.
  destruct (A ltac:(discriminate)) as (E & _ & _ & P).
  split; [exact E | exact (P eq_refl)].
Defined.

(** C9 as stated fails: a run that packs and generates ends with a
    [config] whose [width], [height], [emSize] and [pxRange] differ from the
    ones it had when [pack] was called. *)
Lemma packing_rewrites_configuration :
  let l := fixed_up 8 Samples.image_only in
  exists lg c r,
    pack_then_generate (Samples.tight_const Samples.fits64)
      (Samples.grid_const Samples.fits64) Samples.image_saved
      Samples.arfont_written l 1 0
    = (lg, Go (c, None, r))
    /\ (width (cfg l), height (cfg l)) = (0, 0)
    /\ (width c, height c) = (64, 64)
    /\ emSize (cfg l) = 0%float
    /\ emSize c = 32%float
    /\ pxRange (cfg l) = Range_of_width 0%float
    /\ pxRange c = Range_of_width 2%float.
Proof.
  cbv zeta. eexists. eexists. eexists.
  split; [vm_compute; reflexivity|].
  repeat split.
Qed.

Lemma configuration_settings_preserved_witness :
  let l := fixed_up 8 Samples.image_only in
  exists c,
    snd (pack_then_generate (Samples.tight_const Samples.fits64)
           (Samples.grid_const Samples.fits64) Samples.image_saved
           Samples.arfont_written l 1 0)
    = Go (c, None, 0)
    /\ same_settings (cfg l) c
    /\ positive_dimensions c = true.
Proof.
  cbv zeta.
  assert (R : exists lg c,
             pack_then_generate (Samples.tight_const Samples.fits64)
               (Samples.grid_const Samples.fits64) Samples.image_saved
               Samples.arfont_written (fixed_up 8 Samples.image_only) 1 0
             = (lg, Go (c, None, 0)))
    by (eexists; eexists; vm_compute; reflexivity).
  destruct R as (lg & c & R).
  destruct (configuration_settings_preserved _ _ _ _ _ _ _ _ _ _ _ R)
    as (S & _ & _ & D & _).
  exists c. rewrite R. split; [reflexivity|]. split; [exact S | exact D].
Defined.

Lemma effective_thread_count_witness :
  threadCount (cfg (fixed_up 8 Samples.image_only)) = 8
  /\ threadCount (cfg Samples.image_only) = 0.
Proof.
  split; [|reflexivity].
  exact (proj1 (effective_thread_count (Samples.tight_const Samples.fits64)
                  (Samples.grid_const Samples.fits64) Samples.image_saved
                  Samples.arfont_written Samples.csv_written Samples.json_written
                  Samples.shadron_written 8 Samples.image_only 1 true 0
                  ltac:(unfold INT_MAX; lia))).
Defined.

Lemma scanline_disables_distance_check_witness :
  ErrorCorrectionConfig.distanceCheckMode
    (error_correction (cfg (fixed_up 8 Samples.distance_full)))
  = ErrorCorrectionConfig.DO_NOT_CHECK_DISTANCE
  /\ ErrorCorrectionConfig.mode
       (error_correction (cfg (fixed_up 8 Samples.distance_full)))
     = ErrorCorrectionConfig.INDISCRIMINATE
  /\ log (fixup 8 Samples.distance_full)
     = [Stderr MsgDefaultSize; Stderr (MsgScanlineFallback "distance-fast")]
  /\ parse_errorcorrection "distance-fast"
     = EC_mode ErrorCorrectionConfig.INDISCRIMINATE
         ErrorCorrectionConfig.DO_NOT_CHECK_DISTANCE
  /\ log (fixup 8 Samples.auto_full)
     = [Stderr MsgDefaultSize; Stderr (MsgScanlineFallback "auto-fast")].
Proof.
  pose proof (scanline_disables_distance_check (Samples.tight_const Samples.fits64)
                (Samples.grid_const Samples.fits64) Samples.image_saved
                Samples.arfont_written Samples.csv_written Samples.json_written
                Samples.shadron_written 8 Samples.distance_full 1 true 0 eq_refl) as H.
  cbv zeta in H. destruct H as (D & M & _ & _ & N & _).
  split; [exact D|]. split; [exact M|]. split; [reflexivity|].
  destruct (N "distance-fast"%string) as [_ P]; [right; left; reflexivity|].
  rewrite P, D, M. split; reflexivity.
Defined.

(* ================================================================= *)
(** * Further properties of [main.cpp] *)

(* ================================================================= *)
(** ** String helpers *)

Section StringHelpers.


End StringHelpers.

(** X1: [strStartsWith str prefix] holds exactly when [str] is [prefix]
    followed by some rest; in particular a [str] shorter than [prefix] never
    starts with it. *)
Theorem strStartsWith_iff_prefix (str prefix : string) :
  strStartsWith str prefix = true <-> exists rest, str = (prefix ++ rest)%string.
Proof.
  revert str. induction prefix as [|p prefix IH]; intros str; cbn [strStartsWith].
  - split; [|reflexivity]. intros _. exists str. reflexivity.
  - destruct str as [|s str].
    + split; [discriminate|]. intros [rest E]. discriminate.
    + destruct (Ascii.eqb s p) eqn:C.
      * apply Ascii.eqb_eq in C. subst p. rewrite IH. split.
        -- intros [rest ->]. exists rest. reflexivity.
        -- intros [rest E]. cbn in E. injection E as ->. exists rest. reflexivity.
      * apply Ascii.eqb_neq in C. split; [discriminate|].
        intros [rest E]. cbn in E. injection E as E _. contradiction.
Qed.


(** X3: the fallback mode name printed by the scanline warning is itself a
    word [-errorcorrection] accepts, and it selects the same mode with the
    distance check switched off, which is the setting the fix-up leaves. *)
Theorem fallbackModeName_round_trip (m : ErrorCorrectionConfig.Mode) :
  parse_errorcorrection (fallbackModeName m)
  = EC_mode m ErrorCorrectionConfig.DO_NOT_CHECK_DISTANCE.
Proof. destruct m; reflexivity. Qed.

(* ================================================================= *)
(** ** Image format *)

Section ImageFormatFacts.

Variables png_supported artery_supported : bool.

Lemma ImageFormat_eqb_eq a b : ImageFormat_eqb a b = true <-> a = b.
Proof. destruct a, b; simpl; split; intros H; congruence. Qed.

(** The formats a file extension can stand for. *)
Lemma image_extension_range c :
  In (snd (image_extension png_supported c))
     [UNSPECIFIED; PNG; BMP; TIFF; RGBA; FL32; TEXT; BINARY].
Proof.
  unfold image_extension. destruct (imageFilename c) as [f|]; [|simpl; auto].
  repeat match goal with
         | |- context [if ?b then _ else _] => destruct b
         end; simpl; auto 10.
Qed.

Lemma mismatch_same e :
  In e [UNSPECIFIED; PNG; BMP; TIFF; RGBA; FL32; TEXT; BINARY] ->
  mismatch e e = false.
Proof.
  intros H. simpl in H.
  repeat (destruct H as [<-|H]; [reflexivity|]). contradiction.
Qed.

Lemma finalize_image_format_unfold c name result :
  finalize_image_format png_supported artery_supported c name result
  = let ext := snd (image_extension png_supported c) in
    let r := resolve_format png_supported ext c name in
    let a := check_artery_font artery_supported (fst (snd r)) result in
    (fst (image_extension png_supported c) ++ fst r ++ fst a
     ++ match snd a with
        | Go (c', _) => warn_mismatch ext c' (snd (snd r))
        | Exit _ => []
        end,
     snd a).
Proof.
  unfold finalize_image_format. cbv zeta.
  destruct (image_extension png_supported c) as [m1 ext]. cbn [fst snd].
  destruct (resolve_format png_supported ext c name) as [m2 [c1 n1]].
  cbn [fst snd].
  destruct (check_artery_font artery_supported c1 result) as [m3 [[c2 r2]|code]];
    cbn [fst snd]; rewrite ?app_nil_r; reflexivity.
Qed.

Lemma resolve_format_specified ext c name :
  imageFormat (fst (snd (resolve_format png_supported ext c name))) <> UNSPECIFIED
  /\ (imageFormat c <> UNSPECIFIED ->
      fst (snd (resolve_format png_supported ext c name)) = c).
Proof.
  unfold resolve_format, default_format.
  destruct (ImageFormat_eqb (imageFormat c) UNSPECIFIED) eqn:U.
  - apply ImageFormat_eqb_eq in U. split; [|congruence].
    destruct png_supported;
      destruct (negb (is_set (arteryFontFilename _)));
      destruct (negb (ImageFormat_eqb ext UNSPECIFIED)) eqn:E;
      try destruct (is_set (imageFilename _));
      cbn [fst snd imageFormat set_imageFormat]; try discriminate.
    all: apply negb_true_iff in E; intros H; apply ImageFormat_eqb_eq in H;
      congruence.
  - cbn [fst snd]. split; [|reflexivity].
    intros H. apply ImageFormat_eqb_eq in H. congruence.
Qed.

Lemma resolve_format_frame ext c name :
  same_but_format c (fst (snd (resolve_format png_supported ext c name)))
  /\ arteryFontFilename (fst (snd (resolve_format png_supported ext c name)))
     = arteryFontFilename c.
Proof.
  unfold resolve_format, default_format, same_but_format.
  destruct c. cbn.
  repeat match goal with
         | |- context [if ?b then _ else _] => destruct b
         end; split; reflexivity.
Qed.

Lemma same_but_format_drop c c1 :
  same_but_format c c1 -> same_but_format c (set_arteryFontFilename None c1).
Proof.
  unfold same_but_format. intros <-. destruct c1; reflexivity.
Qed.

Lemma check_artery_font_cases c result :
  let a := check_artery_font artery_supported c result in
  (snd a = Go (c, result) /\ fst a = []
   /\ (artery_supported = true -> is_set (arteryFontFilename c) = true ->
       artery_compatible (imageFormat c) = true))
  \/ (fst a = [ErrArteryFontFormat]
      /\ is_set (arteryFontFilename c) = true
      /\ artery_compatible (imageFormat c) = false
      /\ ((snd a = Exit 1 /\ any_output (set_arteryFontFilename None c) = false)
          \/ (snd a = Go (set_arteryFontFilename None c, 1)
              /\ any_output (set_arteryFontFilename None c) = true))).
Proof.
  cbv zeta. unfold check_artery_font.
  destruct artery_supported; cbn [andb].
  - destruct (is_set (arteryFontFilename c)) eqn:A; cbn [andb].
    + destruct (artery_compatible (imageFormat c)) eqn:K; cbn [negb].
      * left. repeat split; auto.
      * right. destruct (negb (any_output _)) eqn:O; cbn [fst snd];
          repeat split; auto.
        -- left. split; [reflexivity|]. apply negb_true_iff in O. exact O.
        -- right. split; [reflexivity|]. apply negb_false_iff in O. exact O.
    + left. repeat split. discriminate.
  - left. repeat split. discriminate.
Qed.

End ImageFormatFacts.

(** X4: when the image-format lines let [main] go on, the image format is
    no longer unspecified, a format given with [-format] is kept, and no
    field of the configuration other than [imageFormat] and
    [arteryFontFilename] has changed. *)
Theorem image_format_resolved (png_supported artery_supported : bool)
  (c : Configuration) (name : option string) (result : Z)
  (msgs : list setup_message) (c' : Configuration) (r' : Z) :
  finalize_image_format png_supported artery_supported c name result
  = (msgs, Go (c', r')) ->
  imageFormat c' <> UNSPECIFIED
  /\ (imageFormat c <> UNSPECIFIED -> imageFormat c' = imageFormat c)
  /\ same_but_format c c'.
Proof.
  rewrite finalize_image_format_unfold. cbv zeta.
  set (ext := snd (image_extension png_supported c)).
  destruct (resolve_format_specified png_supported ext c name) as [S K].
  destruct (resolve_format_frame png_supported ext c name) as [F _].
  set (c1 := fst (snd (resolve_format png_supported ext c name))) in *.
  intros H. injection H as _ H.
  destruct (check_artery_font_cases artery_supported c1 result)
    as [(G & _) | (_ & _ & _ & [[G _] | [G _]])];
    cbv zeta in G; rewrite G in H; try discriminate; injection H as <- _.
  - split; [exact S|]. split; [intros U; rewrite (K U); reflexivity | exact F].
  - split; [exact S|]. split; [intros U; rewrite (K U); reflexivity|].
    apply same_but_format_drop. exact F.
Qed.

Lemma image_format_resolved_witness :
  exists c',
    finalize_image_format true true (cfg MoreSamples.bmp_only) None 0 = ([], Go (c', 0))
    /\ imageFormat c' = BMP
    /\ imageFormat (cfg MoreSamples.bmp_only) = UNSPECIFIED
    /\ same_but_format (cfg MoreSamples.bmp_only) c'.
Proof.
  assert (R : exists c',
             finalize_image_format true true (cfg MoreSamples.bmp_only) None 0
             = ([], Go (c', 0)))
    by (eexists; vm_compute; reflexivity).
  destruct R as (c' & R).
  destruct (image_format_resolved _ _ _ _ _ _ _ _ R) as (_ & _ & F).
  exists c'. split; [exact R|].
  split; [|split; [reflexivity | exact F]].
  vm_compute in R. injection R as <-. reflexivity.
Defined.

(** X5: in a build with Artery Font support, an Artery Font output that
    survives the image-format lines has an image format it can embed (png,
    bin or binfloat) and leaves [result] alone; one that cannot is dropped
    with an error and [result] 1, and [main] returns 1 at once when it was
    the only output. *)
Theorem artery_font_needs_compatible_format (png_supported : bool)
  (c : Configuration) (name : option string) (result : Z) :
  is_set (arteryFontFilename c) = true ->
  let run := finalize_image_format png_supported true c name result in
  match snd run with
  | Go (c', r') =>
      (arteryFontFilename c' = arteryFontFilename c
       /\ artery_compatible (imageFormat c') = true
       /\ r' = result)
      \/ (arteryFontFilename c' = None
          /\ r' = 1
          /\ In ErrArteryFontFormat (fst run)
          /\ any_output c' = true)
  | Exit code =>
      code = 1
      /\ In ErrArteryFontFormat (fst run)
      /\ imageFilename c = None /\ jsonFilename c = None
      /\ csvFilename c = None /\ shadronPreviewFilename c = None
  end.
Proof.
  intros A. cbv zeta. rewrite finalize_image_format_unfold. cbv zeta.
  set (ext := snd (image_extension png_supported c)).
  destruct (resolve_format_frame png_supported ext c name) as [F Fa].
  set (c1 := fst (snd (resolve_format png_supported ext c name))) in *.
  cbn [fst snd].
  destruct (check_artery_font_cases true c1 result)
    as [(G & _ & K) | (M & _ & _ & [[G O] | [G O]])];
    cbv zeta in *; rewrite G.
  - left. split; [exact Fa|]. split; [|reflexivity].
    apply K; [reflexivity | rewrite Fa; exact A].
  - rewrite M. split; [reflexivity|]. split.
    + rewrite !in_app_iff. right. right. left. left. reflexivity.
    + unfold same_but_format in F. rewrite <- F.
      unfold any_output in O.
      cbn [arteryFontFilename imageFilename jsonFilename csvFilename
           shadronPreviewFilename set_arteryFontFilename set_imageFormat is_set
           orb] in *.
      destruct (imageFilename c1), (jsonFilename c1), (csvFilename c1),
        (shadronPreviewFilename c1); try discriminate. repeat split.
  - right. split; [reflexivity|]. split; [reflexivity|]. split; [|exact O].
    rewrite M, !in_app_iff. right. right. left. left. reflexivity.
Qed.

Lemma artery_font_needs_compatible_format_witness :
  finalize_image_format true true (cfg MoreSamples.arfont_tiff)
    (Some "-format"%string) 0
  = ([ErrArteryFontFormat], Exit 1)
  /\ In ErrArteryFontFormat
       (fst (finalize_image_format true true (cfg MoreSamples.arfont_tiff)
               (Some "-format"%string) 0)).
Proof.
  assert (R : finalize_image_format true true (cfg MoreSamples.arfont_tiff)
                (Some "-format"%string) 0
              = ([ErrArteryFontFormat], Exit 1))
    by (vm_compute; reflexivity).
  split; [exact R|].
  pose proof (artery_font_needs_compatible_format true
                (cfg MoreSamples.arfont_tiff) (Some "-format"%string) 0 eq_refl) as H.
  cbv zeta in H.
  destruct (snd (finalize_image_format true true (cfg MoreSamples.arfont_tiff)
                   (Some "-format"%string) 0)) as [[c' r']|code] eqn:S.
  - rewrite R in S. discriminate.
  - exact (proj1 (proj2 H)).
Defined.

Section InferredFormat.

Variables png_supported artery_supported : bool.

Lemma image_extension_quiet c :
  snd (image_extension png_supported c) <> UNSPECIFIED ->
  fst (image_extension png_supported c) = [].
Proof.
  unfold image_extension. destruct (imageFilename c) as [f|]; [|reflexivity].
  repeat match goal with
         | |- context [if ?b then _ else _] => destruct b
         end; cbn [fst snd]; congruence.
Qed.

Lemma set_imageFormat_twice a b c :
  set_imageFormat a (set_imageFormat b c) = set_imageFormat a c.
Proof. destruct c; reflexivity. Qed.

End InferredFormat.

(** X6: without [-format] and without an Artery Font output, an
    [-imageout] name with a known extension decides the image format, and
    nothing is printed: no "cannot infer" warning and no mismatch warning. *)
Theorem inferred_format_is_silent (png_supported artery_supported : bool)
  (c : Configuration) (name : option string) (result : Z) :
  imageFormat c = UNSPECIFIED ->
  arteryFontFilename c = None ->
  snd (image_extension png_supported c) <> UNSPECIFIED ->
  finalize_image_format png_supported artery_supported c name result
  = ([], Go (set_imageFormat (snd (image_extension png_supported c)) c, result)).
Proof.
  intros U A E.
  pose proof (image_extension_quiet png_supported c E) as Q.
  pose proof (image_extension_range png_supported c) as R.
  rewrite finalize_image_format_unfold. cbv zeta. rewrite Q.
  set (ext := snd (image_extension png_supported c)) in *.
  assert (N : ImageFormat_eqb ext UNSPECIFIED = false).
  { destruct (ImageFormat_eqb ext UNSPECIFIED) eqn:X; [|reflexivity].
    apply ImageFormat_eqb_eq in X. contradiction. }
  assert (F : resolve_format png_supported ext c name
              = ([], (set_imageFormat ext c,
                      Some (snd (default_format png_supported))))).
  { unfold resolve_format. rewrite U. cbn [ImageFormat_eqb].
    destruct (default_format png_supported) as [fmt nm].
    cbn [arteryFontFilename set_imageFormat snd]. rewrite A. cbn [is_set negb].
    rewrite N. cbn [negb]. rewrite set_imageFormat_twice. reflexivity. }
  rewrite F. cbn [fst snd app].
  unfold check_artery_font.
  cbn [arteryFontFilename set_imageFormat]. rewrite A.
  cbn [is_set andb]. rewrite andb_false_r. cbn [andb fst snd app].
  unfold warn_mismatch. cbn [imageFormat set_imageFormat].
  rewrite (mismatch_same ext R), andb_false_r. reflexivity.
Qed.

Lemma inferred_format_is_silent_witness :
  finalize_image_format true true (cfg MoreSamples.bmp_only) None 0
  = ([], Go (set_imageFormat BMP (cfg MoreSamples.bmp_only), 0)).
Proof.
  exact (inferred_format_is_silent true true (cfg MoreSamples.bmp_only) None 0
           eq_refl eq_refl ltac:(vm_compute; discriminate)).
Defined.

(** X7: with an Artery Font output and no [-format], a build with PNG
    support always settles on PNG, whatever the extension of [-imageout];
    the mismatch warning is printed exactly when that extension is a known
    one other than png. *)
Theorem artery_font_defaults_to_png (c : Configuration) (name : option string)
  (result : Z) :
  imageFormat c = UNSPECIFIED ->
  is_set (arteryFontFilename c) = true ->
  let run := finalize_image_format true true c name result in
  let ext := snd (image_extension true c) in
  snd run = Go (set_imageFormat PNG c, result)
  /\ fst run = (if negb (ImageFormat_eqb ext UNSPECIFIED)
                   && negb (ImageFormat_eqb ext PNG)
                then [WarnExtensionMismatch (Some "png"%string)]
                else []).
Proof.
  intros U A. cbv zeta.
  rewrite finalize_image_format_unfold. cbv zeta.
  set (ext := snd (image_extension true c)) in *.
  assert (Q : fst (image_extension true c) = []).
  { unfold image_extension. destruct (imageFilename c) as [f|]; [|reflexivity].
    repeat match goal with
           | |- context [if ?b then _ else _] => destruct b
           end; reflexivity. }
  assert (F : resolve_format true ext c name
              = ([], (set_imageFormat PNG c, Some "png"%string))).
  { unfold resolve_format. rewrite U. cbn [ImageFormat_eqb default_format].
    cbn [arteryFontFilename set_imageFormat]. rewrite A. reflexivity. }
  rewrite Q, F. cbn [fst snd app].
  unfold check_artery_font. cbn [arteryFontFilename imageFormat set_imageFormat].
  rewrite A. cbn [andb artery_compatible negb fst snd app].
  split; [reflexivity|].
  unfold warn_mismatch, mismatch. cbn [imageFormat set_imageFormat]. reflexivity.
Qed.

Lemma artery_font_defaults_to_png_witness :
  snd (finalize_image_format true true (cfg MoreSamples.arfont_bmp) None 0)
  = Go (set_imageFormat PNG (cfg MoreSamples.arfont_bmp), 0)
  /\ fst (finalize_image_format true true (cfg MoreSamples.arfont_bmp) None 0)
     = [WarnExtensionMismatch (Some "png"%string)].
Proof.
  exact (artery_font_defaults_to_png (cfg MoreSamples.arfont_bmp) None 0
           eq_refl eq_refl).
Defined.

(* ================================================================= *)
(** ** Font inputs *)

Section FontInputFacts.

Variable same_bytes : FontInput -> FontInput -> bool.

Lemma inherit_font next it :
  is_set (fontFilename next) = true -> is_set (fontFilename (inherit next it)) = true.
Proof.
  intros N. unfold inherit.
  destruct (is_set (fontFilename it)) eqn:I; cbn [negb andb]; rewrite ?N;
    repeat match goal with
           | |- context [if ?b then _ else _] => destruct b
           end; cbn [fontFilename]; assumption.
Qed.

Lemma inherit_keeps_own next it : keeps_own it (inherit next it).
Proof.
  unfold inherit, keeps_own.
  destruct (is_set (fontFilename it)) eqn:I; cbn [negb andb];
    repeat match goal with
           | |- context [if ?b then _ else _] => destruct b
           end; cbn [fontFilename fontName variableFont];
    repeat split; try reflexivity; discriminate.
Qed.

Lemma inherit_backwards_fonts inputs : forall next,
  is_set (fontFilename next) = true ->
  Forall (fun i => is_set (fontFilename i) = true) (inherit_backwards next inputs).
Proof.
  induction inputs as [|it rest IH]; intros next N; cbn [inherit_backwards].
  - constructor.
  - constructor; [apply inherit_font; exact N|].
    apply IH, inherit_font, N.
Qed.

Lemma inherit_backwards_keeps inputs : forall next,
  Forall2 keeps_own inputs (inherit_backwards next inputs).
Proof.
  induction inputs as [|it rest IH]; intros next; cbn [inherit_backwards].
  - constructor.
  - constructor; [apply inherit_keeps_own | apply IH].
Qed.

Lemma Forall2_rev {A B} (R : A -> B -> Prop) l l' :
  Forall2 R l l' -> Forall2 R (rev l) (rev l').
Proof.
  induction 1 as [|a b l l' Hab _ IH]; cbn [rev]; [constructor|].
  apply Forall2_app; [exact IH | repeat constructor; exact Hab].
Qed.

Lemma inherit_backwards_length inputs : forall next,
  List.length (inherit_backwards next inputs) = List.length inputs.
Proof.
  induction inputs as [|it rest IH]; intros next; cbn [inherit_backwards List.length];
    [reflexivity | rewrite IH; reflexivity].
Qed.

(** The list after the loop, and whether [fontInput] is appended. *)
Lemma finalize_font_inputs_shape fontInputs fontInput :
  let inherited := rev (inherit_backwards fontInput (rev fontInputs)) in
  finalize_font_inputs same_bytes fontInputs fontInput = inherited ++ [fontInput]
  \/ (finalize_font_inputs same_bytes fontInputs fontInput = inherited
      /\ fontInputs <> []).
Proof.
  cbv zeta. unfold finalize_font_inputs. cbv zeta.
  rewrite rev_involutive.
  destruct (rev fontInputs) as [|it rest] eqn:E; cbn [inherit_backwards].
  - left. reflexivity.
  - destruct (negb (same_bytes (inherit fontInput it) fontInput));
      [left; reflexivity | right].
    split; [reflexivity|]. intros ->. discriminate.
Qed.

End FontInputFacts.

(** X8: once the last font input names a font file (which [main] demands
    before this point), every font input ends up with a font file and there
    is at least one input; the inputs pushed by [-and] stay in order, and
    each keeps its own font file if it had one, its font name and its
    variable-font flag. *)
Theorem every_font_input_gets_a_font
  (same_bytes : FontInput -> FontInput -> bool)
  (fontInputs : list FontInput) (fontInput : FontInput) :
  is_set (fontFilename fontInput) = true ->
  let final := finalize_font_inputs same_bytes fontInputs fontInput in
  final <> []
  /\ Forall (fun i => is_set (fontFilename i) = true) final
  /\ Forall2 keeps_own fontInputs (firstn (List.length fontInputs) final)
  /\ (List.length final = List.length fontInputs
      \/ final = firstn (List.length fontInputs) final ++ [fontInput]).
Proof.
  intros F final.
  set (inherited := rev (inherit_backwards fontInput (rev fontInputs))).
  assert (L : List.length inherited = List.length fontInputs)
    by (unfold inherited; rewrite length_rev, inherit_backwards_length, length_rev;
        reflexivity).
  assert (A : Forall (fun i => is_set (fontFilename i) = true) inherited)
    by (unfold inherited; apply Forall_rev, inherit_backwards_fonts, F).
  assert (K : Forall2 keeps_own fontInputs inherited).
  { unfold inherited. rewrite <- (rev_involutive fontInputs) at 1.
    apply Forall2_rev, inherit_backwards_keeps. }
  destruct (finalize_font_inputs_shape same_bytes fontInputs fontInput)
    as [E | [E N]]; fold inherited in E; unfold final; rewrite E.
  - split; [intros H; apply app_eq_nil in H; destruct H; discriminate|].
    split; [apply Forall_app; split; [exact A | repeat constructor; exact F]|].
    rewrite <- L, firstn_app, Nat.sub_diag, firstn_all. cbn [firstn].
    rewrite app_nil_r. split; [exact K|]. right. reflexivity.
  - split; [intros H; rewrite H in L; destruct fontInputs; [congruence|discriminate]|].
    split; [exact A|].
    rewrite <- L, firstn_all. split; [exact K|]. left. reflexivity.
Qed.

Lemma every_font_input_gets_a_font_witness :
  map fontFilename
    (finalize_font_inputs MoreSamples.never_same [MoreSamples.fontless_input]
       MoreSamples.last_input)
  = [Some "b.ttf"%string; Some "b.ttf"%string]
  /\ Forall (fun i => is_set (fontFilename i) = true)
       (finalize_font_inputs MoreSamples.never_same [MoreSamples.fontless_input]
          MoreSamples.last_input).
Proof.
  split; [reflexivity|].
  exact (proj1 (proj2 (every_font_input_gets_a_font MoreSamples.never_same
                         [MoreSamples.fontless_input] MoreSamples.last_input
                         eq_refl))).
Defined.

(* ================================================================= *)
(** ** What the fix-up guarantees *)

Section FixupShape.

Variable hardware_concurrency : Z.

Lemma fixup_shape_refl l : fixup_shape l l.
Proof.
  unfold fixup_shape.
  destruct l as [c fw fh fcw fch ps mn ru rv ip op ipu opu style asc csc ex].
  destruct c as [ty fmt yd w h em pr ang ml pax pay g ecf exc seed ga pg k tc af imf
                   jf cf sf st].
  destruct ga as [[ov [m d r1 r2]] sp].
  cbn. repeat eexists.
Qed.

(** Proves that a step keeps the shape: the step is run on the explicit
    record the shape gives. *)
Ltac keep_shape step :=
  let H := fresh in
  intros H; unfold fixup_shape in *;
  destruct H as (miter & kern & threads & check & minimum & units & range
                 & constraint & ->);
  unfold step; cbv zeta;
  repeat match goal with
         | |- context [match ?b with _ => _ end] => destruct b
         end;
  cbn; repeat eexists.

Lemma shape_atlasSizeConstraint l x :
  fixup_shape l x -> fixup_shape l (fixup_atlasSizeConstraint x).
Proof. keep_shape fixup_atlasSizeConstraint. Qed.

Lemma shape_miterLimit l x : fixup_shape l x -> fixup_shape l (fixup_miterLimit x).
Proof. keep_shape fixup_miterLimit. Qed.

Lemma shape_minEmSize l x : fixup_shape l x -> fixup_shape l (fixup_minEmSize x).
Proof. keep_shape fixup_minEmSize. Qed.

Lemma shape_default l x :
  fixup_shape l x -> fixup_shape l (set_minEmSize DEFAULT_SIZE x).
Proof. keep_shape set_minEmSize. Qed.

Lemma shape_range l x : fixup_shape l x -> fixup_shape l (fixup_range x).
Proof. keep_shape fixup_range. Qed.

Lemma shape_kerning l x : fixup_shape l x -> fixup_shape l (fixup_kerning x).
Proof. keep_shape fixup_kerning. Qed.

Lemma shape_threadCount l x :
  fixup_shape l x -> fixup_shape l (fixup_threadCount hardware_concurrency x).
Proof. keep_shape fixup_threadCount. Qed.

Lemma shape_scanline l x :
  fixup_shape l x ->
  fixup_shape l
    (set_cfg
       (set_distanceCheckMode ErrorCorrectionConfig.DO_NOT_CHECK_DISTANCE (cfg x)) x).
Proof. keep_shape set_cfg. Qed.

Lemma shape_defaulted l : fixup_shape l (defaulted l).
Proof.
  unfold defaulted, before_default.
  assert (B : fixup_shape l
                (fixup_minEmSize (fixup_miterLimit (fixup_atlasSizeConstraint l))))
    by (apply shape_minEmSize, shape_miterLimit, shape_atlasSizeConstraint,
          fixup_shape_refl).
  destruct (nothing_sized _); [apply shape_default|]; exact B.
Qed.

Lemma shape_fixed_up l : fixup_shape l (fixed_up hardware_concurrency l).
Proof.
  rewrite fixed_up_eq. cbv zeta.
  assert (A : fixup_shape l (after_default hardware_concurrency (defaulted l)))
    by (unfold after_default;
        apply shape_threadCount, shape_kerning, shape_range, shape_defaulted).
  destruct (scanlinePass _); [apply shape_scanline|]; exact A.
Qed.

End FixupShape.

(** X9: the fix-up assigns at most eight things: the miter limit, the
    kerning flag, the thread count and the distance check mode in the
    configuration, and the minimum scale, the range units, the range and
    the atlas size constraint among [main]'s locals.  Everything else the
    command line chose (image type and format, seed and colouring strategy,
    file names, fixed sizes, spacing, paddings, packing style, ...) is what
    it was. *)
Theorem fixup_assigns_only (hardware_concurrency : Z) (l : Locals) :
  exists miter kern threads check minimum units range constraint,
    fixed_up hardware_concurrency l
    = let c := cfg l in
      let ga := generatorAttributes c in
      let ec := errorCorrection (config ga) in
      mkLocals
        (mkConfiguration (imageType c) (imageFormat c) (yDirection c) (width c)
           (height c) (emSize c) (pxRange c) (angleThreshold c) miter
           (pxAlignOriginX c) (pxAlignOriginY c) (grid c) (edgeColoring c)
           (expensiveColoring c) (coloringSeed c)
           (mkGenAttrs
              (mkGenConfig (overlapSupport (config ga))
                 (ErrorCorrectionConfig.mk (ErrorCorrectionConfig.mode ec) check
                    (ErrorCorrectionConfig.minDeviationRatio ec)
                    (ErrorCorrectionConfig.minImproveRatio ec)))
              (scanlinePass ga))
           (preprocessGeometry c) kern threads (arteryFontFilename c)
           (imageFilename c) (jsonFilename c) (csvFilename c)
           (shadronPreviewFilename c) (shadronPreviewText c))
        (fixedWidth l) (fixedHeight l) (fixedCellWidth l) (fixedCellHeight l)
        (packingSpacing l) minimum units range (innerPadding l) (outerPadding l)
        (innerPaddingUnits l) (outerPaddingUnits l) (packingStyle l) constraint
        (cellSizeConstraint l) (explicitErrorCorrectionMode l).
Proof. exact (shape_fixed_up hardware_concurrency l). Qed.

(** X10: whatever the configured thread count and whatever the hardware
    reports (even 0), the thread count after the fix-up is at least 1, and so
    is the count every colouring workload and every bitmap generation of the
    run is started with. *)
Theorem thread_count_is_positive
  (tight_pack : PackerSettings -> Z -> PackResult)
  (grid_pack : GridSettings -> PackerSettings -> Z -> PackResult)
  (saveImage : ImageFormat -> string -> YDirection -> bool)
  (exportArteryFont : string -> ArteryFontExportProperties -> bool)
  (exportCSV : string -> bool)
  (exportJSON : string -> JsonAtlasMetrics -> bool)
  (generateShadronPreview : string -> string -> bool)
  (hardware_concurrency : Z) (l : Locals) (glyphCount : nat) (any : bool)
  (result : Z) :
  1 <= threadCount (cfg (fixed_up hardware_concurrency l))
  /\ (forall e t,
         In e (log (pack_and_generate tight_pack grid_pack saveImage
                      exportArteryFont exportCSV exportJSON generateShadronPreview
                      (fixed_up hardware_concurrency l) glyphCount any result)) ->
         threads_of e = Some t -> 1 <= t).
Proof.
  assert (P : 1 <= threadCount (cfg (fixed_up hardware_concurrency l))).
  { destruct (fixed_up_outside_cfg hardware_concurrency l)
      as (_ & _ & _ & _ & _ & T & _).
    rewrite T, after_default_threadCount, defaulted_threadCount.
    destruct (threadCount (cfg l) <=? 0) eqn:C; [lia|].
    apply Z.leb_gt in C. lia. }
  split; [exact P|].
  intros e t He Ht.
  rewrite (pipeline_threads _ _ _ _ _ _ _ _ _ _ _ e t He Ht). exact P.
Qed.

(** X11: the fix-up never leaves an empty distance range.  For a type
    other than the two masks, a range whose bounds are equal (as when no
    range option was given) becomes the default of 2 pixels, bounds -1 and
    1, and any other range is kept with its units. *)
Theorem range_is_never_empty (hardware_concurrency : Z) (l : Locals) :
  let l' := fixed_up hardware_concurrency l in
  deq (lower (rangeValue l')) (upper (rangeValue l')) = false
  /\ (is_mask (imageType (cfg l)) = false ->
      if deq (lower (rangeValue l)) (upper (rangeValue l))
      then rangeUnits l' = PIXELS /\ rangeValue l' = mkRange (-1)%float 1%float
      else rangeUnits l' = rangeUnits l /\ rangeValue l' = rangeValue l).
Proof.
  cbv zeta.
  destruct (fixed_up_outside_cfg hardware_concurrency l) as (U & V & _).
  destruct (after_default_range hardware_concurrency (defaulted l)) as [U' V'].
  destruct (defaulted_range l) as [Ud Vd].
  rewrite U, V, U', V'. unfold fixup_range.
  rewrite defaulted_imageType, Vd.
  destruct (is_mask (imageType (cfg l))).
  - split; [reflexivity | discriminate].
  - destruct (deq (lower (rangeValue l)) (upper (rangeValue l))) eqn:D.
    + split; [reflexivity|]. intros _. split; reflexivity.
    + rewrite Ud, Vd. split; [exact D|]. intros _. split; reflexivity.
Qed.

(** X12: after the fix-up something fixes the size of the glyphs: a fixed
    atlas size, a fixed grid cell size, or a positive minimum scale. *)
Theorem something_is_sized (hardware_concurrency : Z) (l : Locals) :
  let l' := fixed_up hardware_concurrency l in
  atlas_size_given l' || cell_size_given l' || min_scale_given l' = true
  /\ nothing_sized l' = false.
Proof.
  cbv zeta.
  assert (N : nothing_sized (fixed_up hardware_concurrency l) = false).
  { assert (D : nothing_sized (defaulted l) = false).
    { unfold defaulted.
      destruct (nothing_sized (before_default l)) eqn:B; [|exact B].
      unfold nothing_sized in *.
      cbn [fixedWidth fixedHeight fixedCellWidth fixedCellHeight minEmSize
           set_minEmSize].
      apply andb_false_iff. right. reflexivity. }
    assert (E : nothing_sized (fixed_up hardware_concurrency l)
                = nothing_sized (defaulted l)).
    { unfold nothing_sized.
      rewrite fixed_up_minEmSize.
      assert (F : fixedWidth (fixed_up hardware_concurrency l)
                  = fixedWidth (defaulted l)
                  /\ fixedHeight (fixed_up hardware_concurrency l)
                     = fixedHeight (defaulted l)
                  /\ fixedCellWidth (fixed_up hardware_concurrency l)
                     = fixedCellWidth (defaulted l)
                  /\ fixedCellHeight (fixed_up hardware_concurrency l)
                     = fixedCellHeight (defaulted l)).
      { rewrite fixed_up_eq. cbv zeta.
        unfold after_default, fixup_threadCount, fixup_kerning, fixup_range.
        split_branches; repeat split; reflexivity. }
      destruct F as (-> & -> & -> & ->). reflexivity. }
    rewrite E. exact D. }
  split; [|exact N].
  unfold nothing_sized in N.
  unfold atlas_size_given, cell_size_given, min_scale_given.
  destruct ((fixedWidth _ >? 0) && (fixedHeight _ >? 0)),
    ((fixedCellWidth _ >? 0) && (fixedCellHeight _ >? 0)),
    (dgt (minEmSize _) 0%float); try reflexivity; discriminate.
Qed.

Section ConstraintFrame.

Variable hardware_concurrency : Z.

Ltac one_step f := intros; unfold f; split_branches; reflexivity.

Lemma fixup_miterLimit_constraint x :
  atlasSizeConstraint (fixup_miterLimit x) = atlasSizeConstraint x.
Proof. one_step fixup_miterLimit. Qed.

Lemma fixup_minEmSize_constraint x :
  atlasSizeConstraint (fixup_minEmSize x) = atlasSizeConstraint x.
Proof. one_step fixup_minEmSize. Qed.

Lemma fixup_range_constraint x :
  atlasSizeConstraint (fixup_range x) = atlasSizeConstraint x.
Proof. one_step fixup_range. Qed.

Lemma fixup_kerning_constraint x :
  atlasSizeConstraint (fixup_kerning x) = atlasSizeConstraint x.
Proof. one_step fixup_kerning. Qed.

Lemma fixup_threadCount_constraint x :
  atlasSizeConstraint (fixup_threadCount hardware_concurrency x)
  = atlasSizeConstraint x.
Proof. one_step fixup_threadCount. Qed.

(** Only the first statement of the fix-up assigns the constraint. *)
Lemma fixed_up_constraint l :
  atlasSizeConstraint (fixed_up hardware_concurrency l)
  = atlasSizeConstraint (fixup_atlasSizeConstraint l).
Proof.
  rewrite fixed_up_eq. cbv zeta.
  assert (A : atlasSizeConstraint (after_default hardware_concurrency (defaulted l))
              = atlasSizeConstraint (fixup_atlasSizeConstraint l)).
  { unfold after_default.
    rewrite fixup_threadCount_constraint, fixup_kerning_constraint,
      fixup_range_constraint.
    unfold defaulted, before_default.
    destruct (nothing_sized _); cbn [atlasSizeConstraint set_minEmSize];
      rewrite fixup_minEmSize_constraint, fixup_miterLimit_constraint;
      reflexivity. }
  destruct (scanlinePass _); [|exact A].
  rewrite <- A. reflexivity.
Qed.

End ConstraintFrame.

(** X13: the tight packer is never set up without dimensions and without a
    size constraint: when no constraint option was given the fix-up selects
    "square with side divisible by 4", and a constraint that was given is
    kept. *)
Theorem tight_packing_is_constrained (hardware_concurrency : Z) (l : Locals) :
  packingStyle l = TIGHT ->
  let l' := fixed_up hardware_concurrency l in
  packingStyle l' = TIGHT
  /\ atlasSizeConstraint l'
     = match atlasSizeConstraint l with
       | NONE => MULTIPLE_OF_FOUR_SQUARE
       | given => given
       end
  /\ ps_dimensions (packer_settings l') <> setDimensionsConstraint NONE.
Proof.
  intros T. cbv zeta.
  assert (S : packingStyle (fixed_up hardware_concurrency l) = TIGHT).
  { destruct (shape_fixed_up hardware_concurrency l)
      as (? & ? & ? & ? & ? & ? & ? & ? & E).
    rewrite E. exact T. }
  assert (A : atlasSizeConstraint (fixed_up hardware_concurrency l)
              = match atlasSizeConstraint l with
                | NONE => MULTIPLE_OF_FOUR_SQUARE
                | given => given
                end).
  { rewrite fixed_up_constraint. unfold fixup_atlasSizeConstraint. rewrite T.
    destruct (atlasSizeConstraint l) eqn:K; cbn [atlasSizeConstraint
      set_atlasSizeConstraint]; rewrite ?K; reflexivity. }
  split; [exact S|]. split; [exact A|].
  unfold packer_settings. cbn [ps_dimensions].
  destruct (fixedDimensions _); [discriminate|].
  rewrite A. destruct (atlasSizeConstraint l); discriminate.
Qed.

Lemma tight_packing_is_constrained_witness :
  atlasSizeConstraint (fixed_up 8 Samples.image_only) = MULTIPLE_OF_FOUR_SQUARE
  /\ atlasSizeConstraint Samples.image_only = NONE.
Proof.
  split; [|reflexivity].
  exact (proj1 (proj2 (tight_packing_is_constrained 8 Samples.image_only eq_refl))).
Defined.

(* ================================================================= *)
(** ** Options and what the packer is given *)

Section OptionFacts.

Variable hardware_concurrency : Z.

Lemma fixed_up_fixed_dimensions l :
  fixedWidth (fixed_up hardware_concurrency l) = fixedWidth l
  /\ fixedHeight (fixed_up hardware_concurrency l) = fixedHeight l.
Proof.
  destruct (shape_fixed_up hardware_concurrency l)
    as (? & ? & ? & ? & ? & ? & ? & ? & E).
  rewrite E. split; reflexivity.
Qed.

Lemma to_int_wraps s : INT_MAX < s < 2 ^ 32 -> to_int s = s - 2 ^ 32.
Proof.
  unfold to_int, INT_MAX. intros H.
  replace (s + 2 ^ 31) with ((s - 2 ^ 31) + 1 * 2 ^ 32) by lia.
  rewrite Z.mod_add by lia. rewrite Z.mod_small by lia. lia.
Qed.

End OptionFacts.

(** X14: of [-dimensions] and the constraint options the last one given
    wins.  Dimensions given after a constraint option are handed to the
    packer as fixed dimensions; a constraint option given after
    [-dimensions] makes the packer search under that constraint instead.
    (The dimensions are positive and fit an [int].) *)
Theorem last_size_option_wins (hardware_concurrency : Z) (l : Locals)
  (o : constraint_option) (w h : Z) :
  0 < w <= INT_MAX -> 0 < h <= INT_MAX ->
  (exists l1,
      arg_dimensions w h (arg_constraint o l) = Some l1
      /\ ps_dimensions (packer_settings (fixed_up hardware_concurrency l1))
         = setDimensions w h)
  /\ (exists l2,
         arg_dimensions w h l = Some l2
         /\ ps_dimensions
              (packer_settings (fixed_up hardware_concurrency (arg_constraint o l2)))
            = setDimensionsConstraint (constraint_of o)).
Proof.
  intros Hw Hh.
  assert (Ew : (w =? 0) = false) by (apply Z.eqb_neq; lia).
  assert (Eh : (h =? 0) = false) by (apply Z.eqb_neq; lia).
  assert (Tw : to_int w = w) by (apply Wrap.to_int_small; lia).
  assert (Th : to_int h = h) by (apply Wrap.to_int_small; lia).
  split.
  - eexists. split; [unfold arg_dimensions; rewrite Ew, Eh; reflexivity|].
    unfold packer_settings, fixedDimensions. cbn [ps_dimensions].
    destruct (fixed_up_fixed_dimensions hardware_concurrency
                (set_fixedDimensions (to_int w) (to_int h) (arg_constraint o l)))
      as [-> ->].
    cbn [fixedWidth fixedHeight set_fixedDimensions]. rewrite Tw, Th.
    replace (w >=? 0) with true by (symmetry; apply Z.geb_le; lia).
    replace (h >=? 0) with true by (symmetry; apply Z.geb_le; lia).
    reflexivity.
  - eexists. split; [unfold arg_dimensions; rewrite Ew, Eh; reflexivity|].
    unfold packer_settings, fixedDimensions. cbn [ps_dimensions].
    set (l2 := set_fixedDimensions (to_int w) (to_int h) l).
    destruct (fixed_up_fixed_dimensions hardware_concurrency (arg_constraint o l2))
      as [-> ->].
    rewrite fixed_up_constraint.
    unfold arg_constraint.
    cbn [fixedWidth fixedHeight set_fixedDimensions Z.geb Z.compare andb].
    unfold fixup_atlasSizeConstraint.
    cbn [packingStyle atlasSizeConstraint set_fixedDimensions
         set_atlasSizeConstraint].
    destruct (packingStyle l2), o; reflexivity.
Qed.

Lemma last_size_option_wins_witness :
  ps_dimensions
    (packer_settings
       (fixed_up 8 (Samples.accepted
                      (arg_dimensions 256 128 (arg_constraint pots Samples.image_only)))))
  = setDimensions 256 128
  /\ ps_dimensions
       (packer_settings
          (fixed_up 8 (arg_constraint pots
                         (Samples.accepted
                            (arg_dimensions 256 128 Samples.image_only)))))
     = setDimensionsConstraint POWER_OF_TWO_SQUARE.
Proof.
  destruct (last_size_option_wins 8 Samples.image_only pots 256 128
              ltac:(unfold INT_MAX; lia) ltac:(unfold INT_MAX; lia))
    as [(l1 & E1 & P1) (l2 & E2 & P2)].
  rewrite E1, E2. split; [exact P1 | exact P2].
Defined.

(** X15: for every number [-spacing] can read, the packer is given -1 for
    hard masks, soft masks and PSDF; for SDF, MSDF and MTSDF it is given the
    number itself when that lies between 1 and [INT_MAX], and 0 otherwise:
    for 0, and also for a number from 2^31 on, which the conversion to [int]
    turns negative. *)
Theorem spacing_of_any_number (hardware_concurrency : Z) (l : Locals) (s : Z) :
  0 <= s < 2 ^ 32 ->
  ps_spacing (packer_settings (fixed_up hardware_concurrency (arg_spacing s l)))
  = match imageType (cfg l) with
    | HARD_MASK | SOFT_MASK | PSDF => -1
    | SDF | MSDF | MTSDF => if (0 <? s) && (s <=? INT_MAX) then s else 0
    end.
Proof.
  intros Hs. unfold packer_settings. cbn [ps_spacing].
  rewrite fixed_up_spacing. unfold spacing, arg_spacing.
  cbn [imageType cfg packingSpacing set_packingSpacing].
  destruct (imageType (cfg l)); try reflexivity;
    (destruct (Z_le_gt_dec s INT_MAX) as [Le|Gt];
     [ rewrite Wrap.to_int_small by lia;
       replace (s <=? INT_MAX) with true by (symmetry; apply Z.leb_le; lia);
       rewrite andb_true_r, Z.gtb_ltb; reflexivity
     | rewrite to_int_wraps by lia;
       replace (s <=? INT_MAX) with false by (symmetry; apply Z.leb_gt; lia);
       rewrite andb_false_r;
       replace (s - 2 ^ 32 >? 0) with false
         by (symmetry; rewrite Z.gtb_ltb; apply Z.ltb_ge; lia);
       reflexivity ]).
Qed.

Lemma spacing_of_any_number_witness :
  ps_spacing
    (packer_settings (fixed_up 8 (arg_spacing 4294967295 Samples.sdf_spacing2)))
  = 0
  /\ ps_spacing (packer_settings (fixed_up 8 (arg_spacing 3 Samples.sdf_spacing2)))
     = 3.
Proof.
  split.
  - exact (spacing_of_any_number 8 Samples.sdf_spacing2 4294967295
             ltac:(lia)).
  - exact (spacing_of_any_number 8 Samples.sdf_spacing2 3 ltac:(lia)).
Defined.

(* ================================================================= *)
(** ** More on the seeds *)

Section MoreSeeds.

Lemma cheap_calls_app fn a n : forall s first m,
  exists s',
    cheap_calls fn a s first (n + m)
    = cheap_calls fn a s first n ++ cheap_calls fn a s' (first + n) m.
Proof.
  induction n as [|n IH]; intros s first m.
  - exists s. cbn [cheap_calls Nat.add app]. rewrite Nat.add_0_r. reflexivity.
  - destruct (IH (wrap64 (s * LCG_MULTIPLIER)) (S first) m) as [s' E].
    exists s'. cbn [Nat.add cheap_calls app]. rewrite E.
    replace (first + S n)%nat with (S first + n)%nat by lia. reflexivity.
Qed.

Lemma seeds_of_calls (c : Configuration) n :
  coloring_seeds (log (edge_coloring c n))
  = if is_multichannel (imageType c)
    then map (fun k => (cc_glyph k, cc_seed k))
           (if expensiveColoring c
            then expensive_calls c n
            else cheap_calls (edgeColoring c) (angleThreshold c) (coloringSeed c) 0 n)
    else [].
Proof.
  unfold edge_coloring.
  destruct (is_multichannel (imageType c)); [|reflexivity].
  destruct (expensiveColoring c).
  - unfold log, emit, coloring_seeds. cbn [fst flat_map]. apply app_nil_r.
  - rewrite log_emit_all. apply coloring_seeds_calls.
Qed.

Lemma cheap_calls_zero fn a n : forall first,
  Forall (fun k => cc_seed k = 0) (cheap_calls fn a 0 first n).
Proof.
  induction n as [|n IH]; intros first; cbn [cheap_calls]; constructor.
  - reflexivity.
  - change (wrap64 (0 * LCG_MULTIPLIER)) with 0. apply IH.
Qed.

End MoreSeeds.

(** X16: the seed of a glyph does not depend on how many glyphs follow it:
    under either policy the seeds handed out for the first [n] of [n + m]
    glyphs are those handed out for [n] glyphs alone. *)
Theorem seeds_are_stable_under_appending (c : Configuration) (n m : nat) :
  firstn n (coloring_seeds (log (edge_coloring c (n + m))))
  = coloring_seeds (log (edge_coloring c n)).
Proof.
  rewrite !seeds_of_calls.
  destruct (is_multichannel (imageType c)); [|apply firstn_nil].
  destruct (expensiveColoring c).
  - unfold expensive_calls. rewrite seq_app, !map_app.
    rewrite firstn_app, firstn_all2 by (rewrite !length_map, length_seq; lia).
    rewrite !length_map, length_seq, Nat.sub_diag. cbn [firstn].
    apply app_nil_r.
  - destruct (cheap_calls_app (edgeColoring c) (angleThreshold c) n
                (coloringSeed c) 0 m) as [s' E].
    rewrite E, map_app.
    rewrite firstn_app, firstn_all2 by (rewrite length_map, cheap_calls_length; lia).
    rewrite length_map, cheap_calls_length, Nat.sub_diag. cbn [firstn].
    apply app_nil_r.
Qed.

(** X17: with the global seed 0 every glyph is coloured with seed 0, under
    the cheap policy as well as under the expensive one. *)
Theorem zero_seed_gives_zero_seeds (c : Configuration) (n : nat) :
  coloringSeed c = 0 ->
  Forall (fun p => snd p = 0) (coloring_seeds (log (edge_coloring c n))).
Proof.
  intros Z0. rewrite seeds_of_calls.
  destruct (is_multichannel (imageType c)); [|constructor].
  apply Forall_map. cbn [snd].
  destruct (expensiveColoring c).
  - unfold expensive_calls. apply Forall_map, Forall_forall. intros i _.
    cbn [cc_seed]. rewrite Z0. unfold expensive_glyphSeed, bang_bang, MachineInt.lnot.
    cbn [Z.eqb negb Z.b2z]. rewrite Z.mul_0_r. reflexivity.
  - rewrite Z0. apply cheap_calls_zero.
Qed.

Lemma zero_seed_gives_zero_seeds_witness :
  Forall (fun p => snd p = 0)
    (coloring_seeds (log (edge_coloring (cfg Samples.image_only) 3)))
  /\ List.length (coloring_seeds (log (edge_coloring (cfg Samples.image_only) 3)))
     = 3%nat.
Proof.
  split; [|reflexivity].
  exact (zero_seed_gives_zero_seeds (cfg Samples.image_only) 3 eq_refl).
Defined.

(* ================================================================= *)
(** ** More on packing, generation and export *)

Section MorePipeline.

Import RunFacts.

Variable tight_pack : PackerSettings -> Z -> PackResult.
Variable grid_pack : GridSettings -> PackerSettings -> Z -> PackResult.
Variable saveImage : ImageFormat -> string -> YDirection -> bool.
Variable exportArteryFont : string -> ArteryFontExportProperties -> bool.
Variable exportCSV : string -> bool.
Variable exportJSON : string -> JsonAtlasMetrics -> bool.
Variable generateShadronPreview : string -> string -> bool.

Local Abbreviation result_of := (pack_result tight_pack grid_pack).
Local Abbreviation packing := (pack tight_pack grid_pack).
Local Abbreviation generating := (generate saveImage exportArteryFont).
Local Abbreviation pipeline :=
  (pack_and_generate tight_pack grid_pack saveImage exportArteryFont exportCSV
     exportJSON generateShadronPreview).

(** Each writer leaves [result] alone when it succeeds (or has nothing to
    write) and makes it 1 when it fails. *)
Lemma export_csv_run c r :
  exists lg r',
    export_csv exportCSV c r = (lg, Go r')
    /\ ((r' = r /\ forall f, csvFilename c = Some f -> exportCSV f = true)
        \/ (r' = 1 /\ exists f, csvFilename c = Some f /\ exportCSV f = false)).
Proof.
  unfold export_csv. destruct (csvFilename c) as [f|].
  - destruct (exportCSV f) eqn:E; eexists; eexists; (split; [reflexivity|]).
    + left. split; [reflexivity|]. intros f' H. injection H as <-. exact E.
    + right. split; [reflexivity|]. exists f. split; [reflexivity | exact E].
  - eexists. eexists. split; [reflexivity|]. left. split; [reflexivity|].
    discriminate.
Qed.

Lemma export_json_run l c origin r :
  exists lg r',
    export_json exportJSON l c origin r = (lg, Go r')
    /\ ((r' = r
         /\ forall f, jsonFilename c = Some f ->
                      exportJSON f (json_metrics l c origin) = true)
        \/ (r' = 1
            /\ exists f, jsonFilename c = Some f
                         /\ exportJSON f (json_metrics l c origin) = false)).
Proof.
  unfold export_json. destruct (jsonFilename c) as [f|].
  - cbv zeta. destruct (exportJSON f (json_metrics l c origin)) eqn:E;
      eexists; eexists; (split; [reflexivity|]).
    + left. split; [reflexivity|]. intros f' H. injection H as <-. exact E.
    + right. split; [reflexivity|]. exists f. split; [reflexivity | exact E].
  - eexists. eexists. split; [reflexivity|]. left. split; [reflexivity|].
    discriminate.
Qed.

Lemma export_shadron_run c any r :
  exists lg r',
    export_shadron generateShadronPreview c any r = (lg, Go r')
    /\ ((r' = r
         /\ forall f text,
               shadronPreviewFilename c = Some f ->
               shadronPreviewText c = Some text ->
               any = true /\ generateShadronPreview f text = true)
        \/ (r' = 1
            /\ exists f text,
                 shadronPreviewFilename c = Some f
                 /\ shadronPreviewText c = Some text
                 /\ (any = false \/ generateShadronPreview f text = false))).
Proof.
  unfold export_shadron.
  destruct (shadronPreviewFilename c) as [f|];
    [destruct (shadronPreviewText c) as [text|]|].
  - destruct any; [destruct (generateShadronPreview f text) eqn:E|];
      eexists; eexists; (split; [reflexivity|]).
    + left. split; [reflexivity|]. intros f' t' H1 H2.
      injection H1 as <-. injection H2 as <-. split; [reflexivity | exact E].
    + right. split; [reflexivity|]. exists f, text. auto.
    + right. split; [reflexivity|]. exists f, text. auto.
  - eexists. eexists. split; [reflexivity|]. left. split; [reflexivity|].
    discriminate.
  - eexists. eexists. split; [reflexivity|]. left. split; [reflexivity|].
    discriminate.
Qed.

Lemma makeAtlas_run k c n :
  exists lg ok,
    makeAtlas saveImage exportArteryFont k c n = (lg, Go ok)
    /\ (ok = true
        <-> (forall f, imageFilename c = Some f ->
                       saveImage (imageFormat c) f (yDirection c) = true)
            /\ (forall f, arteryFontFilename c = Some f ->
                          exportArteryFont f (artery_properties c) = true)).
Proof.
  unfold makeAtlas, artery_properties.
  destruct (imageFilename c) as [fi|]; destruct (arteryFontFilename c) as [fa|];
    cbv zeta;
    try destruct (saveImage (imageFormat c) fi (yDirection c)) eqn:S;
    try destruct (exportArteryFont fa _) eqn:A;
    eexists; eexists; (split; [reflexivity|]);
    split; try discriminate; try (intros _; split; intros f H; try discriminate;
                                  injection H as <-; assumption);
    try reflexivity.
  all: intros [H1 H2];
    try (specialize (H1 _ eq_refl); congruence);
    try (specialize (H2 _ eq_refl); congruence).
Qed.

Lemma generate_run c n r :
  exists lg r',
    generating c n r = (lg, Go (c, r'))
    /\ ((r' = r
         /\ (layoutOnly c = false ->
             (forall f, imageFilename c = Some f ->
                        saveImage (imageFormat c) f (yDirection c) = true)
             /\ (forall f, arteryFontFilename c = Some f ->
                           exportArteryFont f (artery_properties c) = true)))
        \/ (r' = 1 /\ layoutOnly c = false)).
Proof.
  unfold generate. destruct (layoutOnly c) eqn:L; cbn [negb].
  - eexists. eexists. split; [reflexivity|]. left. split; [reflexivity|].
    discriminate.
  - destruct (edge_coloring c n) as [lg1 [[]|code]] eqn:E.
    + destruct (makeAtlas_run (atlas_kind c) c n) as (lg2 & ok & M & Hok).
      rewrite bind_go. cbn [fst snd]. rewrite M. cbn [bind ret fst snd].
      eexists. eexists. split; [reflexivity|].
      destruct ok; cbn [negb].
      * left. split; [reflexivity|]. intros _. apply Hok. reflexivity.
      * right. split; reflexivity.
    + exfalso. unfold edge_coloring in E.
      destruct (is_multichannel _); [destruct (expensiveColoring c)|];
        try discriminate.
      assert (G : forall es, exists u, snd (emit_all es) = Go u).
      { induction es as [|e es [u IH]]; [exists tt; reflexivity|].
        cbn [emit_all]. unfold emit. rewrite bind_go. cbn [snd]. eauto. }
      destruct (G (map ColoringCall
                     (cheap_calls (edgeColoring c) (angleThreshold c)
                        (coloringSeed c) 0 n))) as [u Hu].
      rewrite E in Hu. discriminate.
Qed.

Ltac branches_of H :=
  repeat match type of H with
         | context [if ?b then _ else _] => destruct b eqn:?
         end.

(** [pack] only ever leaves [main] with status 1. *)
Lemma pack_exit l n lg code : packing l n = (lg, Exit code) -> code = 1.
Proof.
  unfold pack, pack_tight, pack_grid.
  destruct (packingStyle l); cbv zeta; intros H;
    (destruct (pr_remaining _ =? 0);
     [|cbn [negb] in H; rewrite pack_failure_run in H; injection H as _ <-;
       reflexivity]);
    unfold when, ABORT, emit, exit, ret, bind in H; cbn [negb] in H;
    branches_of H; cbn in H; try discriminate;
    injection H as _ <-; reflexivity.
Qed.

(** The two ways a run with glyphs can go: [pack] leaves [main], or every
    later stage runs to its end. *)
Lemma pipeline_cases l n any r :
  n <> 0%nat ->
  (exists lg, packing l n = (lg, Exit 1) /\ pipeline l n any r = (lg, Exit 1))
  \/ (exists lgp c origin lgg r1 lg1 r2 lg2 r3 lg3 r4,
        packing l n = (lgp, Go (c, origin))
        /\ generating c n r = (lgg, Go (c, r1))
        /\ export_csv exportCSV c r1 = (lg1, Go r2)
        /\ export_json exportJSON l c origin r2 = (lg2, Go r3)
        /\ export_shadron generateShadronPreview c any r3 = (lg3, Go r4)
        /\ pipeline l n any r = (lgp ++ lgg ++ lg1 ++ lg2 ++ lg3, Go (c, r4))).
Proof.
  intros Hn. unfold pack_and_generate, pack_then_generate.
  apply Nat.eqb_neq in Hn. rewrite Hn, bind_ret_l.
  destruct (packing l n) as [lgp [[c origin]|code]] eqn:P.
  - right.
    destruct (generate_run c n r) as (lgg & r1 & G & _).
    destruct (export_csv_run c r1) as (lg1 & r2 & C & _).
    destruct (export_json_run l c origin r2) as (lg2 & r3 & J & _).
    destruct (export_shadron_run c any r3) as (lg3 & r4 & S & _).
    exists lgp, c, origin, lgg, r1, lg1, r2, lg2, r3, lg3, r4.
    repeat (split; [first [reflexivity | assumption]|]).
    do 6 (rewrite ?G, ?C, ?J, ?S, ?bind_go; cbn [fst snd ret]).
    rewrite ?app_nil_r, <- ?app_assoc. reflexivity.
  - left. pose proof (pack_exit l n lgp code P) as ->.
    exists lgp. split; reflexivity.
Qed.

Lemma generate_spec c n r lg c' r' :
  generating c n r = (lg, Go (c', r')) ->
  (r' = r
   /\ (layoutOnly c = false ->
       (forall f, imageFilename c = Some f ->
                  saveImage (imageFormat c) f (yDirection c) = true)
       /\ (forall f, arteryFontFilename c = Some f ->
                     exportArteryFont f (artery_properties c) = true)))
  \/ (r' = 1 /\ layoutOnly c = false).
Proof.
  intros E. destruct (generate_run c n r) as (lg0 & r0 & E0 & S).
  rewrite E in E0. injection E0 as _ _ <-. exact S.
Qed.

Lemma export_csv_spec c r lg r' :
  export_csv exportCSV c r = (lg, Go r') ->
  (r' = r /\ forall f, csvFilename c = Some f -> exportCSV f = true)
  \/ (r' = 1 /\ exists f, csvFilename c = Some f /\ exportCSV f = false).
Proof.
  intros E. destruct (export_csv_run c r) as (lg0 & r0 & E0 & S).
  rewrite E in E0. injection E0 as _ <-. exact S.
Qed.

Lemma export_json_spec l c origin r lg r' :
  export_json exportJSON l c origin r = (lg, Go r') ->
  (r' = r
   /\ forall f, jsonFilename c = Some f ->
                exportJSON f (json_metrics l c origin) = true)
  \/ (r' = 1
      /\ exists f, jsonFilename c = Some f
                   /\ exportJSON f (json_metrics l c origin) = false).
Proof.
  intros E. destruct (export_json_run l c origin r) as (lg0 & r0 & E0 & S).
  rewrite E in E0. injection E0 as _ <-. exact S.
Qed.

Lemma export_shadron_spec c any r lg r' :
  export_shadron generateShadronPreview c any r = (lg, Go r') ->
  (r' = r
   /\ forall f text,
         shadronPreviewFilename c = Some f ->
         shadronPreviewText c = Some text ->
         any = true /\ generateShadronPreview f text = true)
  \/ (r' = 1
      /\ exists f text,
           shadronPreviewFilename c = Some f
           /\ shadronPreviewText c = Some text
           /\ (any = false \/ generateShadronPreview f text = false)).
Proof.
  intros E. destruct (export_shadron_run c any r) as (lg0 & r0 & E0 & S).
  rewrite E in E0. injection E0 as _ <-. exact S.
Qed.

Lemma pipeline_no_glyphs l any r :
  pipeline l 0 any r = ([Stderr MsgNoGlyphs], Exit 1).
Proof. reflexivity. Qed.

(** X18: [main] returns either the status it had before packing or 1: a
    stage that fails makes it 1 and no later stage sets it back. *)
Theorem exit_status_is_kept_or_one (l : Locals) (n : nat) (any : bool) (r : Z) :
  exit_status (pipeline l n any r) = r \/ exit_status (pipeline l n any r) = 1.
Proof.
  destruct (Nat.eq_dec n 0) as [->|Hn]; [right; reflexivity|].
  destruct (pipeline_cases l n any r Hn)
    as [(lg & _ & E)
       | (lgp & c & o & lgg & r1 & lg1 & r2 & lg2 & r3 & lg3 & r4
          & _ & G & C & J & S & E)];
    rewrite E; unfold exit_status; cbn [snd]; [right; reflexivity|].
  apply generate_spec in G. apply export_csv_spec in C.
  apply export_json_spec in J. apply export_shadron_spec in S.
  destruct G as [[-> _]|[-> _]], C as [[-> _]|[-> _]], J as [[-> _]|[-> _]],
    S as [[-> _]|[-> _]]; auto.
Qed.

(** X19: [main] returns 0 only when the status before packing was 0, there
    were glyphs, [pack] returned 0 with positive atlas dimensions, and every
    output that was asked for was written: the image and the Artery Font
    (with the packed scale and range), the CSV file, the JSON file, and the
    Shadron preview, which also needs code points to be available. *)
Theorem exit_zero_means_all_written (l : Locals) (n : nat) (any : bool) (r : Z) :
  exit_status (pipeline l n any r) = 0 ->
  let c := packed_config l (result_of l n) in
  r = 0 /\ n <> 0%nat
  /\ pr_remaining (result_of l n) = 0
  /\ positive_dimensions c = true
  /\ (forall f, imageFilename (cfg l) = Some f ->
                saveImage (imageFormat (cfg l)) f (yDirection (cfg l)) = true)
  /\ (forall f, arteryFontFilename (cfg l) = Some f ->
                exportArteryFont f (artery_properties c) = true)
  /\ (forall f, csvFilename (cfg l) = Some f -> exportCSV f = true)
  /\ (forall f, jsonFilename (cfg l) = Some f ->
                exists origin, exportJSON f (json_metrics l c origin) = true)
  /\ (forall f text,
         shadronPreviewFilename (cfg l) = Some f ->
         shadronPreviewText (cfg l) = Some text ->
         any = true /\ generateShadronPreview f text = true).
Proof.
  intros H0. cbv zeta.
  destruct (Nat.eq_dec n 0) as [->|Hn]; [discriminate H0|].
  destruct (pipeline_cases l n any r Hn)
    as [(lg & _ & E)
       | (lgp & c & o & lgg & r1 & lg1 & r2 & lg2 & r3 & lg3 & r4
          & P & G & C & J & S & E)];
    rewrite E in H0; unfold exit_status in H0; cbn [snd] in H0; [discriminate|].
  subst r4.
  apply generate_spec in G. apply export_csv_spec in C.
  apply export_json_spec in J. apply export_shadron_spec in S.
  destruct S as [[<- Hs]|[? _]]; [|discriminate].
  destruct J as [[<- Hj]|[? _]]; [|discriminate].
  destruct C as [[<- Hc]|[? _]]; [|discriminate].
  destruct G as [[<- Hg]|[? _]]; [|discriminate].
  destruct (pack_go _ _ _ _ _ _ _ P) as (K & D & Ec).
  pose proof (packed_config_same_settings l (result_of l n)) as Same.
  rewrite <- Ec in *.
  unfold same_settings in Same.
  destruct Same as (_ & Ef & Ey & _ & _ & _ & _ & _ & _ & _ & _ & _ & _ & _ & _ & _
                    & Ea & Ei & Ejf & Ecf & Esf & Est).
  split; [reflexivity|]. split; [exact Hn|]. split; [exact K|].
  split; [exact D|].
  assert (L : forall f, imageFilename c = Some f \/ arteryFontFilename c = Some f ->
                        layoutOnly c = false).
  { intros f [X|X]; unfold layoutOnly; rewrite X; cbn [is_set];
      rewrite ?orb_true_r; reflexivity. }
  split; [|split; [|split; [|split]]].
  - intros f Hf. rewrite <- Ei in Hf. rewrite <- Ef, <- Ey.
    apply (proj1 (Hg (L f (or_introl Hf)))). exact Hf.
  - intros f Hf. rewrite <- Ea in Hf.
    apply (proj2 (Hg (L f (or_intror Hf)))). exact Hf.
  - intros f Hf. rewrite <- Ecf in Hf. apply Hc. exact Hf.
  - intros f Hf. rewrite <- Ejf in Hf. exists o. apply Hj. exact Hf.
  - intros f text Hf Ht. rewrite <- Esf in Hf. rewrite <- Est in Ht.
    exact (Hs f text Hf Ht).
Qed.

(* ----------------------------------------------------------------- *)
(** *** Properties of every event, stage by stage *)

Ltac all_events_by tac :=
  repeat first
    [ apply Events.all_ret
    | apply Events.all_exit
    | apply Events.all_when
    | apply Events.all_ABORT
    | apply Events.all_emit
    | apply Events.all_bind; [|intros ? ?]
    | match goal with
      | |- Events.all _ (match ?x with _ => _ end) => destruct x
      end
    | tac ].

Lemma pack_all (P : event -> Prop) l n :
  (forall e, is_setup e = true -> P e) -> Events.all P (packing l n).
Proof.
  intros HP. unfold pack, pack_tight, pack_grid, pack_failure.
  destruct (packingStyle l); cbv zeta;
    all_events_by ltac:(apply HP; reflexivity).
Qed.

(** A property of every event of a run follows from the same property of
    the events of its stages. *)
Lemma pipeline_all (P : event -> Prop) l n any r :
  P (Stderr MsgNoGlyphs) ->
  Events.all P (packing l n) ->
  (forall lg c o,
      packing l n = (lg, Go (c, o)) ->
      Events.all P (generating c n r)
      /\ (forall r1, Events.all P (export_csv exportCSV c r1))
      /\ (forall r2, Events.all P (export_json exportJSON l c o r2))
      /\ (forall r3, Events.all P (export_shadron generateShadronPreview c any r3))) ->
  Events.all P (pipeline l n any r).
Proof.
  intros H0 Hp Hs. unfold pack_and_generate, pack_then_generate.
  apply Events.all_bind;
    [destruct (n =? 0)%nat; all_events_by ltac:(exact H0)|intros _ _].
  destruct (packing l n) as [lgp [[c o]|code]] eqn:E.
  - destruct (Hs lgp c o eq_refl) as (Hg & Hc & Hj & Hh).
    apply Events.all_bind.
    + apply Events.all_bind; [exact Hp|]. intros [c1 o1] X. cbn [snd] in X.
      injection X as <- <-.
      apply Events.all_bind; [exact Hg|]. intros [c2 r2] _. apply Events.all_ret.
    + intros [[c1 o1] r1] X.
      rewrite bind_go in X. cbn [snd] in X.
      destruct (generate_run c n r) as (lgg & r' & G & _).
      rewrite G in X. cbn [bind ret snd] in X. injection X as <- <- <-.
      apply Events.all_bind; [apply Hc|intros ? _].
      apply Events.all_bind; [apply Hj|intros ? _].
      apply Events.all_bind; [apply Hh|intros ? _].
      apply Events.all_ret.
  - apply Events.all_bind; [|intros ? X; discriminate X].
    apply Events.all_bind; [exact Hp|intros ? X; discriminate X].
Qed.

Lemma exports_all (P : event -> Prop) l c o any :
  (forall e, is_generate e = false -> is_coloring e = false ->
             writes_bitmap e = false -> P e) ->
  (forall r1, Events.all P (export_csv exportCSV c r1))
  /\ (forall r2, Events.all P (export_json exportJSON l c o r2))
  /\ (forall r3, Events.all P (export_shadron generateShadronPreview c any r3)).
Proof.
  intros HP. unfold export_csv, export_json, export_shadron.
  repeat split; intros; cbv zeta; all_events_by ltac:(apply HP; reflexivity).
Qed.

Lemma edge_coloring_all (P : event -> Prop) c n :
  (forall e, is_coloring e = true -> P e) -> Events.all P (edge_coloring c n).
Proof.
  intros HP. unfold edge_coloring.
  destruct (is_multichannel (imageType c)); [|apply Events.all_ret].
  destruct (expensiveColoring c).
  - apply Events.all_emit, HP. reflexivity.
  - apply Events.all_emit_all, Forall_map, Forall_forall. intros k _.
    apply HP. reflexivity.
Qed.

Lemma packed_layoutOnly l r : layoutOnly (packed_config l r) = layoutOnly (cfg l).
Proof. unfold packed_config. destruct (packingStyle l); reflexivity. Qed.

Lemma packed_dimensions l r :
  (width (packed_config l r), height (packed_config l r)) = pr_dimensions r.
Proof.
  unfold packed_config.
  destruct (packingStyle l); cbn; symmetry; apply surjective_pairing.
Qed.

Lemma positive_dimensions_packed l r :
  positive_dimensions (packed_config l r)
  = positive_dimensions
      (set_dimensions (fst (pr_dimensions r)) (snd (pr_dimensions r)) (cfg l)).
Proof. unfold packed_config. destruct (packingStyle l); reflexivity. Qed.

Lemma pack_without_dimensions l n :
  pr_remaining (result_of l n) = 0 ->
  positive_dimensions (packed_config l (result_of l n)) = false ->
  exists lg,
    packing l n = (lg ++ [Stderr MsgNoDimensions], Exit 1)
    /\ Forall (fun e => is_setup e = true) lg.
Proof.
  rewrite positive_dimensions_packed.
  unfold pack, pack_result, pack_tight, pack_grid.
  destruct (packingStyle l); cbv zeta; intros R D; rewrite R, D;
    cbn [Z.eqb negb].
  - eexists [_]. split; [reflexivity|]. repeat constructor.
  - destruct (pr_hasCutoff _).
    + eexists [_; _]. split; [reflexivity|]. repeat constructor.
    + eexists [_]. split; [reflexivity|]. repeat constructor.
Qed.

(** X20: when neither an image nor an Artery Font file was asked for
    ([layoutOnly]), the run colours no edges, generates no bitmap and
    writes neither an image nor an Artery Font; the other outputs are
    still written from the layout. *)
Theorem layout_only_generates_nothing (l : Locals) (n : nat) (any : bool) (r : Z) :
  layoutOnly (cfg l) = true ->
  Events.all layout_event (pipeline l n any r).
Proof.
  intros L. apply pipeline_all.
  - repeat split.
  - apply pack_all. intros e. unfold is_setup, layout_event.
    destruct e; cbn; intros X; try discriminate X; repeat split.
  - intros lg c o E. apply pack_go in E. destruct E as (_ & _ & ->).
    split.
    + unfold generate. rewrite packed_layoutOnly, L. apply Events.all_ret.
    + apply exports_all. intros e G C W. repeat split; assumption.
Qed.

(** X21: when the packer places every glyph but reports a width or a
    height that is not positive, [main] prints that the atlas size could
    not be determined and returns 1, whatever the status so far; up to
    then it has only called the packer and printed: nothing was coloured,
    generated or written. *)
Theorem no_dimensions_aborts (l : Locals) (n : nat) (any : bool) (r : Z) :
  n <> 0%nat ->
  pr_remaining (result_of l n) = 0 ->
  fst (pr_dimensions (result_of l n)) <= 0
  \/ snd (pr_dimensions (result_of l n)) <= 0 ->
  exists lg,
    pipeline l n any r = (lg ++ [Stderr MsgNoDimensions], Exit 1)
    /\ Forall (fun e => is_setup e = true) lg.
Proof.
  intros Hn R D.
  assert (K : positive_dimensions (packed_config l (result_of l n)) = false).
  { unfold positive_dimensions.
    pose proof (packed_dimensions l (result_of l n)) as E.
    destruct (pr_dimensions (result_of l n)) as [w h].
    injection E as -> ->. cbn [fst snd] in D.
    apply andb_false_iff. rewrite !Z.gtb_ltb, !Z.ltb_ge. exact D. }
  destruct (pack_without_dimensions l n R K) as (lg & E & Q).
  exists lg. split; [|exact Q].
  destruct (pipeline_cases l n any r Hn)
    as [(lg' & P & ->)|(lgp & c & o & ? & ? & ? & ? & ? & ? & ? & ? & P & _)].
  - rewrite E in P. injection P as <-. reflexivity.
  - rewrite E in P. discriminate P.
Qed.

(** X22: a bitmap is only ever generated when an image or an Artery Font
    was asked for.  It is generated with float storage for the formats
    tiff, fl32, textfloat, binfloat and binfloatbe and byte storage
    otherwise; with one channel and the scanline generator for hard masks,
    one channel and the SDF generator for soft masks and SDF, one channel
    and the PSDF generator for PSDF, three channels and the MSDF generator
    for MSDF and four channels and the MTSDF generator for MTSDF; for all
    the glyphs that were loaded; and in exactly the dimensions the packer
    reported, which are positive. *)
Theorem generation_matches_packing (l : Locals) (n : nat) (any : bool) (r : Z) :
  Events.all (generates_for l n (result_of l n)) (pipeline l n any r).
Proof.
  apply pipeline_all.
  - exact I.
  - apply pack_all. intros e. unfold is_setup.
    destruct e; cbn; intros X; try discriminate X; exact I.
  - intros lg c o E. apply pack_go in E. destruct E as (_ & D & ->).
    split.
    + unfold generate, makeAtlas. rewrite packed_layoutOnly.
      destruct (layoutOnly (cfg l)) eqn:L; cbn [negb]; [apply Events.all_ret|].
      apply Events.all_bind;
        [apply edge_coloring_all; intros e; destruct e; cbn;
         intros X; try discriminate X; exact I|intros _ _].
      apply Events.all_bind; [|intros ? _; apply Events.all_ret].
      apply Events.all_bind.
      * apply Events.all_emit. cbn [generates_for].
        unfold positive_dimensions in D. apply andb_true_iff in D.
        rewrite !Z.gtb_ltb, !Z.ltb_lt in D.
        pose proof (packed_dimensions l (result_of l n)) as W.
        pose proof (packed_config_same_settings l (result_of l n)) as S.
        destruct S as (T & F & _).
        split; [|split].
        -- unfold atlas_kind, floatingPointFormat. cbv zeta. rewrite T, F.
           destruct (imageFormat (cfg l)), (imageType (cfg l)); reflexivity.
        -- unfold atlas_kind. cbv zeta. rewrite T.
           destruct (imageType (cfg l)); reflexivity.
        -- repeat split; tauto.
      * intros _ _. all_events_by ltac:(exact I).
    + apply exports_all. intros e G _ _.
      destruct e; try discriminate G; exact I.
Qed.

(** X23: the metrics written to the JSON file are those of the packing:
    scale, distance range and atlas dimensions as the packer reported
    them, the image type, Y direction and kerning flag of the command
    line, no grid for the tight packer and, for the grid packer, the
    cell dimensions, columns and rows the packer reported together with
    [main]'s [spacing]. *)
Theorem json_matches_packing (l : Locals) (n : nat) (any : bool) (r : Z) :
  Events.all (json_for l (result_of l n)) (pipeline l n any r).
Proof.
  apply pipeline_all.
  - exact I.
  - apply pack_all. intros e. unfold is_setup.
    destruct e; cbn; intros X; try discriminate X; exact I.
  - intros lg c o E. apply pack_go in E. destruct E as (_ & D & ->).
    split; [|split; [|split]].
    + unfold generate, makeAtlas.
      destruct (negb (layoutOnly _)); [|apply Events.all_ret].
      apply Events.all_bind;
        [apply edge_coloring_all; intros e; destruct e; cbn;
         intros X; try discriminate X; exact I|intros _ _].
      all_events_by ltac:(exact I).
    + intros r1. unfold export_csv. all_events_by ltac:(exact I).
    + intros r2. unfold export_json. cbv zeta.
      destruct (jsonFilename _); [|apply Events.all_ret].
      apply Events.all_bind; [|intros _ _; all_events_by ltac:(exact I)].
      apply Events.all_emit. cbn [json_for].
      pose proof (packed_dimensions l (result_of l n)) as W.
      unfold json_metrics, packed_config in *.
      destruct (packingStyle l); cbn;
        repeat split; try exact W.
      eexists. repeat split.
      destruct (pr_cellDimensions _); reflexivity.
    + intros r3. unfold export_shadron. all_events_by ltac:(exact I).
Qed.

End MorePipeline.

Lemma exit_zero_means_all_written_witness :
  let l := fixed_up 8 Samples.image_only in
  let pipeline :=
    pack_and_generate (Samples.tight_const Samples.fits64)
      (Samples.grid_const Samples.fits64) Samples.image_saved
      Samples.arfont_written Samples.csv_written Samples.json_written
      Samples.shadron_written l 1 true 0 in
  exit_status pipeline = 0
  /\ (forall f, imageFilename (cfg l) = Some f ->
                Samples.image_saved (imageFormat (cfg l)) f (yDirection (cfg l))
                = true).
Proof.
  cbv zeta.
  assert (E : exit_status
                (pack_and_generate (Samples.tight_const Samples.fits64)
                   (Samples.grid_const Samples.fits64) Samples.image_saved
                   Samples.arfont_written Samples.csv_written
                   Samples.json_written Samples.shadron_written
                   (fixed_up 8 Samples.image_only) 1 true 0) = 0)
    by (vm_compute; reflexivity).
  split; [exact E|].
  exact (proj1 (proj2 (proj2 (proj2 (proj2
    (exit_zero_means_all_written _ _ _ _ _ _ _ _ _ _ _ E)))))).
Defined.

Lemma layout_only_generates_nothing_witness :
  Events.all layout_event
    (pack_and_generate (Samples.tight_const Samples.fits64)
       (Samples.grid_const Samples.fits64) Samples.image_saved
       Samples.arfont_written Samples.csv_written Samples.json_written
       Samples.shadron_written (fixed_up 8 MoreSamples.json_only) 1 true 0).
Proof.
  apply layout_only_generates_nothing. reflexivity.
Defined.

Lemma no_dimensions_aborts_witness :
  exists lg,
    pack_and_generate (Samples.tight_const MoreSamples.no_room)
      (Samples.grid_const MoreSamples.no_room) Samples.image_saved
      Samples.arfont_written Samples.csv_written Samples.json_written
      Samples.shadron_written (fixed_up 8 Samples.image_only) 1 true 0
    = (lg ++ [Stderr MsgNoDimensions], Exit 1)
    /\ Forall (fun e => is_setup e = true) lg.
Proof.
  apply no_dimensions_aborts.
  - discriminate.
  - vm_compute. reflexivity.
  - left. vm_compute. discriminate.
Defined.

(* ================================================================= *)
(** ** Loading fonts *)

Lemma free_of_cons c a s : free_of c (String a s) -> a <> c /\ free_of c s.
Proof.
  unfold free_of. cbn [list_ascii_of_string In]. intros H.
  split; intros X; apply H; [left|right]; assumption.
Qed.

Lemma split_at_free c s : free_of c s -> split_at c s = (s, EmptyString).
Proof.
  induction s as [|a s IH]; intros F; [reflexivity|].
  apply free_of_cons in F. destruct F as [N F].
  cbn [split_at]. apply Ascii.eqb_neq in N. rewrite N, (IH F). reflexivity.
Qed.

Lemma split_at_stop c s r :
  free_of c s -> split_at c (s ++ String c r) = (s, String c r).
Proof.
  induction s as [|a s IH]; intros F.
  - cbn [append split_at]. rewrite Ascii.eqb_refl. reflexivity.
  - apply free_of_cons in F. destruct F as [N F].
    cbn [append split_at]. apply Ascii.eqb_neq in N. rewrite N, (IH F).
    reflexivity.
Qed.

Lemma advance_past t r : advance (String.length t) (t ++ r) = r.
Proof. induction t as [|a t IH]; [destruct r; reflexivity|exact IH]. Qed.

Lemma length_append (s r : string) :
  String.length (s ++ r) = (String.length s + String.length r)%nat.
Proof. induction s as [|a s IH]; cbn [append String.length]; [|rewrite IH]; reflexivity. Qed.

Lemma split_at_rest c s :
  (String.length (snd (split_at c s)) <= String.length s)%nat.
Proof.
  induction s as [|a s IH]; [apply Nat.le_refl|].
  cbn [split_at]. destruct (Ascii.eqb a c); [apply Nat.le_refl|].
  destruct (split_at c s) as [b r]. cbn [snd String.length] in *. lia.
Qed.

Lemma advance_length n s : (String.length (advance n s) <= String.length s)%nat.
Proof.
  revert s. induction n as [|n IH]; intros [|a s]; cbn [advance String.length];
    try apply Nat.le_refl.
  specialize (IH s). lia.
Qed.

Section FontFacts.

Import FontHolder.

Variable loadable : string -> bool.
Variable scan_double : string -> option (double * nat).
Variable varfonts : bool.

Local Abbreviation axes_of := (variation_axes scan_double).
Local Abbreviation load_var := (loadVarFont loadable scan_double).
Local Abbreviation load := (FontHolder_load loadable scan_double varfonts).
Local Abbreviation load_all := (FontHolder_load_all loadable scan_double varfonts).

(** The loop of [loadVarFont] ends: the fuel it is given is enough. *)
Lemma variation_axes_total fuel s :
  (String.length s < fuel)%nat -> exists axes, axes_of fuel s = Some axes.
Proof.
  revert s. induction fuel as [|fuel IH]; intros s L; [lia|].
  cbn [variation_axes].
  pose proof (split_at_rest "=" s) as R.
  destruct (split_at "=" s) as [buffer rest]. cbn [snd] in R.
  assert (N : forall set next,
             (String.length next <= String.length s)%nat ->
             exists axes,
               match next with
               | String c next' =>
                   if Ascii.eqb c "&"
                   then option_map (app set) (axes_of fuel next')
                   else Some set
               | EmptyString => Some set
               end = Some axes).
  { intros set [|c next'] B; [eexists; reflexivity|].
    destruct (Ascii.eqb c "&"); [|eexists; reflexivity].
    cbn [String.length] in B.
    destruct (IH next') as [a ->]; [lia|]. eexists. reflexivity. }
  destruct rest as [|e after]; [eexists; reflexivity|].
  cbn [String.length] in R.
  destruct (scan_double after) as [[value skip]|]; apply N;
    [pose proof (advance_length skip after)|]; lia.
Qed.

Lemma variation_axes_query axes : forall fuel,
  Forall (fun a => free_of "=" (fst (fst a))
                   /\ scans scan_double (snd (fst a)) (snd a)) axes ->
  (String.length (query_of axes) < fuel)%nat ->
  axes_of fuel (query_of axes)
  = Some (map (fun a => (fst (fst a), snd a)) axes).
Proof.
  induction axes as [|[[name text] value] rest IH]; intros fuel F L.
  - destruct fuel; [lia|]. reflexivity.
  - destruct fuel; [lia|].
    apply Forall_cons_iff in F. destruct F as [[Fn Fs] F]. cbn [fst snd] in Fn, Fs.
    cbn [query_of] in *. cbn [variation_axes].
    rewrite (split_at_stop _ _ _ Fn).
    destruct rest as [|next rest].
    + rewrite (Fs None), advance_past. reflexivity.
    + rewrite (Fs (Some (query_of (next :: rest)))), advance_past.
      cbn [Ascii.eqb Bool.eqb]. rewrite IH; [reflexivity|exact F|].
      rewrite length_append in L. cbn [String.length] in L.
      rewrite length_append in L. cbn [String.length] in L. lia.
Qed.

(** X24: a variable-font name without a ['?'] is loaded exactly as
    [msdfgen::loadFont] loads it: the same file, the same outcome, and no
    variation axis is set. *)
Theorem loadVarFont_without_query (w : World) (filename : string) :
  free_of "?" filename ->
  load_var w filename = loadFont loadable w filename.
Proof.
  intros F. unfold loadVarFont. rewrite (split_at_free _ _ F).
  destruct (loadFont loadable w filename) as [w' [font|]]; reflexivity.
Qed.

(** X25: for a name of the form [file?name=value&name=value...], where
    [file] holds no ['?'], no axis name holds an ['='] and [sscanf] reads
    each value up to the ['&'] or the end, [loadVarFont] loads [file] and
    sets exactly the named axes to the given values, in the order
    written.  (The loop runs within the bound on its rounds.) *)
Theorem loadVarFont_sets_named_axes (w : World) (file : string)
  (axes : list (string * string * double)) :
  free_of "?" file ->
  loadable file = true ->
  Forall (fun a => free_of "=" (fst (fst a))
                   /\ scans scan_double (snd (fst a)) (snd a)) axes ->
  load_var w (file ++ String "?" (query_of axes))
  = (fst (loadFont loadable w file),
     Some (mkFont (next_id w) file (map (fun a => (fst (fst a), snd a)) axes))).
Proof.
  intros F L A. unfold loadVarFont, loadFont.
  rewrite (split_at_stop _ _ _ F), L. cbn [fst font_id font_file].
  rewrite (variation_axes_query axes _ A); [reflexivity|lia].
Qed.

Lemma loadFont_fresh w f w' r :
  live w = [] -> loadFont loadable w f = (w', r) ->
  double_free w' = double_free w
  /\ live w' = match r with Some g => [font_id g] | None => [] end.
Proof.
  intros E. unfold loadFont. destruct (loadable f); intros X;
    injection X as <- <-; cbn; rewrite E; split; reflexivity.
Qed.

Lemma loadVarFont_fresh w f w' r :
  live w = [] -> load_var w f = (w', r) ->
  double_free w' = double_free w
  /\ live w' = match r with Some g => [font_id g] | None => [] end.
Proof.
  intros E. unfold loadVarFont.
  destruct (split_at "?" f) as [buffer rest].
  destruct (loadFont loadable w buffer) as [w1 [g|]] eqn:L;
    apply (loadFont_fresh _ _ _ _ E) in L; cbn [font_id] in L.
  - destruct rest as [|q query];
      [|destruct (variation_axes _ _ _)]; intros X; injection X as <- <-;
      exact L.
  - intros X; injection X as <- <-. exact L.
Qed.

Lemma destroy_held w h :
  holder_ok w h ->
  let w' := match font h with Some old => destroyFont w old | None => w end in
  live w' = [] /\ double_free w' = false.
Proof.
  intros (L & D & _ & _). cbv zeta. destruct (font h) as [old|]; [|split; assumption].
  unfold destroyFont. rewrite L. cbn [existsb]. rewrite Nat.eqb_refl.
  cbn [orb filter negb live double_free]. rewrite Nat.eqb_refl. split; [reflexivity|exact D].
Qed.

Lemma load_ok w h name isVarFont w' h' ok :
  holder_ok w h ->
  load w h name isVarFont = (w', h', ok) ->
  holder_ok w' h'
  /\ (ok = true ->
      exists f g, name = Some f /\ fontFilename h' = Some f /\ font h' = Some g).
Proof.
  intros I. unfold FontHolder_load.
  destruct (ft h); [|intros X; injection X as <- <- <-; split; [exact I|discriminate]].
  destruct name as [f|]; [|intros X; injection X as <- <- <-; split; [exact I|discriminate]].
  destruct (match fontFilename h with Some g => String.eqb g f | None => false end) eqn:S.
  - intros X; injection X as <- <- <-. split; [exact I|]. intros _.
    destruct (fontFilename h) as [g|] eqn:N; [|discriminate S].
    apply String.eqb_eq in S. subst g.
    destruct I as (_ & _ & I & _). destruct (font h) as [g|] eqn:G.
    + exists f, g. repeat split.
    + exfalso. rewrite N, ?G in I. apply I; [discriminate|reflexivity].
  - pose proof (destroy_held w h I) as [L D]. cbv zeta in L, D.
    cbv zeta.
    destruct (if isVarFont && varfonts then _ else _) as [w1 r] eqn:E.
    assert (F : double_free w1 = double_free
                  match font h with Some old => destroyFont w old | None => w end
                /\ live w1 = match r with Some g => [font_id g] | None => [] end).
    { destruct (isVarFont && varfonts);
        [eapply loadVarFont_fresh|eapply loadFont_fresh]; eassumption. }
    destruct F as [F1 F2]. rewrite D in F1.
    destruct r as [g|]; intros X; injection X as <- <- <-.
    + split.
      * repeat split; cbn; [exact F2|exact F1|discriminate].
      * intros _. exists f, g. repeat split.
    + split; [|discriminate].
      repeat split; cbn;
        [exact F2|exact F1|intros X; exfalso; apply X; reflexivity].
Qed.

Lemma load_all_ok inputs : forall w h w' h' ok,
  holder_ok w h -> load_all w h inputs = (w', h', ok) -> holder_ok w' h'.
Proof.
  induction inputs as [|[name v] rest IH]; intros w h w' h' ok I.
  - intros X; injection X as <- <- <-. exact I.
  - cbn [FontHolder_load_all].
    destruct (load w h name v) as [[w1 h1] ok1] eqn:E.
    apply (load_ok _ _ _ _ _ _ _ I) in E. destruct E as [I1 _].
    destruct ok1; [apply IH; exact I1|].
    intros X; injection X as <- <- <-. exact I1.
Qed.

Lemma init_ok freetype : holder_ok (mkWorld 0 [] false) (init freetype).
Proof. repeat split; cbn; intros X; exfalso; apply X; reflexivity. Qed.

(** X26: the font holder never leaks a font and never destroys one
    twice: whatever fonts it was asked to load, in whatever order, whether
    or not a load failed and the loop was left early, after its destructor
    has run the library holds no font handle. *)
Theorem font_holder_releases_every_font (freetype : bool)
  (inputs : list (option string * bool)) :
  let '(w, h, _) := load_all (mkWorld 0 [] false) (init freetype) inputs in
  live (destroy w h) = [] /\ double_free (destroy w h) = false.
Proof.
  destruct (load_all _ _ inputs) as [[w h] ok] eqn:E.
  apply (load_all_ok _ _ _ _ _ _ (init_ok freetype)) in E.
  pose proof (destroy_held w h E) as D. cbv zeta in D.
  unfold destroy. destruct (ft h) eqn:T; [exact D|].
  destruct E as (L & F & _ & K). split; [|exact F].
  rewrite L. destruct (font h) eqn:G; [|reflexivity].
  rewrite K in T; discriminate.
Qed.

(** X27: whenever [load] returns true, after any earlier loads, a file
    name was given, the holder remembers it and holds a font, and that font
    is the one handle alive in the library: the font used for loading the
    glyphs has not been destroyed. *)
Theorem font_holder_load_gives_live_font (freetype : bool)
  (inputs : list (option string * bool)) (name : option string)
  (isVarFont : bool) (w w' : World) (h h' : FontHolder.t) (ok : bool) :
  load_all (mkWorld 0 [] false) (init freetype) inputs = (w, h, ok) ->
  load w h name isVarFont = (w', h', true) ->
  exists f g,
    name = Some f /\ fontFilename h' = Some f /\ font h' = Some g
    /\ live w' = [font_id g] /\ double_free w' = false.
Proof.
  intros E L.
  apply (load_all_ok _ _ _ _ _ _ (init_ok freetype)) in E.
  apply (load_ok _ _ _ _ _ _ _ E) in L. destruct L as [(L1 & L2 & _) L].
  destruct (L eq_refl) as (f & g & N & H & G).
  exists f, g. rewrite G in L1. repeat split; assumption.
Qed.

End FontFacts.

Lemma loadVarFont_without_query_witness :
  loadVarFont MoreSamples.always_loadable MoreSamples.scan_seven
    (mkWorld 0 [] false) "a.ttf"
  = (mkWorld 1 [0%nat] false, Some (mkFont 0 "a.ttf" [])).
Proof.
  rewrite loadVarFont_without_query; [reflexivity|].
  unfold free_of. cbn. intuition discriminate.
Defined.

Lemma loadVarFont_sets_named_axes_witness :
  loadVarFont MoreSamples.always_loadable MoreSamples.scan_seven
    (mkWorld 0 [] false) "a.ttf?wght=7&wdth=7"
  = (mkWorld 1 [0%nat] false,
     Some (mkFont 0 "a.ttf" [("wght"%string, 7%float); ("wdth"%string, 7%float)])).
Proof.
  apply (loadVarFont_sets_named_axes MoreSamples.always_loadable
           MoreSamples.scan_seven (mkWorld 0 [] false) "a.ttf"
           [("wght"%string, "7"%string, 7%float);
            ("wdth"%string, "7"%string, 7%float)]).
  - unfold free_of. cbn. intuition discriminate.
  - reflexivity.
  - repeat constructor; cbn [fst snd];
      try (unfold free_of; cbn; intuition discriminate);
      intros [tail|]; reflexivity.
Defined.

Lemma font_holder_load_gives_live_font_witness :
  exists f g,
    Some "b.ttf"%string = Some f
    /\ FontHolder.fontFilename
         (FontHolder.mk true (Some (mkFont 1 "b.ttf" [])) (Some "b.ttf"%string))
       = Some f
    /\ FontHolder.font
         (FontHolder.mk true (Some (mkFont 1 "b.ttf" [])) (Some "b.ttf"%string))
       = Some g
    /\ live (mkWorld 2 [1%nat] false) = [font_id g]
    /\ double_free (mkWorld 2 [1%nat] false) = false.
Proof.
  apply (font_holder_load_gives_live_font MoreSamples.always_loadable
           MoreSamples.scan_seven true true
           [(Some "a.ttf"%string, false)] (Some "b.ttf"%string) false
           (mkWorld 1 [0%nat] false) (mkWorld 2 [1%nat] false)
           (FontHolder.mk true (Some (mkFont 0 "a.ttf" [])) (Some "a.ttf"%string))
           (FontHolder.mk true (Some (mkFont 1 "b.ttf" [])) (Some "b.ttf"%string))
           true); reflexivity.
Defined.
